(** * ble_scan.c: scan, filter by name, one worker thread per accepted device

    A shallow embedding of [src/ble_scan.c].  The controller thread's code
    ([main], [ble_task], [ble_discovered_device]) and the completion callback
    [on_device_connect] are state-passing functions over one program state;
    the lock protocol between the controller, the workers
    ([ble_connect_device]) and the callbacks is an interleaving semantics
    over the same state, one step per blocking or shared-memory operation.

    The GATT library (gattlib) and the C library are outside the repository:
    their results (statuses, discovered advertisements, allocation failures)
    are inputs of the functions that call them. *)

From stdpp Require Import base option list strings.
From Stdlib Require Import ZArith Lia.

(** ** Constants of the source *)

Definition BLE_SCAN_TIMEOUT : Z := 10.
Definition CONNECT_DEVICE_NAME : string := "Local".
Definition GATTLIB_SUCCESS : Z := 0.

(** ** Data *)

(** Heap blocks are named by the order of their allocation; a nullable C
    pointer is an [option ptr]. *)
Abbreviation ptr := nat (only parsing).
Abbreviation pthread_t := nat (only parsing).
Abbreviation gattlib_adapter_t := nat (only parsing).
Abbreviation gattlib_connection_t := nat (only parsing).
Abbreviation uuid_t := string (only parsing).

(** The threads of the program: the controller running [ble_task], the worker
    running [ble_connect_device] in thread [t], and the library context that
    runs [on_device_connect] for the connect request issued by worker [t]. *)
Inductive tid :=
| Task
| Worker (t : pthread_t)
| Callback (t : pthread_t).

#[global] Instance tid_eq_dec : EqDecision tid.
Proof. solve_decision. Defined.

Inductive pthread_mutex_t :=
| MutexUninit
| MutexFree
| MutexHeld (owner : tid)
| MutexDestroyed.

#[global] Instance pthread_mutex_eq_dec : EqDecision pthread_mutex_t.
Proof. solve_decision. Defined.

Inductive pthread_cond_t :=
| CondUninit
| CondReady
| CondDestroyed.

(** [struct connection_t]; the [entries] links are the list
    [g_ble_connections] of the state. *)
Record connection_t := mk_connection {
  thread : option pthread_t;
  adapter : option gattlib_adapter_t;
  addr : option ptr;
  done_mutex : pthread_mutex_t;
  done_cond : pthread_cond_t;
  is_done : bool
}.

(** What [calloc] returns: every field zero. *)
Definition zeroed_connection : connection_t :=
  mk_connection None None None MutexUninit CondUninit false.

Definition set_thread (t : pthread_t) (c : connection_t) : connection_t :=
  mk_connection (Some t) (adapter c) (addr c) (done_mutex c) (done_cond c) (is_done c).
Definition set_adapter (a : gattlib_adapter_t) (c : connection_t) : connection_t :=
  mk_connection (thread c) (Some a) (addr c) (done_mutex c) (done_cond c) (is_done c).
Definition set_addr (a : option ptr) (c : connection_t) : connection_t :=
  mk_connection (thread c) (adapter c) a (done_mutex c) (done_cond c) (is_done c).
Definition set_done_mutex (m : pthread_mutex_t) (c : connection_t) : connection_t :=
  mk_connection (thread c) (adapter c) (addr c) m (done_cond c) (is_done c).
Definition set_done_cond (d : pthread_cond_t) (c : connection_t) : connection_t :=
  mk_connection (thread c) (adapter c) (addr c) (done_mutex c) d (is_done c).
Definition set_is_done (b : bool) (c : connection_t) : connection_t :=
  mk_connection (thread c) (adapter c) (addr c) (done_mutex c) (done_cond c) b.

Inductive block :=
| BConnection (c : connection_t)
| BString (s : string).

Record gattlib_primary_service_t := mk_service {
  attr_handle_start : Z;
  attr_handle_end : Z;
  service_uuid : uuid_t
}.

Record gattlib_characteristic_t := mk_characteristic {
  properties : Z;
  value_handle : Z;
  characteristic_uuid : uuid_t
}.

(** ** Observable actions *)

Inductive message :=
| MsgDiscoveredNamed (a name : string)
| MsgDiscovered (a : string)
| MsgScanCompleted
| MsgStart (a : option ptr)
| MsgDone (a : option ptr)
| MsgService (i : nat) (sv : gattlib_primary_service_t)
| MsgCharacteristic (i : nat) (ch : gattlib_characteristic_t)
| MsgUsage (prog : option string).

Inductive error_message :=
| ErrDiscoverPrimary
| ErrDiscoverChar
| ErrDisconnect (p : ptr) (ret : Z)
| ErrConnect (a : option ptr) (ret : Z)
| ErrAllocConnection
| ErrCreateThread
| ErrOpenAdapter
| ErrScan
| ErrMainloop.

Inductive event :=
| Printf (m : message)
| Log (e : error_message)
| AdapterOpen (name : option string) (ret : Z)
| ScanEnable (a : gattlib_adapter_t) (timeout : Z) (ret : Z)
| ScanDisable (a : gattlib_adapter_t)
| AdapterClose (a : gattlib_adapter_t)
| Connect (a : option gattlib_adapter_t) (dst : option ptr) (user_data : ptr) (ret : Z)
| DiscoverPrimary (conn : gattlib_connection_t) (ret : Z)
| DiscoverChar (conn : gattlib_connection_t) (ret : Z)
| Disconnect (conn : gattlib_connection_t) (wait_disconnection : bool) (ret : Z)
| FreeServices
| FreeCharacteristics
| Calloc (p : option ptr)
| Strdup (p : option ptr)
| Free (p : ptr)
| MutexInit (p : ptr)
| CondInit (p : ptr)
| MutexDestroy (p : ptr)
| CondDestroy (p : ptr)
| ThreadCreate (arg : ptr) (ret : Z)
| ThreadJoin (t : pthread_t)
| ListInsertHead (p : ptr)
| ListRemove (p : ptr)
| LockGlobal (o : tid)
| UnlockGlobal (o : tid)
| LockDone (p : ptr) (o : tid)
| UnlockDone (p : ptr) (o : tid)
| CondWait (p : ptr) (o : tid)
| SetDone (p : ptr) (o : tid)
| CondSignal (p : ptr) (o : tid).

#[global] Instance service_eq_dec : EqDecision gattlib_primary_service_t.
Proof. solve_decision. Defined.
#[global] Instance characteristic_eq_dec : EqDecision gattlib_characteristic_t.
Proof. solve_decision. Defined.
#[global] Instance message_eq_dec : EqDecision message.
Proof. solve_decision. Defined.
#[global] Instance error_message_eq_dec : EqDecision error_message.
Proof. solve_decision. Defined.
#[global] Instance event_eq_dec : EqDecision event.
Proof. solve_decision. Defined.

(** ** Program state *)

(** Where a worker thread stands in [ble_connect_device]; the names are the
    source lines of the next operation. *)
Inductive worker_pc :=
| W110   (* pthread_mutex_lock(&g_mutex) *)
| W113   (* gattlib_connect(...) *)
| W119   (* pthread_mutex_lock(&connection->done_mutex) *)
| W120   (* while (!connection->is_done) *)
| W121   (* pthread_cond_wait: release done_mutex and go to sleep *)
| W121s  (* pthread_cond_wait: asleep on done_cond *)
| W121r  (* pthread_cond_wait: woken, re-acquire done_mutex *)
| W123   (* pthread_mutex_unlock(&connection->done_mutex) *)
| W126   (* pthread_mutex_unlock(&g_mutex) *)
| W127.  (* return NULL *)

(** Where the completion callback of a connect request stands. *)
Inductive callback_pc :=
| CbNone      (* no callback will be delivered (yet) *)
| CbPending   (* the library will invoke on_device_connect *)
| C98         (* lines 62-95 done; pthread_mutex_lock(&connection->done_mutex) *)
| C99         (* connection->is_done = true *)
| C100        (* pthread_cond_signal(&connection->done_cond) *)
| C101        (* pthread_mutex_unlock(&connection->done_mutex) *)
| C102.       (* returned *)

#[global] Instance worker_pc_eq_dec : EqDecision worker_pc.
Proof. solve_decision. Defined.
#[global] Instance callback_pc_eq_dec : EqDecision callback_pc.
Proof. solve_decision. Defined.

Record worker := mk_worker {
  w_arg : ptr;            (* the connection passed to pthread_create *)
  w_pc : worker_pc;
  w_cb : callback_pc
}.

Record state := mk_state {
  adapter_name : option string;
  g_mutex : pthread_mutex_t;
  g_ble_connections : list ptr;       (* lh_first first *)
  heap : list (option block);         (* [Some]: allocated, [None]: freed *)
  workers : list worker;              (* thread [t] is [workers !! t] *)
  trace : list event                  (* most recent first *)
}.

(** The state at program start: [g_mutex] is statically initialised. *)
Definition initial_state : state :=
  mk_state None MutexFree [] [] [] [].

Definition with_adapter_name (n : option string) (s : state) : state :=
  mk_state n (g_mutex s) (g_ble_connections s) (heap s) (workers s) (trace s).
Definition with_g_mutex (m : pthread_mutex_t) (s : state) : state :=
  mk_state (adapter_name s) m (g_ble_connections s) (heap s) (workers s) (trace s).
Definition with_connections (l : list ptr) (s : state) : state :=
  mk_state (adapter_name s) (g_mutex s) l (heap s) (workers s) (trace s).
Definition with_heap (h : list (option block)) (s : state) : state :=
  mk_state (adapter_name s) (g_mutex s) (g_ble_connections s) h (workers s) (trace s).
Definition with_workers (w : list worker) (s : state) : state :=
  mk_state (adapter_name s) (g_mutex s) (g_ble_connections s) (heap s) w (trace s).
Definition emit (e : event) (s : state) : state :=
  mk_state (adapter_name s) (g_mutex s) (g_ble_connections s) (heap s) (workers s)
           (e :: trace s).

(** The events of a state in the order they happened. *)
Definition history (s : state) : list event := rev (trace s).

(** ** Sequential code: a state monad with blocking and undefined behaviour *)

Inductive result (A : Type) :=
| Ok (a : A) (s : state)     (* returned *)
| Hang (s : state)           (* blocked forever *)
| Fault (s : state)          (* undefined behaviour: bad free or dereference *)
| OutOfFuel.
Arguments Ok {A} a s.
Arguments Hang {A} s.
Arguments Fault {A} s.
Arguments OutOfFuel {A}.

Definition M (A : Type) : Type := state → result A.

Definition ret {A} (a : A) : M A := λ s, Ok a s.
Definition bind {A B} (m : M A) (k : A → M B) : M B :=
  λ s, match m s with
       | Ok a s' => k a s'
       | Hang s' => Hang s'
       | Fault s' => Fault s'
       | OutOfFuel => OutOfFuel
       end.
Definition get : M state := λ s, Ok s s.
Definition modify (f : state → state) : M unit := λ s, Ok tt (f s).
Definition hang {A} : M A := λ s, Hang s.
Definition fault {A} : M A := λ s, Fault s.

Notation "'let*' x := m 'in' k" := (bind m (λ x, k))
  (at level 10, x name, m at level 100, k at level 200).

Definition say (e : event) : M unit := modify (emit e).

(** *** Heap operations *)

Definition load_connection (p : ptr) : M connection_t :=
  λ s, match heap s !! p with
       | Some (Some (BConnection c)) => Ok c s
       | _ => Fault s
       end.

(** [connection->field = v]: a store into an allocated record. *)
Definition store_connection (p : ptr) (f : connection_t → connection_t) : M unit :=
  let* c := load_connection p in
  modify (λ s, with_heap (<[p := Some (BConnection (f c))]> (heap s)) s).

(** [calloc(sizeof(struct connection_t), 1)]; [ok] is whether memory is left. *)
Definition calloc_connection (ok : bool) : M (option ptr) :=
  if ok then
    let* s := get in
    let p := length (heap s) in
    let* _ := modify (λ s, emit (Calloc (Some p))
                   (with_heap (heap s ++ [Some (BConnection zeroed_connection)]) s)) in
    ret (Some p)
  else
    let* _ := say (Calloc None) in
    ret None.

(** [strdup(str)]. *)
Definition strdup (ok : bool) (str : string) : M (option ptr) :=
  if ok then
    let* s := get in
    let p := length (heap s) in
    let* _ := modify (λ s, emit (Strdup (Some p))
                   (with_heap (heap s ++ [Some (BString str)]) s)) in
    ret (Some p)
  else
    let* _ := say (Strdup None) in
    ret None.

(** [free(p)]; freeing the null pointer does nothing, freeing a block that is
    not allocated is undefined. *)
Definition free (p : option ptr) : M unit :=
  match p with
  | None => ret tt
  | Some q =>
      let* s := get in
      match heap s !! q with
      | Some (Some _) => modify (λ s, emit (Free q) (with_heap (<[q := None]> (heap s)) s))
      | _ => fault
      end
  end.

(** *** pthread operations on a record's [done_mutex] and [done_cond] *)

Definition pthread_mutex_init (p : ptr) : M unit :=
  let* _ := store_connection p (set_done_mutex MutexFree) in
  say (MutexInit p).

Definition pthread_cond_init (p : ptr) : M unit :=
  let* _ := store_connection p (set_done_cond CondReady) in
  say (CondInit p).

(** Destroying a mutex that is locked or was never initialised is undefined. *)
Definition pthread_mutex_destroy (p : ptr) : M unit :=
  let* c := load_connection p in
  match done_mutex c with
  | MutexFree =>
      let* _ := store_connection p (set_done_mutex MutexDestroyed) in
      say (MutexDestroy p)
  | _ => fault
  end.

Definition pthread_cond_destroy (p : ptr) : M unit :=
  let* c := load_connection p in
  match done_cond c with
  | CondReady =>
      let* _ := store_connection p (set_done_cond CondDestroyed) in
      say (CondDestroy p)
  | _ => fault
  end.

(** [pthread_mutex_lock(&connection->done_mutex)] by thread [o]: blocks while
    another thread holds the mutex. *)
Definition pthread_mutex_lock_done (p : ptr) (o : tid) : M unit :=
  let* c := load_connection p in
  match done_mutex c with
  | MutexFree =>
      let* _ := store_connection p (set_done_mutex (MutexHeld o)) in
      say (LockDone p o)
  | MutexHeld _ => hang
  | _ => fault
  end.

(** Unlocking is defined only for the owner. *)
Definition pthread_mutex_unlock_done (p : ptr) (o : tid) : M unit :=
  let* c := load_connection p in
  if decide (done_mutex c = MutexHeld o) then
    let* _ := store_connection p (set_done_mutex MutexFree) in
    say (UnlockDone p o)
  else fault.

(** A thread sleeping in [pthread_cond_wait] on the condition of record [p]
    is woken; any other thread is left as it is. *)
Definition wake_on (p : ptr) (w : worker) : worker :=
  if decide (w_arg w = p ∧ w_pc w = W121s) then mk_worker (w_arg w) W121r (w_cb w) else w.

(** [pthread_cond_signal(&connection->done_cond)]: the threads asleep on the
    condition are woken; without a sleeper the signal has no effect. *)
Definition pthread_cond_signal (p : ptr) (o : tid) : M unit :=
  let* c := load_connection p in
  match done_cond c with
  | CondReady =>
      let* _ := modify (λ s, with_workers (wake_on p <$> workers s) s) in
      say (CondSignal p o)
  | _ => fault
  end.

(** [pthread_cond_wait(&connection->done_cond, &connection->done_mutex)] by
    thread [o], its first part: the caller, which must hold the mutex,
    releases it and falls asleep in one atomic operation.  Waiting on a
    condition that does not exist is undefined. *)
Definition pthread_cond_wait (p : ptr) (o : tid) : M unit :=
  let* c := load_connection p in
  match done_cond c with
  | CondReady =>
      let* _ := pthread_mutex_unlock_done p o in
      say (CondWait p o)
  | _ => fault
  end.

(** *** The global mutex *)

Definition pthread_mutex_lock_global (o : tid) : M unit :=
  let* s := get in
  match g_mutex s with
  | MutexFree => modify (λ s, emit (LockGlobal o) (with_g_mutex (MutexHeld o) s))
  | MutexHeld _ => hang
  | _ => fault
  end.

Definition pthread_mutex_unlock_global (o : tid) : M unit :=
  let* s := get in
  if decide (g_mutex s = MutexHeld o) then
    modify (λ s, emit (UnlockGlobal o) (with_g_mutex MutexFree s))
  else fault.

(** *** Threads *)

(** [pthread_create(&connection->thread, NULL, ble_connect_device, connection)];
    [r] is the status the call returns.  On success the new thread stands at
    the first line of [ble_connect_device] and its id is stored in the record. *)
Definition pthread_create (r : Z) (connection : ptr) : M Z :=
  if (r =? 0)%Z then
    let* s := get in
    let t := length (workers s) in
    let* _ := modify (λ s, with_workers (workers s ++ [mk_worker connection W110 CbNone]) s) in
    let* _ := store_connection connection (set_thread t) in
    let* _ := say (ThreadCreate connection 0) in
    ret 0%Z
  else
    let* _ := say (ThreadCreate connection r) in
    ret r.

(** [pthread_join(t, NULL)] returns once thread [t] has returned; [returns]
    tells whether it ever does. *)
Definition pthread_join (returns : pthread_t → bool) (t : option pthread_t) : M unit :=
  match t with
  | Some t => if returns t then say (ThreadJoin t) else hang
  | None => fault
  end.

(** ** [ble_discovered_device] (lines 130-167) *)

(** [strcmp]: zero on equal strings, otherwise the sign of the first
    difference, characters compared by their codes. *)
Definition strcmp (a b : string) : Z :=
  match String.compare a b with
  | Eq => 0
  | Lt => -1
  | Gt => 1
  end.

(** What the C library and the thread library answer during one call of the
    callback. *)
Record discovery_env := mk_discovery_env {
  calloc_ok : bool;
  strdup_ok : bool;
  pthread_create_ret : Z
}.

Definition ble_discovered_device (e : discovery_env) (adapter : gattlib_adapter_t)
    (addr_ : string) (name : option string) : M unit :=
  let accepted : M unit :=
    let* connection := calloc_connection (calloc_ok e) in
    match connection with
    | None => say (Log ErrAllocConnection)
    | Some connection =>
        let* a := strdup (strdup_ok e) addr_ in
        let* _ := store_connection connection (set_addr a) in
        let* _ := store_connection connection (set_adapter adapter) in
        let* _ := store_connection connection (set_is_done false) in
        let* _ := pthread_mutex_init connection in
        let* _ := pthread_cond_init connection in
        let* r := pthread_create (pthread_create_ret e) connection in
        if negb (r =? 0)%Z then
          let* _ := say (Log ErrCreateThread) in
          free (Some connection)
        else
          let* _ := modify (λ s, with_connections (connection :: g_ble_connections s) s) in
          say (ListInsertHead connection)
    end in
  match name with
  | Some nm =>
      let* _ := say (Printf (MsgDiscoveredNamed addr_ nm)) in
      if negb (strcmp nm CONNECT_DEVICE_NAME =? 0)%Z then ret tt
      else accepted
  | None =>
      say (Printf (MsgDiscovered addr_))
  end.

(** ** [on_device_connect] (lines 53-102) *)

(** What the GATT library answers during one call of the callback; the
    arrays it returns are lists, their counts the lengths. *)
Record gatt_env := mk_gatt_env {
  discover_primary_ret : Z;
  services : list gattlib_primary_service_t;
  discover_char_ret : Z;
  characteristics : list gattlib_characteristic_t;
  disconnect_ret : Z
}.

Fixpoint print_services (i : nat) (l : list gattlib_primary_service_t) : M unit :=
  match l with
  | [] => ret tt
  | sv :: l' =>
      let* _ := say (Printf (MsgService i sv)) in
      print_services (S i) l'
  end.

Fixpoint print_characteristics (i : nat) (l : list gattlib_characteristic_t) : M unit :=
  match l with
  | [] => ret tt
  | ch :: l' =>
      let* _ := say (Printf (MsgCharacteristic i ch)) in
      print_characteristics (S i) l'
  end.

(** Lines 62-89: everything before the label [disconnect_exit]. *)
Definition discover (e : gatt_env) (conn : gattlib_connection_t) : M unit :=
  let r := discover_primary_ret e in
  let* _ := say (DiscoverPrimary conn r) in
  if negb (r =? 0)%Z then say (Log ErrDiscoverPrimary)
  else
    let* _ := print_services 0 (services e) in
    let* _ := say FreeServices in
    let r := discover_char_ret e in
    let* _ := say (DiscoverChar conn r) in
    if negb (r =? 0)%Z then say (Log ErrDiscoverChar)
    else
      let* _ := print_characteristics 0 (characteristics e) in
      say FreeCharacteristics.

(** Lines 62-95: discovery, then the disconnect at [disconnect_exit]. *)
Definition gatt_session (e : gatt_env) (conn : gattlib_connection_t) (connection : ptr) : M unit :=
  let* _ := discover e conn in
  let r := disconnect_ret e in
  let* _ := say (Disconnect conn true r) in
  if negb (r =? GATTLIB_SUCCESS)%Z then say (Log (ErrDisconnect connection r))
  else ret tt.

(** Lines 98-101, one operation each. *)
Definition signal_lock (connection : ptr) (me : tid) : M unit :=
  pthread_mutex_lock_done connection me.
Definition signal_set (connection : ptr) (me : tid) : M unit :=
  let* _ := store_connection connection (set_is_done true) in
  say (SetDone connection me).
Definition signal_cond (connection : ptr) (me : tid) : M unit :=
  pthread_cond_signal connection me.
Definition signal_unlock (connection : ptr) (me : tid) : M unit :=
  pthread_mutex_unlock_done connection me.

(** The whole callback, run by thread [me] without interruption. *)
Definition on_device_connect (e : gatt_env) (me : tid) (adapter : gattlib_adapter_t)
    (dst : string) (conn : gattlib_connection_t) (error : Z) (user_data : ptr) : M unit :=
  let connection := user_data in
  let* _ := gatt_session e conn connection in
  let* _ := signal_lock connection me in
  let* _ := signal_set connection me in
  let* _ := signal_cond connection me in
  signal_unlock connection me.

(** ** [ble_task] (lines 169-206) *)

Record advertisement := mk_advertisement {
  adv_addr : string;
  adv_name : option string;
  adv_env : discovery_env
}.

(** Modelled from the spec: gattlib's scan call is outside the repository; it
    is synchronous, invokes the callback once per discovered advertisement on
    the caller's stack, and returns a status. *)
Fixpoint deliver (cb : discovery_env → gattlib_adapter_t → string → option string → M unit)
    (adapter : gattlib_adapter_t) (l : list advertisement) : M unit :=
  match l with
  | [] => ret tt
  | a :: l' =>
      let* _ := cb (adv_env a) adapter (adv_addr a) (adv_name a) in
      deliver cb adapter l'
  end.

Definition gattlib_adapter_scan_enable (found : list advertisement) (r : Z)
    (adapter : gattlib_adapter_t)
    (cb : discovery_env → gattlib_adapter_t → string → option string → M unit)
    (timeout : Z) : M Z :=
  let* _ := deliver cb adapter found in
  let* _ := say (ScanEnable adapter timeout r) in
  ret r.

(** Lines 194-200: one turn of the drain loop. *)
Definition drain_body (returns : pthread_t → bool) : M unit :=
  let* s := get in
  match g_ble_connections s with
  | [] => fault
  | connection :: rest =>
      let* c := load_connection connection in
      let* _ := pthread_join returns (thread c) in
      let* _ := modify (with_connections rest) in
      let* _ := say (ListRemove connection) in
      let* c := load_connection connection in
      let* _ := free (addr c) in
      let* _ := pthread_mutex_destroy connection in
      let* _ := pthread_cond_destroy connection in
      free (Some connection)
  end.

(** Lines 193-201: [while (g_ble_connections.lh_first != NULL)]. *)
Fixpoint drain (fuel : nat) (returns : pthread_t → bool) : M unit :=
  let* s := get in
  match g_ble_connections s with
  | [] => ret tt
  | _ :: _ =>
      match fuel with
      | O => λ _, OutOfFuel
      | S fuel' =>
          let* _ := drain_body returns in
          drain fuel' returns
      end
  end.

(** What the libraries answer during one run of [ble_task]. *)
Record task_env := mk_task_env {
  adapter_open_ret : Z;
  adapter_handle : gattlib_adapter_t;
  scan_found : list advertisement;
  scan_ret : Z;
  join_returns : pthread_t → bool
}.

Definition ble_task (e : task_env) : M unit :=
  let* s := get in
  let r := adapter_open_ret e in
  let* _ := say (AdapterOpen (adapter_name s) r) in
  if negb (r =? 0)%Z then say (Log ErrOpenAdapter)
  else
    let adapter := adapter_handle e in
    let* _ := pthread_mutex_lock_global Task in
    let* r := gattlib_adapter_scan_enable (scan_found e) (scan_ret e) adapter
                ble_discovered_device BLE_SCAN_TIMEOUT in
    if negb (r =? 0)%Z then
      let* _ := say (Log ErrScan) in
      say (AdapterClose adapter)
    else
      let* _ := say (ScanDisable adapter) in
      let* _ := say (Printf MsgScanCompleted) in
      let* _ := pthread_mutex_unlock_global Task in
      let* s := get in
      let* _ := drain (length (g_ble_connections s)) (join_returns e) in
      say (AdapterClose adapter).

(** ** [main] (lines 208-229) *)

Record main_env := mk_main_env {
  task_env_of : task_env;
  mainloop_ret : Z
}.

(** Modelled from the spec: gattlib's mainloop entry point is outside the
    repository; it invokes the supplied task function and returns the
    library's own status. *)
Definition gattlib_mainloop (r : Z) (task : M unit) : M Z :=
  let* _ := task in
  ret r.

Definition main (e : main_env) (argv : list string) : M Z :=
  let argc := length argv in
  let run : M Z :=
    let* _ := modify (with_connections []) in
    let* r := gattlib_mainloop (mainloop_ret e) (ble_task (task_env_of e)) in
    let* _ := (if negb (r =? GATTLIB_SUCCESS)%Z then say (Log ErrMainloop) else ret tt) in
    ret r in
  if argc =? 1 then
    let* _ := modify (with_adapter_name None) in
    run
  else if argc =? 2 then
    let* _ := modify (with_adapter_name (argv !! 1)) in
    run
  else
    let* _ := say (Printf (MsgUsage (argv !! 0))) in
    ret 1%Z.

(** The exit code of the process, when [main] returns. *)
Definition exit_code (r : result Z) : option Z :=
  match r with
  | Ok c _ => Some c
  | _ => None
  end.

Definition final_state {A} (r : result A) : option state :=
  match r with
  | Ok _ s | Hang s | Fault s => Some s
  | OutOfFuel => None
  end.

(** ** Interleaving semantics *)

(** Thread [t] moves on: its entry in the thread table is replaced. *)
Definition set_worker (t : pthread_t) (w : worker) : M unit :=
  modify (λ s, with_workers (<[t := w]> (workers s)) s).

(** What the libraries answer to one operation of a worker.
    Modelled from the spec: gattlib's connect call is outside the repository;
    it returns an immediate status and the library may later deliver the
    completion callback, once, with the caller's context.  POSIX lets
    [pthread_cond_wait] return without a signal (a spurious wake-up);
    [spurious_wakeup] says whether it does so now. *)
Record connect_env := mk_connect_env {
  connect_ret : Z;
  connect_calls_back : bool;
  spurious_wakeup : bool
}.

(** [printf] and [GATTLIB_LOG] with a [%s] argument: undefined for a null
    pointer. *)
Definition printf_s (m : option ptr → message) (a : option ptr) : M unit :=
  match a with
  | Some _ => say (Printf (m a))
  | None => fault
  end.

Definition log_s (m : option ptr → error_message) (a : option ptr) : M unit :=
  match a with
  | Some _ => say (Log (m a))
  | None => fault
  end.

(** *** [ble_connect_device] (lines 104-128): the next operation of worker [t] *)

Definition ble_connect_device (e : connect_env) (t : pthread_t) : M unit :=
  let* s := get in
  match workers s !! t with
  | None => hang
  | Some w =>
      let connection := w_arg w in
      let goto pc := set_worker t (mk_worker connection pc (w_cb w)) in
      match w_pc w with
      | W110 =>
          let* c := load_connection connection in
          let* _ := pthread_mutex_lock_global (Worker t) in
          let* _ := printf_s MsgStart (addr c) in
          goto W113
      | W113 =>
          let* c := load_connection connection in
          let r := connect_ret e in
          let* _ := say (Connect (adapter c) (addr c) connection r) in
          let* _ := (if negb (r =? GATTLIB_SUCCESS)%Z
                     then log_s (λ a, ErrConnect a r) (addr c) else ret tt) in
          set_worker t (mk_worker connection W119
                          (if connect_calls_back e then CbPending else CbNone))
      | W119 =>
          let* _ := pthread_mutex_lock_done connection (Worker t) in
          goto W120
      | W120 =>
          let* c := load_connection connection in
          goto (if is_done c then W123 else W121)
      | W121 =>
          let* _ := pthread_cond_wait connection (Worker t) in
          goto W121s
      | W121s =>
          (* asleep until [pthread_cond_signal] wakes it; a spurious wake-up
             is the only other way out *)
          if spurious_wakeup e then goto W121r else hang
      | W121r =>
          let* _ := pthread_mutex_lock_done connection (Worker t) in
          goto W120
      | W123 =>
          let* c := load_connection connection in
          let* _ := pthread_mutex_unlock_done connection (Worker t) in
          let* _ := printf_s MsgDone (addr c) in
          goto W126
      | W126 =>
          let* _ := pthread_mutex_unlock_global (Worker t) in
          goto W127
      | W127 => hang
      end
  end.

(** *** [on_device_connect], delivered for the request of worker [t]: its next
    operation.  Lines 62-95 touch no state of this program and are one step. *)

Definition on_device_connect_step (e : gatt_env) (adapter : gattlib_adapter_t) (dst : string)
    (conn : gattlib_connection_t) (error : Z) (t : pthread_t) : M unit :=
  let* s := get in
  match workers s !! t with
  | None => hang
  | Some w =>
      let connection := w_arg w in
      let goto cb := set_worker t (mk_worker connection (w_pc w) cb) in
      match w_cb w with
      | CbNone => hang
      | CbPending =>
          let* _ := gatt_session e conn connection in
          goto C98
      | C98 =>
          let* _ := signal_lock connection (Callback t) in
          goto C99
      | C99 =>
          let* _ := signal_set connection (Callback t) in
          goto C100
      | C100 =>
          (* the signal may wake the worker, which is thread [t] itself *)
          let* _ := signal_cond connection (Callback t) in
          let* s' := get in
          match workers s' !! t with
          | Some w' => set_worker t (mk_worker connection (w_pc w') C101)
          | None => fault
          end
      | C101 =>
          let* _ := signal_unlock connection (Callback t) in
          goto C102
      | C102 => hang
      end
  end.

(** *** [ble_task]: the next operation of the controller *)

Inductive task_pc :=
| T174   (* gattlib_adapter_open *)
| T180   (* pthread_mutex_lock(&g_mutex) *)
| T181   (* inside gattlib_adapter_scan_enable *)
| T187   (* gattlib_adapter_scan_disable; puts *)
| T190   (* pthread_mutex_unlock(&g_mutex) *)
| T193   (* while (g_ble_connections.lh_first != NULL) *)
| T204   (* EXIT: gattlib_adapter_close *)
| T205.  (* return NULL *)

#[global] Instance task_pc_eq_dec : EqDecision task_pc.
Proof. solve_decision. Defined.

Inductive task_input :=
| OpenReturns (r : Z) (h : gattlib_adapter_t)
| Found (a : advertisement)
| ScanReturns (r : Z)
| Proceed.

(** Whether thread [t] has returned from [ble_connect_device]. *)
Definition finished (s : state) (t : pthread_t) : bool :=
  match workers s !! t with
  | Some w => bool_decide (w_pc w = W127)
  | None => false
  end.

Definition ble_task_step (i : task_input) (pc : task_pc) (adapter : gattlib_adapter_t)
    : M (task_pc * gattlib_adapter_t) :=
  match pc, i with
  | T174, OpenReturns r h =>
      let* s := get in
      let* _ := say (AdapterOpen (adapter_name s) r) in
      if negb (r =? 0)%Z then
        let* _ := say (Log ErrOpenAdapter) in
        ret (T205, h)
      else ret (T180, h)
  | T180, Proceed =>
      let* _ := pthread_mutex_lock_global Task in
      ret (T181, adapter)
  | T181, Found a =>
      let* _ := ble_discovered_device (adv_env a) adapter (adv_addr a) (adv_name a) in
      ret (T181, adapter)
  | T181, ScanReturns r =>
      let* _ := say (ScanEnable adapter BLE_SCAN_TIMEOUT r) in
      if negb (r =? 0)%Z then
        let* _ := say (Log ErrScan) in
        ret (T204, adapter)
      else ret (T187, adapter)
  | T187, Proceed =>
      let* _ := say (ScanDisable adapter) in
      let* _ := say (Printf MsgScanCompleted) in
      ret (T190, adapter)
  | T190, Proceed =>
      let* _ := pthread_mutex_unlock_global Task in
      ret (T193, adapter)
  | T193, Proceed =>
      let* s := get in
      match g_ble_connections s with
      | [] => ret (T204, adapter)
      | _ :: _ =>
          let* _ := drain_body (finished s) in
          ret (T193, adapter)
      end
  | T204, Proceed =>
      let* _ := say (AdapterClose adapter) in
      ret (T205, adapter)
  | _, _ => hang
  end.

(** *** The system: the program state and the controller's position *)

Record system := mk_system {
  sys_state : state;
  sys_task : task_pc;
  sys_adapter : gattlib_adapter_t
}.

Definition initial_system : system := mk_system initial_state T174 0.

(** One scheduling decision: which thread runs its next operation, and what
    the libraries answer to it. *)
Inductive action :=
| ActTask (i : task_input)
| ActWorker (t : pthread_t) (e : connect_env)
| ActCallback (t : pthread_t) (dst : string) (conn : gattlib_connection_t) (error : Z)
    (e : gatt_env).

Definition step_result (a : action) (y : system) : result (task_pc * gattlib_adapter_t) :=
  match a with
  | ActTask i => ble_task_step i (sys_task y) (sys_adapter y) (sys_state y)
  | ActWorker t e =>
      (let* _ := ble_connect_device e t in ret (sys_task y, sys_adapter y)) (sys_state y)
  | ActCallback t dst conn error e =>
      (let* _ := on_device_connect_step e (sys_adapter y) dst conn error t in
       ret (sys_task y, sys_adapter y)) (sys_state y)
  end.

(** A step is taken when the operation returns; a blocked thread takes none. *)
Definition step (a : action) (y : system) : option system :=
  match step_result a y with
  | Ok (pc, h) s => Some (mk_system s pc h)
  | _ => None
  end.

Fixpoint run (l : list action) (y : system) : option system :=
  match l with
  | [] => Some y
  | a :: l' =>
      match step a y with
      | Some y' => run l' y'
      | None => None
      end
  end.

Definition reachable (y : system) : Prop := ∃ l, run l initial_system = Some y.

(** ** Vocabulary of the statements *)

(** Records in the order [LIST_INSERT_HEAD] inserted them, records in the
    order the drain loop removed them, threads in the order it joined them. *)
Definition inserted (h : list event) : list ptr :=
  omap (λ e, match e with ListInsertHead p => Some p | _ => None end) h.
Definition removed (h : list event) : list ptr :=
  omap (λ e, match e with ListRemove p => Some p | _ => None end) h.
Definition joined (h : list event) : list pthread_t :=
  omap (λ e, match e with ThreadJoin t => Some t | _ => None end) h.

(** The record [ble_discovered_device] leaves in the registry: lines 154-160. *)
Definition accepted_connection (adapter : gattlib_adapter_t) (t : pthread_t)
    (a : option ptr) : connection_t :=
  mk_connection (Some t) (Some adapter) a MutexFree CondReady false.

(** The block and the pointer [strdup] yields at heap size [n]. *)
Definition strdup_block (ok : bool) (str : string) : list (option block) :=
  if ok then [Some (BString str)] else [].
Definition strdup_ptr (ok : bool) (n : nat) : option ptr :=
  if ok then Some n else None.

(** GATT calls on a connection handle. *)
Definition is_discovery (e : event) : bool :=
  match e with
  | DiscoverPrimary _ _ | DiscoverChar _ _ => true
  | _ => false
  end.
Definition is_disconnect (e : event) : bool :=
  match e with
  | Disconnect _ _ _ => true
  | _ => false
  end.
Definition is_discover_char (e : event) : bool :=
  match e with
  | DiscoverChar _ _ => true
  | _ => false
  end.
Definition is_scan (e : event) : bool :=
  match e with
  | ScanEnable _ _ _ => true
  | _ => false
  end.

(** *** Inputs used in the examples *)

Definition libs_ok : discovery_env := mk_discovery_env true true 0.
Definition no_memory : discovery_env := mk_discovery_env false true 0.
(** [pthread_create] returning EAGAIN. *)
Definition no_thread : discovery_env := mk_discovery_env true true 11.

Definition local_device : advertisement :=
  mk_advertisement "AA:BB:CC:DD:EE:01" (Some "Local") libs_ok.
Definition local_device_2 : advertisement :=
  mk_advertisement "AA:BB:CC:DD:EE:02" (Some "Local") libs_ok.
Definition other_device : advertisement :=
  mk_advertisement "AA:BB:CC:DD:EE:03" (Some "Other") libs_ok.

Definition gatt_ok : gatt_env :=
  mk_gatt_env 0 [mk_service 1 5 "1800"] 0 [mk_characteristic 2 3 "2a00"] 0.

(** The adapter cannot be opened (status 1); the mainloop reports success. *)
Definition open_fails : main_env :=
  mk_main_env (mk_task_env 1 0 [] 0 (λ _, true)) 0.

(** The adapter opens, the scan call fails (status 1). *)
Definition scan_fails : task_env :=
  mk_task_env 0 7 [] 1 (λ _, true).

(** One accepted device, as [ble_discovered_device] leaves it. *)
Definition one_device : state :=
  Eval vm_compute in
    match ble_discovered_device libs_ok 7 "AA:BB:CC:DD:EE:01" (Some "Local") initial_state with
    | Ok _ s => s
    | _ => initial_state
    end.

(** [emits P m]: [m] needs no fuel and, whatever its outcome, only adds
    events satisfying [P] to the trace. *)
Definition emits {A} (P : event → Prop) (m : M A) : Prop :=
  ∀ s, match m s with
       | Ok _ s' | Hang s' | Fault s' => ∃ l, trace s' = l ++ trace s ∧ Forall P l
       | OutOfFuel => False
       end.

(** Events that are not GATT calls on a connection handle. *)
Definition not_gatt (e : event) : Prop :=
  is_discovery e = false ∧ is_disconnect e = false.

(** [add_events l s]: the state [s] after the events [l] (most recent first)
    happened and nothing else changed. *)
Definition add_events (l : list event) (s : state) : state :=
  mk_state (adapter_name s) (g_mutex s) (g_ble_connections s) (heap s) (workers s)
           (l ++ trace s).

(** What lines 62-95 do, in order, for given answers of the library. *)
Fixpoint service_lines (i : nat) (l : list gattlib_primary_service_t) : list event :=
  match l with
  | [] => []
  | sv :: l' => Printf (MsgService i sv) :: service_lines (S i) l'
  end.

Fixpoint characteristic_lines (i : nat) (l : list gattlib_characteristic_t) : list event :=
  match l with
  | [] => []
  | ch :: l' => Printf (MsgCharacteristic i ch) :: characteristic_lines (S i) l'
  end.

Definition discover_log (e : gatt_env) (conn : gattlib_connection_t) : list event :=
  DiscoverPrimary conn (discover_primary_ret e) ::
  if negb (discover_primary_ret e =? 0)%Z then [Log ErrDiscoverPrimary]
  else
    service_lines 0 (services e) ++
    FreeServices :: DiscoverChar conn (discover_char_ret e) ::
    if negb (discover_char_ret e =? 0)%Z then [Log ErrDiscoverChar]
    else characteristic_lines 0 (characteristics e) ++ [FreeCharacteristics].

Definition disconnect_log (e : gatt_env) (conn : gattlib_connection_t) (connection : ptr)
    : list event :=
  Disconnect conn true (disconnect_ret e) ::
  if negb (disconnect_ret e =? GATTLIB_SUCCESS)%Z
  then [Log (ErrDisconnect connection (disconnect_ret e))] else [].

(** *** The registry and the heap *)

Definition connection_at (s : state) (p : ptr) : option connection_t :=
  match heap s !! p with
  | Some (Some (BConnection c)) => Some c
  | _ => None
  end.

Definition string_at (s : state) (p : ptr) : option string :=
  match heap s !! p with
  | Some (Some (BString str)) => Some str
  | _ => None
  end.

(** A block that was allocated and has been freed. *)
Definition freed (s : state) (p : ptr) : Prop := heap s !! p = Some None.

(** The registry holds distinct live records; each has the thread that was
    created for it, initialised synchronisation objects, and an address
    string of its own (or none, when [strdup] failed). *)
Record registry_wf (s : state) : Prop := mk_registry_wf {
  wf_nodup : NoDup (g_ble_connections s);
  wf_record : ∀ p, p ∈ g_ble_connections s →
    ∃ c t w, connection_at s p = Some c ∧ thread c = Some t
             ∧ workers s !! t = Some w ∧ w_arg w = p
             ∧ done_cond c = CondReady;
  wf_addr : ∀ p c a, p ∈ g_ble_connections s → connection_at s p = Some c →
    addr c = Some a → is_Some (string_at s a);
  wf_addr_inj : ∀ p1 p2 c1 c2 a, p1 ∈ g_ble_connections s → p2 ∈ g_ble_connections s →
    connection_at s p1 = Some c1 → connection_at s p2 = Some c2 →
    addr c1 = Some a → addr c2 = Some a → p1 = p2
}.

(** The registry lists the records not yet removed, the last inserted first. *)
Definition registry_order (s : state) : Prop :=
  rev (inserted (history s)) = removed (history s) ++ g_ble_connections s.

(** No record of the registry has its [done_mutex] locked. *)
Definition unlocked (s : state) : Prop :=
  ∀ p c, p ∈ g_ble_connections s → connection_at s p = Some c → done_mutex c = MutexFree.

(** What one turn of the drain loop does to the record [p] (lines 195-200). *)
Definition release_log (s : state) (p : ptr) : list event :=
  match connection_at s p with
  | Some c =>
      match thread c with Some t => [ThreadJoin t] | None => [] end
      ++ [ListRemove p]
      ++ match addr c with Some a => [Free a] | None => [] end
      ++ [MutexDestroy p; CondDestroy p; Free p]
  | None => []
  end.

(** The effect of a store into the record [p], and of freeing block [q]. *)
Definition put_connection (p : ptr) (c : connection_t) (s : state) : state :=
  with_heap (<[p := Some (BConnection c)]> (heap s)) s.

Definition release (q : ptr) (s : state) : state :=
  emit (Free q) (with_heap (<[q := None]> (heap s)) s).

Definition release_addr (a : option ptr) (s : state) : state :=
  match a with
  | Some q => release q s
  | None => s
  end.

(** The state after one turn of the drain loop on the head record [p], whose
    contents are [c] and whose thread is [t]. *)
Definition drained (p : ptr) (c : connection_t) (t : pthread_t) (rest : list ptr)
    (s : state) : state :=
  let s1 := emit (ListRemove p) (with_connections rest (emit (ThreadJoin t) s)) in
  let s2 := release_addr (addr c) s1 in
  let c3 := set_done_mutex MutexDestroyed c in
  let s3 := emit (MutexDestroy p) (put_connection p c3 s2) in
  let s4 := emit (CondDestroy p) (put_connection p (set_done_cond CondDestroyed c3) s3) in
  release p s4.

(** The state in which [ble_task] calls [gattlib_adapter_scan_enable]. *)
Definition scanning (e : task_env) (s : state) : state :=
  emit (LockGlobal Task)
    (with_g_mutex (MutexHeld Task) (emit (AdapterOpen (adapter_name s) 0) s)).

(** Two devices named "Local" and one with another name are found, and the
    workers of both return. *)
Definition two_devices : task_env :=
  mk_task_env 0 7 [local_device; other_device; local_device_2] 0 (λ _, true).

(** The thread of the only matching device cannot be created. *)
Definition thread_fails : task_env :=
  mk_task_env 0 7 [mk_advertisement "AA:BB:CC:DD:EE:01" (Some "Local") no_thread] 0
    (λ _, true).

(** The blocks a record owns: itself and its address string. *)
Definition blocks_of (s : state) (p : ptr) : list ptr :=
  match connection_at s p with
  | Some c => p :: match addr c with Some a => [a] | None => [] end
  | None => []
  end.

(** Nothing that lives has been released: every [free] and every destroy in
    the trace names a block that is gone. *)
Definition released_ptr (e : event) : option ptr :=
  match e with
  | Free q | MutexDestroy q | CondDestroy q => Some q
  | _ => None
  end.

Definition clean (s : state) : Prop :=
  ∀ e q, e ∈ trace s → released_ptr e = Some q → freed s q.

(** How often an event happened. *)
Definition times (e : event) (h : list event) : nat := count_occ event_eq_dec h e.

(** The state in which the drain loop starts, [s1] being the state in which
    the scan call returned: lines 187-190. *)
Definition scan_completed (e : task_env) (s1 : state) : state :=
  emit (UnlockGlobal Task)
    (with_g_mutex MutexFree
       (emit (Printf MsgScanCompleted)
          (emit (ScanDisable (adapter_handle e)) s1))).

(** The state in which [ble_task] returns in that run. *)
Definition two_devices_final : state :=
  Eval vm_compute in
    match ble_task two_devices initial_state with
    | Ok _ s => s
    | _ => initial_state
    end.

(** *** The lock protocol *)

(** Between the lock on line 110 and the unlock on line 126. *)
Definition in_critical_section (pc : worker_pc) : bool :=
  match pc with
  | W110 | W127 => false
  | _ => true
  end.

(** The worker holds its record's [done_mutex]. *)
Definition worker_holds_done (pc : worker_pc) : bool :=
  match pc with
  | W120 | W121 | W123 => true
  | _ => false
  end.

Definition before_connect (pc : worker_pc) : bool :=
  match pc with
  | W110 | W113 => true
  | _ => false
  end.

(** Lines 119-122: locking [done_mutex] and waiting for [is_done]. *)
Definition waiting (pc : worker_pc) : bool :=
  match pc with
  | W119 | W120 | W121 | W121s | W121r => true
  | _ => false
  end.

Definition after_wait (pc : worker_pc) : bool :=
  match pc with
  | W123 | W126 | W127 => true
  | _ => false
  end.

Definition callback_holds_done (cb : callback_pc) : bool :=
  match cb with
  | C99 | C100 | C101 => true
  | _ => false
  end.

Definition callback_has_set (cb : callback_pc) : bool :=
  match cb with
  | C100 | C101 | C102 => true
  | _ => false
  end.

Definition callback_has_signalled (cb : callback_pc) : bool :=
  match cb with
  | C101 | C102 => true
  | _ => false
  end.

(** A connect request is outstanding or its callback is running. *)
Definition session_active (cb : callback_pc) : bool :=
  match cb with
  | CbNone | C102 => false
  | _ => true
  end.

Definition expected_done_mutex (t : pthread_t) (w : worker) : pthread_mutex_t :=
  if worker_holds_done (w_pc w) then MutexHeld (Worker t)
  else if callback_holds_done (w_cb w) then MutexHeld (Callback t)
  else MutexFree.

Definition bool_count (b : bool) : nat := if b then 1 else 0.

(** What holds of worker [t] in every reachable state. *)
Record worker_ok (s : state) (t : pthread_t) (w : worker) : Prop := mk_worker_ok {
  wk_cs : in_critical_section (w_pc w) = true ↔ g_mutex s = MutexHeld (Worker t);
  wk_early : before_connect (w_pc w) = true → w_cb w = CbNone;
  wk_late : after_wait (w_pc w) = true → w_cb w = C102;
  wk_excl : worker_holds_done (w_pc w) = true → callback_holds_done (w_cb w) = false;
  wk_bound : w_arg w < length (heap s);
  wk_alive : w_pc w ≠ W127 → w_arg w ∈ g_ble_connections s;
  wk_record : w_arg w ∈ g_ble_connections s →
    ∃ c, connection_at s (w_arg w) = Some c ∧ thread c = Some t
         ∧ done_mutex c = expected_done_mutex t w
         ∧ is_done c = callback_has_set (w_cb w);
  wk_sets : times (SetDone (w_arg w) (Callback t)) (trace s)
            = bool_count (callback_has_set (w_cb w));
  wk_signals : times (CondSignal (w_arg w) (Callback t)) (trace s)
               = bool_count (callback_has_signalled (w_cb w));
  wk_created : ThreadCreate (w_arg w) 0 ∈ trace s
}.

Record state_inv (s : state) : Prop := mk_state_inv {
  inv_registry : registry_wf s;
  inv_workers : ∀ t w, workers s !! t = Some w → worker_ok s t w;
  inv_inj : ∀ t1 t2 w1 w2, workers s !! t1 = Some w1 → workers s !! t2 = Some w2 →
    w_arg w1 = w_arg w2 → t1 = t2;
  inv_holder : ∀ t, g_mutex s = MutexHeld (Worker t) → is_Some (workers s !! t);
  inv_signal : ∀ p o, SetDone p o ∈ trace s ∨ CondSignal p o ∈ trace s →
    ∃ t w, o = Callback t ∧ workers s !! t = Some w ∧ w_arg w = p;
  inv_insert : ∀ p, ListInsertHead p ∈ trace s →
    ∃ t w, workers s !! t = Some w ∧ w_arg w = p;
  inv_create : ∀ p r, ThreadCreate p r ∈ trace s →
    p < length (heap s) ∧ (r ≠ 0%Z → ∀ t w, workers s !! t = Some w → w_arg w ≠ p);
  inv_join : ∀ t, ThreadJoin t ∈ trace s → is_Some (workers s !! t)
}.

(** The effect of one operation of worker [t] or of its callback: the global
    mutex becomes [g], the record is overwritten when [r] is given, the
    thread's entry becomes [w], the events [l] happen. *)
Definition update (g : pthread_mutex_t) (r : option (ptr * connection_t)) (t : pthread_t)
    (w : worker) (l : list event) (s : state) : state :=
  mk_state (adapter_name s) g (g_ble_connections s)
    (match r with
     | Some (p, c) => <[p := Some (BConnection c)]> (heap s)
     | None => heap s
     end)
    (<[t := w]> (workers s)) (l ++ trace s).

(** Events that concern neither the registry, nor the threads, nor releases,
    nor the completion of a record. *)
Definition plain_event (e : event) : bool :=
  match e with
  | ListInsertHead _ | ListRemove _ | ThreadCreate _ _ | ThreadJoin _
  | Free _ | MutexDestroy _ | CondDestroy _ | SetDone _ _ | CondSignal _ _ => false
  | _ => true
  end.

(** Events an operation of worker [t] on record [p], or of its callback, may
    cause. *)
Definition own_event (t : pthread_t) (p : ptr) (e : event) : bool :=
  match e with
  | SetDone q o | CondSignal q o => bool_decide (q = p ∧ o = Callback t)
  | _ => plain_event e
  end.

(** Worker [w] at another line, and with its callback at another line. *)
Definition goes (w : worker) (pc : worker_pc) : worker := mk_worker (w_arg w) pc (w_cb w).
Definition calls (w : worker) (cb : callback_pc) : worker := mk_worker (w_arg w) (w_pc w) cb.

(** Two contents of a record that differ at most in [done_mutex] and
    [is_done]. *)
Definition same_shape (c c' : connection_t) : Prop :=
  thread c = thread c' ∧ addr c = addr c' ∧ done_cond c = done_cond c'.

(** Events a step of the controller may cause without creating a thread or
    touching the completion of a record: a failed [pthread_create] on a block
    allocated by the step, a join of an existing thread, anything else that is
    neither an insertion nor a completion. *)
Definition controller_event (s s' : state) (e : event) : Prop :=
  match e with
  | SetDone _ _ | CondSignal _ _ | ListInsertHead _ => False
  | ThreadCreate p r => length (heap s) ≤ p < length (heap s') ∧ r ≠ 0%Z
  | ThreadJoin t => is_Some (workers s !! t)
  | _ => True
  end.

(** What line 113-117 log for record [p] with contents [c]. *)
Definition connect_log (e : connect_env) (c : connection_t) (p : ptr) : list event :=
  (if negb (connect_ret e =? GATTLIB_SUCCESS)%Z
   then [Log (ErrConnect (addr c) (connect_ret e))] else [])
  ++ [Connect (adapter c) (addr c) p (connect_ret e)].

(** Events an operation of [ble_connect_device] or of [on_device_connect] may
    cause: output, the GATT calls, and operations on the two locks and on the
    completion flag. *)
Definition thread_event (e : event) : bool :=
  match e with
  | Printf _ | Log _ | Connect _ _ _ _ | DiscoverPrimary _ _ | DiscoverChar _ _
  | Disconnect _ _ _ | FreeServices | FreeCharacteristics
  | LockGlobal _ | UnlockGlobal _ | LockDone _ _ | UnlockDone _ _
  | CondWait _ _ | SetDone _ _ | CondSignal _ _ => true
  | _ => false
  end.

(** The status [gattlib_adapter_scan_enable] returned, once it has. *)
Fixpoint scan_status (l : list event) : option Z :=
  match l with
  | [] => None
  | ScanEnable _ _ r :: _ => Some r
  | _ :: l' => scan_status l'
  end.

(** Every thread created so far stands before line 110. *)
Definition all_waiting (s : state) : Prop :=
  ∀ t w, workers s !! t = Some w → w_pc w = W110.

(** [ble_task] does not hold [g_mutex]. *)
Definition lock_free_or_worker (s : state) : Prop :=
  g_mutex s = MutexFree ∨ ∃ t, g_mutex s = MutexHeld (Worker t).

(** What holds of the controller at each of its lines. *)
Definition task_ok (y : system) : Prop :=
  let s := sys_state y in
  match sys_task y with
  | T174 | T180 => workers s = [] ∧ g_mutex s = MutexFree ∧ scan_status (trace s) = None
  | T181 => g_mutex s = MutexHeld Task ∧ all_waiting s ∧ scan_status (trace s) = None
  | T187 | T190 =>
      g_mutex s = MutexHeld Task ∧ all_waiting s ∧ scan_status (trace s) = Some 0%Z
  | T193 => lock_free_or_worker s ∧ scan_status (trace s) = Some 0%Z
  | T204 | T205 =>
      match scan_status (trace s) with
      | Some r =>
          if (r =? 0)%Z then lock_free_or_worker s ∧ g_ble_connections s = []
          else g_mutex s = MutexHeld Task ∧ all_waiting s
      | None => sys_task y = T205 ∧ workers s = [] ∧ g_mutex s = MutexFree
      end
  end.

Definition system_inv (y : system) : Prop := state_inv (sys_state y) ∧ task_ok y.

(** Whether the next operation of a worker, or of its callback, can be
    performed now; otherwise the thread is blocked on a mutex, has nothing
    left to do, or (the callback) has not been requested. *)
Definition worker_enabled (e : connect_env) (s : state) (w : worker) : bool :=
  match w_pc w with
  | W110 => bool_decide (g_mutex s = MutexFree)
  | W119 | W121r => negb (callback_holds_done (w_cb w))
  | W121s => spurious_wakeup e
  | W127 => false
  | _ => true
  end.

Definition callback_enabled (w : worker) : bool :=
  match w_cb w with
  | CbNone | C102 => false
  | C98 => negb (worker_holds_done (w_pc w))
  | _ => true
  end.

(** [g_mutex] has been initialised and not destroyed. *)
Definition lock_usable (s : state) : Prop :=
  g_mutex s = MutexFree ∨ ∃ o, g_mutex s = MutexHeld o.

(** The operation returned or is blocked: nothing undefined was done. *)
Definition defined {A} (r : result A) : Prop :=
  match r with
  | Ok _ _ | Hang _ => True
  | _ => False
  end.

(** Events [ble_discovered_device] may cause. *)
Definition discovery_event (e : event) : bool :=
  match e with
  | Printf _ | Log _ | Calloc _ | Strdup _ | MutexInit _ | CondInit _
  | ThreadCreate _ _ | Free _ | ListInsertHead _ => true
  | _ => false
  end.

(** Events an operation of [ble_task], the scan callback included, may cause:
    anything but the GATT calls and the operations on a record's lock,
    condition and completion flag. *)
Definition task_event (e : event) : bool :=
  match e with
  | Connect _ _ _ _ | DiscoverPrimary _ _ | DiscoverChar _ _ | Disconnect _ _ _
  | FreeServices | FreeCharacteristics
  | LockDone _ _ | UnlockDone _ _ | CondWait _ _ | SetDone _ _ | CondSignal _ _ => false
  | _ => true
  end.

(** The line a worker reaches by its next operation. *)
Definition next_pc (w : worker) : worker_pc :=
  match w_pc w with
  | W110 => W113
  | W113 => W119
  | W119 => W120
  | W120 => if callback_has_set (w_cb w) then W123 else W121
  | W121 => W121s
  | W121s => W121r
  | W121r => W120
  | W123 => W126
  | W126 => W127
  | W127 => W127
  end.

(** The callback a worker waits for after its next operation. *)
Definition next_cb (e : connect_env) (w : worker) : callback_pc :=
  match w_pc w with
  | W113 => if connect_calls_back e then CbPending else CbNone
  | _ => w_cb w
  end.

(** Worker [t] waits on line 119-122 for a callback that was not requested. *)
Definition waits_in_vain (t : pthread_t) (s : state) : Prop :=
  ∃ w, workers s !! t = Some w ∧ w_cb w = CbNone ∧ waiting (w_pc w) = true.

(** *** A run of the whole program, operation by operation *)

Definition calls_back : connect_env := mk_connect_env 0 true false.
(** The connect call fails (status 1) and no callback follows; the wait
    returns spuriously. *)
Definition never_calls_back : connect_env := mk_connect_env 1 false true.

(** The scan: two devices named "Local" and one with another name. *)
Definition scan_schedule : list action :=
  [ActTask (OpenReturns 0 7); ActTask Proceed;
   ActTask (Found local_device); ActTask (Found other_device);
   ActTask (Found local_device_2);
   ActTask (ScanReturns 0); ActTask Proceed; ActTask Proceed].

(** Worker [t] up to its wait, and the callback up to the unlock. *)
Definition connect_schedule (t : pthread_t) : list action :=
  [ActWorker t calls_back; ActWorker t calls_back; ActWorker t calls_back;
   ActWorker t calls_back; ActWorker t calls_back;
   ActCallback t "AA:BB:CC:DD:EE:01" 3 0 gatt_ok].

Definition signal_schedule (t : pthread_t) : list action :=
  [ActCallback t "AA:BB:CC:DD:EE:01" 3 0 gatt_ok;
   ActCallback t "AA:BB:CC:DD:EE:01" 3 0 gatt_ok;
   ActCallback t "AA:BB:CC:DD:EE:01" 3 0 gatt_ok;
   ActCallback t "AA:BB:CC:DD:EE:01" 3 0 gatt_ok].

Definition return_schedule (t : pthread_t) : list action :=
  [ActWorker t calls_back; ActWorker t calls_back; ActWorker t calls_back;
   ActWorker t calls_back].

Definition session_schedule (t : pthread_t) : list action :=
  connect_schedule t ++ signal_schedule t ++ return_schedule t.

Definition drain_schedule : list action :=
  [ActTask Proceed; ActTask Proceed; ActTask Proceed; ActTask Proceed].

Definition after (l : list action) : system :=
  match run l initial_system with
  | Some y => y
  | None => initial_system
  end.

(** The scan is running and one device has been accepted. *)
Definition sys_scanning : system :=
  Eval vm_compute in after (take 3 scan_schedule).

(** The scan is over; two workers stand before line 110. *)
Definition sys_scanned : system :=
  Eval vm_compute in after scan_schedule.

(** Worker 0 is asleep on line 121; its callback is about to lock
    [done_mutex]. *)
Definition sys_session : system :=
  Eval vm_compute in after (scan_schedule ++ connect_schedule 0).

(** The callback of worker 0 is about to set [is_done]. *)
Definition sys_setting : system :=
  Eval vm_compute in after (scan_schedule ++ connect_schedule 0 ++ take 1 (signal_schedule 0)).

(** The callback of worker 0 has returned; the worker, woken by the signal,
    has not run yet. *)
Definition sys_signalled : system :=
  Eval vm_compute in after (scan_schedule ++ connect_schedule 0 ++ signal_schedule 0).

(** Worker 0 has left the wait loop (line 123). *)
Definition sys_woken : system :=
  Eval vm_compute in
    after (scan_schedule ++ connect_schedule 0 ++ signal_schedule 0
           ++ take 2 (return_schedule 0)).

(** Both workers have returned, the registry is drained, [ble_task] returned. *)
Definition sys_finished : system :=
  Eval vm_compute in
    after (scan_schedule ++ session_schedule 0 ++ session_schedule 1 ++ drain_schedule).

(** Worker 0 called [gattlib_connect], which failed without a callback. *)
Definition sys_no_callback : system :=
  Eval vm_compute in
    after (scan_schedule ++ [ActWorker 0 never_calls_back; ActWorker 0 never_calls_back;
                             ActWorker 0 never_calls_back]).

(** The scan call failed after one device was accepted. *)
Definition sys_scan_failed : system :=
  Eval vm_compute in
    after (take 3 scan_schedule ++ [ActTask (ScanReturns 1)]).

(** How many operations a worker whose callback has returned still has to do. *)
Definition steps_left (pc : worker_pc) : nat :=
  match pc with
  | W110 => 9 | W113 => 8
  | W121 => 6 | W121s => 5 | W119 | W121r => 4 | W120 => 3
  | W123 => 2 | W126 => 1 | W127 => 0
  end.

(** Worker 0 has taken [g_mutex]. *)
Definition sys_locked : system :=
  Eval vm_compute in after (scan_schedule ++ [ActWorker 0 calls_back]).

(** Worker 0, without a callback, after three more turns of its wait loop. *)
Definition sys_still_waiting : system :=
  Eval vm_compute in
    after (scan_schedule ++ [ActWorker 0 never_calls_back; ActWorker 0 never_calls_back;
                             ActWorker 0 never_calls_back;
                             ActWorker 0 never_calls_back; ActWorker 0 never_calls_back;
                             ActWorker 0 never_calls_back]).

(** After the failed scan, [ble_task] has closed the adapter and returned. *)
Definition sys_scan_failed_closed : system :=
  Eval vm_compute in
    after (take 3 scan_schedule ++ [ActTask (ScanReturns 1); ActTask Proceed]).

(** Worker 0 has returned; worker 1 has not started. *)
Definition sys_returned : system :=
  Eval vm_compute in after (scan_schedule ++ session_schedule 0).

(** Two devices are found and the mainloop call reports status 2. *)
Definition mainloop_fails : main_env := mk_main_env two_devices 2.

(** GATT answers: the services are discovered, the characteristics are not,
    and the disconnect fails. *)
Definition gatt_char_fails : gatt_env :=
  mk_gatt_env 0 [mk_service 1 5 "1800"] 1 [] 1.

(** The line of a worker after a signal on the condition it may sleep on. *)
Definition woken (pc : worker_pc) : worker_pc :=
  match pc with
  | W121s => W121r
  | _ => pc
  end.

(** Every record in the registry has an address string: the [strdup] of
    line 154 did not return NULL for any of them. *)
Definition has_addresses (s : state) : Prop :=
  ∀ p c, p ∈ g_ble_connections s → connection_at s p = Some c → is_Some (addr c).

(** What holds of the wait of every worker: it goes to sleep only before
    [is_done] is set, it is not asleep once the signal was sent, and past
    line 111 its record has an address string. *)
Definition thread_inv (s : state) : Prop :=
  ∀ t w, workers s !! t = Some w →
    (w_pc w = W121 → callback_has_set (w_cb w) = false)
    ∧ (w_pc w = W121s → callback_has_signalled (w_cb w) = false)
    ∧ (w_pc w ≠ W110 → w_pc w ≠ W127 →
       ∃ c, connection_at s (w_arg w) = Some c ∧ is_Some (addr c)).

(** The state after the callback of worker [t] signalled the condition of
    its record (line 100) and moved on. *)
Definition signalled (t : pthread_t) (w : worker) (s : state) : state :=
  mk_state (adapter_name s) (g_mutex s) (g_ble_connections s) (heap s)
    (<[t := mk_worker (w_arg w) (woken (w_pc w)) C101]> (wake_on (w_arg w) <$> workers s))
    (CondSignal (w_arg w) (Callback t) :: trace s).

Definition full_inv (y : system) : Prop := system_inv y ∧ thread_inv (sys_state y).

(** Worker 1, whose record is the head of the registry, has returned; worker
    0 has not started. *)
Definition sys_last_returned : system :=
  Eval vm_compute in after (scan_schedule ++ session_schedule 1).

(** The drain loop has joined worker 1 and released its record. *)
Definition sys_last_joined : system :=
  Eval vm_compute in after (scan_schedule ++ session_schedule 1 ++ [ActTask Proceed]).

(** [strdup] fails for the only matching device. *)
Definition no_address : discovery_env := mk_discovery_env true false 0.

Definition no_address_schedule : list action :=
  [ActTask (OpenReturns 0 7); ActTask Proceed;
   ActTask (Found (mk_advertisement "AA:BB:CC:DD:EE:01" (Some "Local") no_address));
   ActTask (ScanReturns 0); ActTask Proceed; ActTask Proceed].

(** The scan is over; the record of worker 0 has no address string. *)
Definition sys_no_address : system :=
  Eval vm_compute in after no_address_schedule.

(** * Proofs *)

(** ** Lists and strings *)

Lemma lookup_fresh {A} (h l : list A) x : (h ++ x :: l) !! length h = Some x.
Proof. by apply list_lookup_middle. Qed.

Lemma insert_fresh {A} (h l : list A) x y : <[length h := y]> (h ++ x :: l) = h ++ y :: l.
Proof. rewrite insert_app_r_alt; [|lia]. by rewrite Nat.sub_diag. Qed.

Lemma string_compare_refl a : String.compare a a = Eq.
Proof.
  pose proof (String.compare_antisym a a) as H.
  by destruct (String.compare a a).
Qed.

Lemma strcmp_zero a b : strcmp a b = 0%Z ↔ a = b.
Proof.
  unfold strcmp. split.
  - intros H. apply String.compare_eq_iff. by destruct (String.compare a b).
  - intros ->. by rewrite string_compare_refl.
Qed.

Lemma strcmp_eqb a b : (strcmp a b =? 0)%Z = bool_decide (a = b).
Proof.
  case_bool_decide as H.
  - apply Z.eqb_eq, strcmp_zero, H.
  - apply Z.eqb_neq. by rewrite strcmp_zero.
Qed.

(** ** Symbolic execution of the sequential code *)

Ltac m_unfold :=
  unfold calloc_connection, strdup, pthread_create, free,
    pthread_mutex_init, pthread_cond_init, pthread_mutex_destroy, pthread_cond_destroy,
    pthread_mutex_lock_done, pthread_mutex_unlock_done, pthread_cond_signal,
    pthread_mutex_lock_global, pthread_mutex_unlock_global, pthread_join,
    store_connection, load_connection, say, bind, ret, get, modify, fault, hang.

Ltac m_simpl := cbn -[lookup insert alter strcmp].

Ltac m_heap :=
  repeat (first [rewrite lookup_fresh | rewrite insert_fresh]; m_simpl).

(** *** The four ways through [ble_discovered_device] *)

Lemma discovered_rejected e adapter a name s :
  name ≠ Some CONNECT_DEVICE_NAME →
  ∃ ev, ble_discovered_device e adapter a name s = Ok tt (emit (Printf ev) s).
Proof.
  intros Hn. unfold ble_discovered_device. destruct name as [nm|].
  - eexists. m_unfold. rewrite strcmp_eqb, bool_decide_eq_false_2 by congruence. done.
  - eexists. done.
Qed.

Lemma discovered_no_memory e adapter a s :
  calloc_ok e = false →
  ble_discovered_device e adapter a (Some CONNECT_DEVICE_NAME) s
  = Ok tt (emit (Log ErrAllocConnection) (emit (Calloc None)
            (emit (Printf (MsgDiscoveredNamed a CONNECT_DEVICE_NAME)) s))).
Proof.
  intros H. unfold ble_discovered_device. m_unfold.
  rewrite strcmp_eqb, bool_decide_eq_true_2, H by done. done.
Qed.

Lemma discovered_no_thread e adapter a s :
  calloc_ok e = true → pthread_create_ret e ≠ 0%Z →
  let p := length (heap s) in
  ble_discovered_device e adapter a (Some CONNECT_DEVICE_NAME) s
  = Ok tt (mk_state (adapter_name s) (g_mutex s) (g_ble_connections s)
             (heap s ++ None :: strdup_block (strdup_ok e) a)
             (workers s)
             ([Free p; Log ErrCreateThread; ThreadCreate p (pthread_create_ret e);
               CondInit p; MutexInit p; Strdup (strdup_ptr (strdup_ok e) (S p));
               Calloc (Some p); Printf (MsgDiscoveredNamed a CONNECT_DEVICE_NAME)]
              ++ trace s)).
Proof.
  intros H1 H3. destruct s as [n g l h w tr]. unfold ble_discovered_device. m_unfold.
  rewrite strcmp_eqb, bool_decide_eq_true_2, H1 by done.
  apply Z.eqb_neq in H3. rewrite H3.
  destruct (strdup_ok e); m_simpl.
  - rewrite <- !(app_assoc h [_] [_]), length_app, Nat.add_1_r. m_simpl. m_heap.
    rewrite H3. m_simpl. by m_heap.
  - m_heap. rewrite H3. m_simpl. by m_heap.
Qed.

Lemma discovered_accepted e adapter a s :
  calloc_ok e = true → pthread_create_ret e = 0%Z →
  let p := length (heap s) in
  let t := length (workers s) in
  ble_discovered_device e adapter a (Some CONNECT_DEVICE_NAME) s
  = Ok tt (mk_state (adapter_name s) (g_mutex s) (p :: g_ble_connections s)
             (heap s ++ Some (BConnection
                         (accepted_connection adapter t (strdup_ptr (strdup_ok e) (S p))))
                     :: strdup_block (strdup_ok e) a)
             (workers s ++ [mk_worker p W110 CbNone])
             ([ListInsertHead p; ThreadCreate p 0;
               CondInit p; MutexInit p; Strdup (strdup_ptr (strdup_ok e) (S p));
               Calloc (Some p); Printf (MsgDiscoveredNamed a CONNECT_DEVICE_NAME)]
              ++ trace s)).
Proof.
  intros H1 H3. destruct s as [n g l h w tr]. unfold ble_discovered_device. m_unfold.
  rewrite strcmp_eqb, bool_decide_eq_true_2, H1, H3 by done.
  destruct (strdup_ok e); m_simpl.
  - rewrite <- !(app_assoc h [_] [_]), length_app, Nat.add_1_r. m_simpl. by m_heap.
  - by m_heap.
Qed.

(** ** Events added by a computation *)

Lemma emits_mono {A} (P Q : event → Prop) (m : M A) :
  (∀ e, P e → Q e) → emits P m → emits Q m.
Proof.
  intros HPQ Hm s. specialize (Hm s).
  destruct (m s); try done; destruct Hm as (l & ? & ?);
    exists l; eauto using Forall_impl.
Qed.

Lemma emits_ret {A} P (a : A) : emits P (ret a).
Proof. intros s. by exists []. Qed.

Lemma emits_hang {A} P : emits P (@hang A).
Proof. intros s. by exists []. Qed.

Lemma emits_fault {A} P : emits P (@fault A).
Proof. intros s. by exists []. Qed.

Lemma emits_get P : emits P get.
Proof. intros s. by exists []. Qed.

Lemma emits_say (P : event → Prop) e : P e → emits P (say e).
Proof. intros H s. exists [e]. split; [done|]. by constructor. Qed.

Lemma emits_modify P f : (∀ s, trace (f s) = trace s) → emits P (modify f).
Proof. intros H s. exists []. by rewrite H. Qed.

Lemma emits_bind {A B} P (m : M A) (k : A → M B) :
  emits P m → (∀ a, emits P (k a)) → emits P (bind m k).
Proof.
  intros Hm Hk s. unfold bind. specialize (Hm s).
  destruct (m s) as [a s1|s1|s1|]; try done.
  destruct Hm as (l1 & E1 & F1). specialize (Hk a s1).
  destruct (k a s1) as [b s2|s2|s2|]; try done; destruct Hk as (l2 & E2 & F2);
    exists (l2 ++ l1); (split; [by rewrite E2, E1, app_assoc | by apply Forall_app]).
Qed.

Lemma emits_load P p : emits P (load_connection p).
Proof.
  intros s. unfold load_connection.
  destruct (heap s !! p) as [[[c|]|]|]; by exists [].
Qed.

Lemma emits_store P p f : emits P (store_connection p f).
Proof.
  apply emits_bind; [apply emits_load|]. intros c. by apply emits_modify.
Qed.

Ltac emits_tac :=
  repeat first
    [ apply emits_ret | apply emits_hang | apply emits_fault | apply emits_get
    | apply emits_load | apply emits_store
    | apply emits_say; done
    | apply emits_modify; done
    | apply emits_bind; [|intros ?]
    | match goal with |- emits _ (match ?x with _ => _ end) => destruct x end
    | match goal with |- emits _ (if ?x then _ else _) => destruct x end ].

Lemma emits_signal p o :
  emits not_gatt (let* _ := signal_lock p o in
                  let* _ := signal_set p o in
                  let* _ := signal_cond p o in
                  signal_unlock p o).
Proof.
  unfold signal_lock, signal_set, signal_cond, signal_unlock,
    pthread_mutex_lock_done, pthread_mutex_unlock_done, pthread_cond_signal.
  emits_tac.
Qed.

(** ** The GATT session of the callback (lines 62-95) *)

Lemma add_events_nil s : add_events [] s = s.
Proof. by destruct s. Qed.

Lemma add_events_app l1 l2 s : add_events l2 (add_events l1 s) = add_events (l2 ++ l1) s.
Proof. unfold add_events. simpl. by rewrite app_assoc. Qed.

Lemma say_add e s : say e s = Ok tt (add_events [e] s).
Proof. done. Qed.

Lemma print_services_log i l s :
  print_services i l s = Ok tt (add_events (rev (service_lines i l)) s).
Proof.
  revert i s. induction l as [|sv l IH]; intros i s; simpl.
  - by rewrite add_events_nil.
  - unfold bind. rewrite say_add, IH, add_events_app. done.
Qed.

Lemma print_characteristics_log i l s :
  print_characteristics i l s = Ok tt (add_events (rev (characteristic_lines i l)) s).
Proof.
  revert i s. induction l as [|ch l IH]; intros i s; simpl.
  - by rewrite add_events_nil.
  - unfold bind. rewrite say_add, IH, add_events_app. done.
Qed.

Ltac log_eq :=
  f_equal; f_equal; simpl;
  repeat (rewrite ?rev_app_distr; simpl); rewrite <- ?app_assoc; simpl; try done.

Lemma discover_log_ok e conn s :
  discover e conn s = Ok tt (add_events (rev (discover_log e conn)) s).
Proof.
  unfold discover, discover_log, bind. rewrite say_add.
  destruct (negb (discover_primary_ret e =? 0)%Z).
  { rewrite say_add, add_events_app. log_eq. }
  rewrite print_services_log, say_add, say_add, !add_events_app.
  destruct (negb (discover_char_ret e =? 0)%Z).
  { rewrite say_add, add_events_app. log_eq. }
  rewrite print_characteristics_log, say_add, !add_events_app. log_eq.
Qed.

Lemma gatt_session_log e conn p s :
  gatt_session e conn p s
  = Ok tt (add_events (rev (discover_log e conn ++ disconnect_log e conn p)) s).
Proof.
  unfold gatt_session, disconnect_log, bind.
  rewrite discover_log_ok, say_add, add_events_app.
  destruct (negb (disconnect_ret e =? GATTLIB_SUCCESS)%Z).
  - rewrite say_add, add_events_app. log_eq.
  - unfold ret. log_eq.
Qed.

Lemma service_lines_quiet i l : Forall (λ ev, is_disconnect ev = false) (service_lines i l).
Proof. revert i. induction l; intros i; simpl; by constructor. Qed.

Lemma characteristic_lines_quiet i l :
  Forall (λ ev, is_disconnect ev = false) (characteristic_lines i l).
Proof. revert i. induction l; intros i; simpl; by constructor. Qed.

Lemma discover_log_quiet e conn :
  Forall (λ ev, is_disconnect ev = false) (discover_log e conn).
Proof.
  unfold discover_log. constructor; [done|].
  destruct (negb _); [by repeat constructor|].
  apply Forall_app. split; [apply service_lines_quiet|].
  do 2 (constructor; [done|]).
  destruct (negb _); [by repeat constructor|].
  apply Forall_app. split; [apply characteristic_lines_quiet | by repeat constructor].
Qed.

Lemma disconnect_log_tail e conn p :
  ∃ l, disconnect_log e conn p = Disconnect conn true (disconnect_ret e) :: l
       ∧ Forall not_gatt l.
Proof.
  unfold disconnect_log. destruct (negb _); eexists; split; try done.
  by repeat constructor.
Qed.

Lemma on_device_connect_history e me adapter dst conn error user_data s :
  ∃ s' post,
    final_state (on_device_connect e me adapter dst conn error user_data s) = Some s'
    ∧ history s' = history s ++ discover_log e conn
                     ++ Disconnect conn true (disconnect_ret e) :: post
    ∧ Forall not_gatt post.
Proof.
  destruct (disconnect_log_tail e conn user_data) as (ld & Hd & Fd).
  assert (∃ s' l, final_state (on_device_connect e me adapter dst conn error user_data s)
                  = Some s'
                  ∧ trace s' = l ++ rev (discover_log e conn ++ disconnect_log e conn user_data)
                                 ++ trace s
                  ∧ Forall not_gatt l) as (s' & l & Hs' & Ht & Fl).
  { unfold on_device_connect. unfold bind at 1. rewrite gatt_session_log.
    match goal with
    | |- context [final_state (?m ?s1)] =>
        pose proof (emits_signal user_data me s1) as H; unfold emits in H;
        change (match m s1 with
                | Ok _ s' | Hang s' | Fault s' =>
                    ∃ l, trace s' = l ++ trace s1 ∧ Forall not_gatt l
                | OutOfFuel => False
                end) in H;
        destruct (m s1) as [u s2|s2|s2|]
    end; try done; destruct H as (l & Hl & Fl); exists s2, l; done. }
  exists s', (ld ++ rev l). repeat split.
  - done.
  - unfold history. rewrite Ht, Hd. generalize (discover_log e conn). intros dl.
    rewrite !rev_app_distr, rev_involutive. simpl.
    rewrite rev_app_distr, rev_involutive. simpl.
    by rewrite <- !app_assoc.
  - apply Forall_app. split; [done | by apply Forall_rev].
Qed.

(** C8: in [on_device_connect] the disconnect is performed exactly once, after
    every discovery call and whatever those calls returned; when the
    primary-service discovery fails, nothing but the error log precedes it
    (no characteristic discovery is attempted).  [pre] are the events of the
    callback before the disconnect, [post] those after it. *)
Theorem disconnect_always_performed e me adapter dst conn error user_data s :
  ∃ s' pre post,
    final_state (on_device_connect e me adapter dst conn error user_data s) = Some s'
    ∧ history s' = history s ++ pre ++ Disconnect conn true (disconnect_ret e) :: post
    ∧ Forall (λ ev, is_disconnect ev = false) pre
    ∧ Forall not_gatt post
    ∧ (if decide (discover_primary_ret e = 0%Z)
       then head pre = Some (DiscoverPrimary conn 0)
       else pre = [DiscoverPrimary conn (discover_primary_ret e); Log ErrDiscoverPrimary]).
Proof.
  destruct (on_device_connect_history e me adapter dst conn error user_data s)
    as (s' & post & Hs' & Hh & Fp).
  exists s', (discover_log e conn), post. repeat split; try done.
  - apply discover_log_quiet.
  - unfold discover_log. case_decide as H0.
    + by rewrite H0.
    + apply Z.eqb_neq in H0. by rewrite H0.
Qed.

(** C6 as stated fails: delivered with a non-zero error argument,
    [on_device_connect] still starts by requesting the primary services on the
    handle it was given. *)
Lemma error_argument_not_checked :
  ∃ s' rest,
    on_device_connect gatt_ok (Callback 0) 7 "AA:BB:CC:DD:EE:01" 3 1 0 one_device = Ok tt s'
    ∧ history s' = history one_device ++ DiscoverPrimary 3 0 :: rest.
Proof. vm_compute. eexists _, _. split; reflexivity. Qed.

(** C6, amended: [on_device_connect] never reads its error argument: for any
    two values of it the callback does the same, and its first action is
    always the primary-service discovery on the handle; a failed connection
    shows only in the statuses of the discovery calls. *)
Theorem error_argument_ignored e me adapter dst conn error error' user_data s :
  on_device_connect e me adapter dst conn error user_data s
  = on_device_connect e me adapter dst conn error' user_data s
  ∧ ∃ s' rest,
      final_state (on_device_connect e me adapter dst conn error user_data s) = Some s'
      ∧ history s' = history s ++ DiscoverPrimary conn (discover_primary_ret e) :: rest.
Proof.
  split; [done|].
  destruct (on_device_connect_history e me adapter dst conn error user_data s)
    as (s' & post & Hs' & Hh & _).
  exists s'. eexists. split; [done|]. rewrite Hh. unfold discover_log. simpl.
  done.
Qed.

(** ** The registry invariant *)

Lemma history_emit e s : history (emit e s) = history s ++ [e].
Proof. done. Qed.

Lemma inserted_app l1 l2 : inserted (l1 ++ l2) = inserted l1 ++ inserted l2.
Proof. apply omap_app. Qed.

Lemma removed_app l1 l2 : removed (l1 ++ l2) = removed l1 ++ removed l2.
Proof. apply omap_app. Qed.

Lemma connection_at_lt s p c : connection_at s p = Some c → p < length (heap s).
Proof.
  unfold connection_at. intros H. apply lookup_lt_is_Some.
  destruct (heap s !! p); [by eexists | done].
Qed.

Lemma string_at_lt s p : is_Some (string_at s p) → p < length (heap s).
Proof.
  unfold string_at. intros [str H]. apply lookup_lt_is_Some.
  destruct (heap s !! p); [by eexists | done].
Qed.

Lemma connection_at_grow s s' l p c :
  heap s' = heap s ++ l → connection_at s p = Some c → connection_at s' p = Some c.
Proof.
  intros E H. pose proof (connection_at_lt _ _ _ H) as Hlt.
  unfold connection_at in *. by rewrite E, lookup_app_l.
Qed.

Lemma connection_at_shrink s s' l p c :
  heap s' = heap s ++ l → p < length (heap s) →
  connection_at s' p = Some c → connection_at s p = Some c.
Proof. intros E Hlt H. unfold connection_at in *. by rewrite E, lookup_app_l in H. Qed.

Lemma string_at_grow s s' l p :
  heap s' = heap s ++ l → is_Some (string_at s p) → is_Some (string_at s' p).
Proof.
  intros E H. pose proof (string_at_lt _ _ H) as Hlt.
  unfold string_at in *. by rewrite E, lookup_app_l.
Qed.

Lemma registry_lt s p : registry_wf s → p ∈ g_ble_connections s → p < length (heap s).
Proof.
  intros W Hp. destruct (wf_record _ W p Hp) as (c & t & w & Hc & _).
  by eapply connection_at_lt.
Qed.

(** The registry invariant survives anything that only grows the heap and the
    thread table and neither inserts nor removes a record. *)
Lemma registry_wf_grow s s' lh lw :
  registry_wf s →
  heap s' = heap s ++ lh → workers s' = workers s ++ lw →
  g_ble_connections s' = g_ble_connections s →
  registry_wf s'.
Proof.
  intros W Eh Ew Er. split; rewrite ?Er.
  - apply W.
  - intros p Hp. destruct (wf_record _ W p Hp) as (c & t & w & Hc & Ht & Hw & Ha & Hd).
    exists c, t, w. repeat split; try done.
    + by eapply connection_at_grow.
    + rewrite Ew. by apply lookup_app_l_Some.
  - intros p c a Hp Hc Ha. eapply string_at_grow; [done|].
    eapply (wf_addr _ W p c a); try done.
    eapply connection_at_shrink; try done. by apply registry_lt.
  - intros p1 p2 c1 c2 a Hp1 Hp2 Hc1 Hc2 Ha1 Ha2.
    eapply (wf_addr_inj _ W p1 p2 c1 c2 a); try done;
      (eapply connection_at_shrink; [done | by apply registry_lt | done]).
Qed.

Lemma unlocked_grow s s' lh :
  registry_wf s → unlocked s →
  heap s' = heap s ++ lh → g_ble_connections s' = g_ble_connections s → unlocked s'.
Proof.
  intros W U Eh Er p c Hp Hc. rewrite Er in Hp. apply (U p c Hp).
  eapply connection_at_shrink; try done. by apply registry_lt.
Qed.

Lemma registry_wf_initial : registry_wf initial_state.
Proof.
  split; simpl; try (intros; exfalso; by eapply not_elem_of_nil).
  constructor.
Qed.

Lemma registry_wf_say e s : registry_wf s → registry_wf (emit e s).
Proof.
  intros W. apply (registry_wf_grow s _ [] []); try done; simpl; by rewrite ?app_nil_r.
Qed.

Ltac order_simpl :=
  unfold registry_order, history in *; simpl;
  rewrite ?inserted_app, ?removed_app; simpl; rewrite ?app_nil_r.

Lemma unlocked_say e s : unlocked s → unlocked (emit e s).
Proof. done. Qed.

(** The state [ble_discovered_device] leaves when it accepts a device. *)
Lemma accepted_registry_wf e adapter (a : string) s evs :
  registry_wf s →
  let p := length (heap s) in
  let t := length (workers s) in
  let c := accepted_connection adapter t (strdup_ptr (strdup_ok e) (S p)) in
  registry_wf
    (mk_state (adapter_name s) (g_mutex s) (p :: g_ble_connections s)
       (heap s ++ Some (BConnection c) :: strdup_block (strdup_ok e) a)
       (workers s ++ [mk_worker p W110 CbNone]) (evs ++ trace s)).
Proof.
  intros W p t c. set (s' := mk_state _ _ _ _ _ _).
  assert (heap s' = heap s ++ Some (BConnection c) :: strdup_block (strdup_ok e) a) as Eh by done.
  assert (connection_at s' p = Some c) as Hp.
  { unfold connection_at, p. by rewrite Eh, lookup_fresh. }
  assert (∀ q, q ∈ g_ble_connections s → q ≠ p) as Hne.
  { intros q Hq. pose proof (registry_lt s q W Hq). unfold p. lia. }
  assert (∀ q c', q ∈ g_ble_connections s → connection_at s' q = Some c' →
                  connection_at s q = Some c') as Hold.
  { intros q c' Hq. eapply connection_at_shrink; [done | by apply registry_lt]. }
  split.
  + simpl. constructor; [|apply W]. intros Hin. by apply (Hne p).
  + intros q Hq. apply elem_of_cons in Hq as [->|Hq].
    * exists c, t, (mk_worker p W110 CbNone). split_and!; try done.
      unfold s', t. cbn -[lookup]. apply lookup_fresh.
    * destruct (wf_record _ W q Hq) as (c' & t' & w' & Hc' & Ht' & Hw' & Ha' & Hd').
      exists c', t', w'. split_and!; try done.
      -- by eapply connection_at_grow.
      -- unfold s'. cbn -[lookup]. by apply lookup_app_l_Some.
  + intros q c' a' Hq Hc' Ha'. apply elem_of_cons in Hq as [->|Hq].
    * rewrite Hp in Hc'. injection Hc' as <-. simpl in Ha'.
      destruct (strdup_ok e); simpl in Ha'; [|done]. injection Ha' as <-.
      unfold string_at. rewrite Eh. simpl.
      rewrite (lookup_app_r (heap s)) by (unfold p; lia).
      replace (S p - length (heap s)) with 1 by (unfold p; lia). by eexists.
    * eapply string_at_grow; [done|]. eapply (wf_addr _ W q c' a'); eauto.
  + intros p1 p2 c1 c2 a' H1 H2 Hc1 Hc2 Ha1 Ha2.
    assert (∀ q c' , q ∈ g_ble_connections s → connection_at s' q = Some c' →
                     addr c' = Some a' → a' < p) as Hlt.
    { intros q c' Hq Hc' Ha'. apply string_at_lt. eapply (wf_addr _ W q c' a'); eauto. }
    assert (addr c = Some a' → p < a') as Hgt.
    { simpl. destruct (strdup_ok e); simpl; [|done]. intros [= <-]. lia. }
    apply elem_of_cons in H1 as [->|H1]; apply elem_of_cons in H2 as [->|H2]; try done.
    * rewrite Hp in Hc1. injection Hc1 as <-.
      pose proof (Hlt _ _ H2 Hc2 Ha2). pose proof (Hgt Ha1). lia.
    * rewrite Hp in Hc2. injection Hc2 as <-.
      pose proof (Hlt _ _ H1 Hc1 Ha1). pose proof (Hgt Ha2). lia.
    * eapply (wf_addr_inj _ W p1 p2 c1 c2 a'); eauto.
Qed.

(** [ble_discovered_device] always returns, touches neither [g_mutex] nor the
    adapter name, removes nothing, and keeps the registry well formed. *)
Lemma discovered_keeps_registry e adapter a name s :
  registry_wf s → unlocked s →
  ∃ s', ble_discovered_device e adapter a name s = Ok tt s'
        ∧ registry_wf s' ∧ unlocked s'
        ∧ g_mutex s' = g_mutex s ∧ adapter_name s' = adapter_name s
        ∧ removed (history s') = removed (history s)
        ∧ (removed (history s) = [] → registry_order s → registry_order s')
        ∧ (∀ a t r, ScanEnable a t r ∈ trace s' → ScanEnable a t r ∈ trace s).
Proof.
  intros W U.
  destruct (decide (name = Some CONNECT_DEVICE_NAME)) as [->|Hn].
  2:{ destruct (discovered_rejected e adapter a name s Hn) as [ev ->].
      eexists. split; [done|]. split_and!; try done.
      - by apply registry_wf_say.
      - by order_simpl.
      - intros _ Ho. by order_simpl.
      - simpl. intros ??? H. by apply elem_of_cons in H as [?|?]. }
  destruct (calloc_ok e) eqn:Hc.
  2:{ rewrite discovered_no_memory by done.
      eexists. split; [done|]. split_and!; try done.
      - by repeat apply registry_wf_say.
      - by order_simpl.
      - intros _ Ho. by order_simpl.
      - simpl. intros ??? H. by repeat apply elem_of_cons in H as [?|H]. }
  destruct (decide (pthread_create_ret e = 0%Z)) as [Hr|Hr].
  2:{ rewrite discovered_no_thread by done.
      eexists. split; [done|]. split_and!; try done.
      - eapply (registry_wf_grow s _ _ []); try done; simpl; by rewrite ?app_nil_r.
      - by eapply unlocked_grow.
      - by order_simpl.
      - intros _ Ho. by order_simpl.
      - simpl. intros ??? H. by repeat apply elem_of_cons in H as [?|H]. }
  rewrite discovered_accepted by done.
  eexists. split; [done|].
  set (p := length (heap s)). set (t := length (workers s)).
  set (c := accepted_connection adapter t (strdup_ptr (strdup_ok e) (S p))).
  set (s' := mk_state _ _ _ _ _ _).
  assert (heap s' = heap s ++ Some (BConnection c) :: strdup_block (strdup_ok e) a) as Eh by done.
  assert (connection_at s' p = Some c) as Hp.
  { unfold connection_at, p. by rewrite Eh, lookup_fresh. }
  assert (∀ q, q ∈ g_ble_connections s → q ≠ p) as Hne.
  { intros q Hq. pose proof (registry_lt s q W Hq). unfold p. lia. }
  assert (∀ q c', q ∈ g_ble_connections s → connection_at s' q = Some c' →
                  connection_at s q = Some c') as Hold.
  { intros q c' Hq. eapply connection_at_shrink; [done | by apply registry_lt]. }
  split_and!; try done.
  - apply accepted_registry_wf. exact W.
  - intros q c' Hq Hc'. apply elem_of_cons in Hq as [->|Hq].
    + rewrite Hp in Hc'. by injection Hc' as <-.
    + apply (U q c' Hq). by apply Hold.
  - by order_simpl.
  - intros Hr0 Ho. order_simpl. rewrite Hr0 in *. simpl in *.
    rewrite rev_app_distr. simpl. by rewrite Ho.
  - simpl. intros ??? H. by repeat apply elem_of_cons in H as [?|H].
Qed.

Lemma deliver_keeps_registry adapter l s :
  registry_wf s → unlocked s →
  ∃ s', deliver ble_discovered_device adapter l s = Ok tt s'
        ∧ registry_wf s' ∧ unlocked s'
        ∧ g_mutex s' = g_mutex s ∧ adapter_name s' = adapter_name s
        ∧ removed (history s') = removed (history s)
        ∧ (removed (history s) = [] → registry_order s → registry_order s')
        ∧ (∀ a t r, ScanEnable a t r ∈ trace s' → ScanEnable a t r ∈ trace s).
Proof.
  revert s. induction l as [|a l IH]; intros s W U; simpl.
  - exists s. by split_and!.
  - destruct (discovered_keeps_registry (adv_env a) adapter (adv_addr a) (adv_name a) s W U)
      as (s1 & E1 & W1 & U1 & G1 & N1 & R1 & O1 & S1).
    destruct (IH s1 W1 U1) as (s2 & E2 & W2 & U2 & G2 & N2 & R2 & O2 & S2).
    exists s2. unfold bind. rewrite E1. split_and!; try done; try congruence.
    + intros Hr Ho. apply O2; [congruence | by apply O1].
    + intros ??? H. by apply S1, S2.
Qed.

(** ** Equations of the heap and thread operations *)

Lemma bind_ok {A B} (m : M A) (k : A → M B) s a s' :
  m s = Ok a s' → bind m k s = k a s'.
Proof. unfold bind. by intros ->. Qed.

Lemma load_connection_eq s p c :
  connection_at s p = Some c → load_connection p s = Ok c s.
Proof.
  unfold connection_at, load_connection.
  destruct (heap s !! p) as [[[c'|]|]|]; try done. by intros [= ->].
Qed.

Lemma load_connection_inv s p c s' :
  load_connection p s = Ok c s' → connection_at s p = Some c ∧ s' = s.
Proof.
  unfold connection_at, load_connection.
  destruct (heap s !! p) as [[[c'|]|]|]; try done. by intros [= -> ->].
Qed.

Lemma store_connection_eq s p c f :
  connection_at s p = Some c → store_connection p f s = Ok tt (put_connection p (f c) s).
Proof. intros H. unfold store_connection. by rewrite (bind_ok _ _ _ _ _ (load_connection_eq _ _ _ H)). Qed.

Lemma store_connection_inv s p f s' :
  store_connection p f s = Ok tt s' →
  ∃ c, connection_at s p = Some c ∧ s' = put_connection p (f c) s.
Proof.
  unfold store_connection, bind. destruct (load_connection p s) as [c s1| | |] eqn:E; try done.
  apply load_connection_inv in E as [E ->]. intros [= <-]. by exists c.
Qed.

Lemma connection_at_put_eq s p c c0 :
  connection_at s p = Some c0 → connection_at (put_connection p c s) p = Some c.
Proof.
  intros H. apply connection_at_lt in H. unfold connection_at, put_connection. simpl.
  by rewrite list_lookup_insert_eq.
Qed.

Lemma connection_at_put_ne s p q c :
  p ≠ q → connection_at (put_connection p c s) q = connection_at s q.
Proof.
  intros H. unfold connection_at, put_connection. simpl.
  by rewrite list_lookup_insert_ne.
Qed.

Lemma string_at_put s p q c c0 :
  connection_at s p = Some c0 → string_at (put_connection p c s) q = string_at s q.
Proof.
  intros H. unfold string_at, put_connection. simpl.
  destruct (decide (p = q)) as [->|Hne].
  - pose proof (connection_at_lt _ _ _ H). rewrite list_lookup_insert_eq by done.
    unfold connection_at in H. by destruct (heap s !! q) as [[[|]|]|].
  - by rewrite list_lookup_insert_ne.
Qed.

Lemma free_eq s q b :
  heap s !! q = Some (Some b) → free (Some q) s = Ok tt (release q s).
Proof. intros H. unfold free, bind, get. by rewrite H. Qed.

Lemma connection_at_release_ne s p q :
  p ≠ q → connection_at (release q s) p = connection_at s p.
Proof.
  intros H. unfold connection_at, release. simpl. by rewrite list_lookup_insert_ne.
Qed.

Lemma string_at_release_ne s p q :
  p ≠ q → string_at (release q s) p = string_at s p.
Proof.
  intros H. unfold string_at, release. simpl. by rewrite list_lookup_insert_ne.
Qed.

Lemma freed_release s q : q < length (heap s) → freed (release q s) q.
Proof. intros H. unfold freed, release. simpl. by rewrite list_lookup_insert_eq. Qed.

Lemma freed_release_other s p q : freed s p → freed (release q s) p.
Proof.
  intros H. unfold freed, release in *. simpl. destruct (decide (q = p)) as [->|Hne].
  - rewrite list_lookup_insert_eq; [done|]. apply lookup_lt_is_Some. by eexists.
  - by rewrite list_lookup_insert_ne.
Qed.

Lemma connection_string_ne s p a c :
  connection_at s p = Some c → is_Some (string_at s a) → p ≠ a.
Proof.
  unfold connection_at, string_at. intros H [str Hs] ->.
  by destruct (heap s !! a) as [[[|]|]|].
Qed.

Lemma pthread_mutex_destroy_eq s p c :
  connection_at s p = Some c → done_mutex c = MutexFree →
  pthread_mutex_destroy p s
  = Ok tt (emit (MutexDestroy p) (put_connection p (set_done_mutex MutexDestroyed c) s)).
Proof.
  intros H Hm. unfold pthread_mutex_destroy.
  rewrite (bind_ok _ _ _ _ _ (load_connection_eq _ _ _ H)), Hm.
  by rewrite (bind_ok _ _ _ _ _ (store_connection_eq _ _ _ _ H)).
Qed.

Lemma pthread_cond_destroy_eq s p c :
  connection_at s p = Some c → done_cond c = CondReady →
  pthread_cond_destroy p s
  = Ok tt (emit (CondDestroy p) (put_connection p (set_done_cond CondDestroyed c) s)).
Proof.
  intros H Hm. unfold pthread_cond_destroy.
  rewrite (bind_ok _ _ _ _ _ (load_connection_eq _ _ _ H)), Hm.
  by rewrite (bind_ok _ _ _ _ _ (store_connection_eq _ _ _ _ H)).
Qed.

(** ** One turn of the drain loop *)

Lemma drain_body_eq returns s p rest c t :
  registry_wf s → (returns t = true → done_mutex c = MutexFree) →
  g_ble_connections s = p :: rest →
  connection_at s p = Some c → thread c = Some t →
  drain_body returns s = if returns t then Ok tt (drained p c t rest s) else Hang s.
Proof.
  intros W Hm Er Hc Ht.
  assert (p ∈ g_ble_connections s) as Hin by (rewrite Er; left).
  destruct (wf_record _ W p Hin) as (c' & t' & w & Hc' & Ht' & Hw & Ha & Hd).
  rewrite Hc in Hc'. injection Hc' as <-.
  unfold drain_body. unfold bind at 1. unfold get. rewrite Er.
  rewrite (bind_ok _ _ _ _ _ (load_connection_eq _ _ _ Hc)).
  unfold bind at 1. rewrite Ht. unfold pthread_join.
  destruct (returns t); [|done]. specialize (Hm eq_refl). unfold say at 1, modify at 1.
  unfold bind at 1. unfold modify at 1. unfold bind at 1. unfold say at 1, modify at 1.
  set (s1 := emit (ListRemove p) _).
  assert (connection_at s1 p = Some c) as Hc1 by done.
  rewrite (bind_ok _ _ _ _ _ (load_connection_eq _ _ _ Hc1)).
  assert (∃ s2, free (addr c) s1 = Ok tt s2 ∧ s2 = release_addr (addr c) s1
                ∧ connection_at s2 p = Some c) as (s2 & E2 & Es2 & Hc2).
  { destruct (addr c) as [a|] eqn:Ea.
    - destruct (wf_addr _ W p c a Hin Hc Ea) as [str Hs].
      assert (p ≠ a) by (eapply connection_string_ne; eauto).
      assert (heap s1 !! a = Some (Some (BString str))) as Hh.
      { unfold string_at in Hs. simpl. by destruct (heap s !! a) as [[[|]|]|]; simplify_eq. }
      exists (release a s1). split_and!; [by eapply free_eq | done |].
      by rewrite connection_at_release_ne.
    - exists s1. by split_and!. }
  rewrite (bind_ok _ _ _ _ _ E2).
  rewrite (bind_ok _ _ _ _ _ (pthread_mutex_destroy_eq _ _ _ Hc2 Hm)).
  set (c3 := set_done_mutex MutexDestroyed c).
  set (s3 := emit (MutexDestroy p) _).
  assert (connection_at s3 p = Some c3) as Hc3.
  { unfold s3. change (connection_at (emit ?e ?s) ?p) with (connection_at s p).
    by eapply connection_at_put_eq. }
  rewrite (bind_ok _ _ _ _ _ (pthread_cond_destroy_eq _ _ _ Hc3 Hd)).
  set (s4 := emit (CondDestroy p) _).
  assert (connection_at s4 p = Some (set_done_cond CondDestroyed c3)) as Hc4.
  { unfold s4. change (connection_at (emit ?e ?s) ?p) with (connection_at s p).
    by eapply connection_at_put_eq. }
  assert (heap s4 !! p = Some (Some (BConnection (set_done_cond CondDestroyed c3)))) as Hh4.
  { unfold connection_at in Hc4. by destruct (heap s4 !! p) as [[[|]|]|]; simplify_eq. }
  rewrite (free_eq _ _ _ Hh4). unfold drained. by subst.
Qed.

Lemma drained_registry p c t rest s : g_ble_connections (drained p c t rest s) = rest.
Proof. unfold drained, release_addr. by destruct (addr c). Qed.

Lemma drained_frame p c t rest s :
  workers (drained p c t rest s) = workers s
  ∧ g_mutex (drained p c t rest s) = g_mutex s
  ∧ adapter_name (drained p c t rest s) = adapter_name s
  ∧ length (heap (drained p c t rest s)) = length (heap s).
Proof.
  unfold drained, release_addr. destruct (addr c); simpl; by rewrite !length_insert.
Qed.

Lemma drained_trace p c t rest s :
  connection_at s p = Some c → thread c = Some t →
  trace (drained p c t rest s) = rev (release_log s p) ++ trace s.
Proof.
  intros Hc Ht. unfold release_log, drained, release_addr. rewrite Hc, Ht.
  by destruct (addr c).
Qed.

Lemma drained_lookup p c t rest s q :
  q ≠ p → addr c ≠ Some q → heap (drained p c t rest s) !! q = heap s !! q.
Proof.
  intros Hp Ha. unfold drained, release_addr.
  destruct (addr c) as [a|]; simpl; rewrite !list_lookup_insert_ne by congruence; done.
Qed.

Lemma drained_freed p c t rest s q :
  q < length (heap s) → q = p ∨ addr c = Some q → freed (drained p c t rest s) q.
Proof.
  intros Hlt Hq. unfold freed, drained, release_addr.
  destruct (decide (q = p)) as [->|Hne].
  - destruct (addr c); simpl; rewrite list_lookup_insert_eq; rewrite ?length_insert; done.
  - destruct Hq as [?|Ha]; [done|]. rewrite Ha. simpl.
    rewrite !list_lookup_insert_ne by done. by rewrite list_lookup_insert_eq.
Qed.

Lemma drained_freed_keep p c t rest s q : freed s q → freed (drained p c t rest s) q.
Proof.
  intros H. assert (q < length (heap s)) as Hlt by (apply lookup_lt_is_Some; by eexists).
  destruct (decide (q = p ∨ addr c = Some q)) as [Hq|Hq].
  - by apply drained_freed.
  - unfold freed. rewrite drained_lookup; [done| |]; intros ?; apply Hq; auto.
Qed.

Lemma drained_connection_at p c t rest s q c' :
  connection_at s p = Some c → registry_wf s → g_ble_connections s = p :: rest →
  q ∈ rest → connection_at s q = Some c' →
  connection_at (drained p c t rest s) q = Some c'.
Proof.
  intros Hc W Er Hq Hc'.
  assert (p ∈ g_ble_connections s) as Hp by (rewrite Er; left).
  assert (q ∈ g_ble_connections s) as Hq' by (rewrite Er; by right).
  assert (q ≠ p) as Hne.
  { intros ->. pose proof (wf_nodup _ W) as Hn. rewrite Er in Hn.
    by apply NoDup_cons in Hn as [? _]. }
  unfold connection_at. rewrite drained_lookup; [done..|].
  intros Ha. destruct (wf_addr _ W p c q Hp Hc Ha) as [str Hs].
  unfold string_at, connection_at in *. by destruct (heap s !! q) as [[[|]|]|].
Qed.

Lemma drained_string_at p c t rest s q c' a :
  connection_at s p = Some c → registry_wf s → g_ble_connections s = p :: rest →
  q ∈ rest → connection_at s q = Some c' → addr c' = Some a →
  string_at (drained p c t rest s) a = string_at s a.
Proof.
  intros Hc W Er Hq Hc' Ha'.
  assert (p ∈ g_ble_connections s) as Hp by (rewrite Er; left).
  assert (q ∈ g_ble_connections s) as Hq' by (rewrite Er; by right).
  assert (q ≠ p) as Hne.
  { intros ->. pose proof (wf_nodup _ W) as Hn. rewrite Er in Hn.
    by apply NoDup_cons in Hn as [? _]. }
  destruct (wf_addr _ W q c' a Hq' Hc' Ha') as [str Hs].
  unfold string_at. rewrite drained_lookup; [done| |].
  - intros ->. unfold string_at, connection_at in *.
    by destruct (heap s !! p) as [[[|]|]|].
  - intros Ha. apply Hne. by eapply (wf_addr_inj _ W q p c' c a).
Qed.

Lemma drained_wf p c t rest s :
  connection_at s p = Some c → registry_wf s → g_ble_connections s = p :: rest →
  registry_wf (drained p c t rest s).
Proof.
  intros Hc W Er.
  assert (∀ q, q ∈ rest → q ∈ g_ble_connections s) as Hsub by (intros; rewrite Er; by right).
  assert (∀ q c', q ∈ rest → connection_at (drained p c t rest s) q = Some c' →
                  connection_at s q = Some c') as Hback.
  { intros q c' Hq Hc'. destruct (wf_record _ W q (Hsub q Hq)) as (c0 & ? & ? & Hc0 & _).
    rewrite (drained_connection_at p c t rest s q c0) in Hc' by done. congruence. }
  split; rewrite drained_registry.
  - pose proof (wf_nodup _ W) as Hn. rewrite Er in Hn. by apply NoDup_cons in Hn as [_ ?].
  - intros q Hq. destruct (wf_record _ W q (Hsub q Hq)) as (c' & t' & w' & Hc' & ? & ? & ? & ?).
    exists c', t', w'. split_and!; try done.
    + by eapply drained_connection_at.
    + by rewrite (proj1 (drained_frame p c t rest s)).
  - intros q c' a Hq Hc' Ha. apply Hback in Hc'; [|done].
    erewrite drained_string_at; eauto. eapply (wf_addr _ W q c' a); eauto.
  - intros p1 p2 c1 c2 a H1 H2 Hc1 Hc2 Ha1 Ha2.
    apply Hback in Hc1; [|done]. apply Hback in Hc2; [|done].
    eapply (wf_addr_inj _ W p1 p2 c1 c2 a); eauto.
Qed.

Lemma drained_unlocked p c t rest s :
  connection_at s p = Some c → registry_wf s → unlocked s → g_ble_connections s = p :: rest →
  unlocked (drained p c t rest s).
Proof.
  intros Hc W U Er q c' Hq Hc'. rewrite drained_registry in Hq.
  assert (q ∈ g_ble_connections s) as Hq' by (rewrite Er; by right).
  destruct (wf_record _ W q Hq') as (c0 & ? & ? & Hc0 & _).
  rewrite (drained_connection_at p c t rest s q c0) in Hc' by done.
  injection Hc' as <-. by apply (U q c0).
Qed.

Lemma drained_release_log p c t rest s q :
  connection_at s p = Some c → registry_wf s → g_ble_connections s = p :: rest →
  q ∈ rest → release_log (drained p c t rest s) q = release_log s q.
Proof.
  intros Hc W Er Hq.
  assert (q ∈ g_ble_connections s) as Hq' by (rewrite Er; by right).
  destruct (wf_record _ W q Hq') as (c0 & ? & ? & Hc0 & _).
  unfold release_log. by rewrite (drained_connection_at p c t rest s q c0), Hc0.
Qed.

Lemma drained_blocks_of p c t rest s q :
  connection_at s p = Some c → registry_wf s → g_ble_connections s = p :: rest →
  q ∈ rest → blocks_of (drained p c t rest s) q = blocks_of s q.
Proof.
  intros Hc W Er Hq.
  assert (q ∈ g_ble_connections s) as Hq' by (rewrite Er; by right).
  destruct (wf_record _ W q Hq') as (c0 & ? & ? & Hc0 & _).
  unfold blocks_of. by rewrite (drained_connection_at p c t rest s q c0), Hc0.
Qed.

(** ** The drain loop *)

Lemma blocks_of_head s p c :
  connection_at s p = Some c → ∀ q, q ∈ blocks_of s p ↔ q = p ∨ addr c = Some q.
Proof.
  intros Hc q. unfold blocks_of. rewrite Hc. destruct (addr c) as [a|].
  - rewrite !elem_of_cons, elem_of_nil. split; intros; destruct_or?; simplify_eq; auto.
  - rewrite elem_of_cons, elem_of_nil. split; intros; destruct_or?; simplify_eq; auto.
Qed.

Lemma drain_spec returns fuel s :
  registry_wf s → unlocked s → length (g_ble_connections s) ≤ fuel →
  match drain fuel returns s with
  | Ok _ s' =>
      g_ble_connections s' = []
      ∧ trace s' = rev (concat (map (release_log s) (g_ble_connections s))) ++ trace s
      ∧ workers s' = workers s ∧ g_mutex s' = g_mutex s ∧ adapter_name s' = adapter_name s
      ∧ (∀ q, q ∈ concat (map (blocks_of s) (g_ble_connections s)) → freed s' q)
      ∧ (∀ q, freed s q → freed s' q)
  | Hang _ => ∃ t, returns t = false
  | _ => False
  end.
Proof.
  revert s. induction fuel as [|n IH]; intros s W U Hlen.
  - destruct (g_ble_connections s) as [|p rest] eqn:Er; [|simpl in Hlen; lia].
    simpl. unfold bind, get. rewrite Er. unfold ret. rewrite ?Er. simpl.
    split_and!; try done. by intros ? ?%elem_of_nil.
  - simpl. unfold bind at 1. unfold get.
    destruct (g_ble_connections s) as [|p rest] eqn:Er.
    { unfold ret. rewrite ?Er. simpl. split_and!; try done. by intros ? ?%elem_of_nil. }
    assert (p ∈ g_ble_connections s) as Hin by (rewrite Er; left).
    destruct (wf_record _ W p Hin) as (c & t & w & Hc & Ht & _).
    unfold bind. rewrite (drain_body_eq returns s p rest c t W (λ _, U p c Hin Hc) Er Hc Ht).
    destruct (returns t) eqn:Hret; [|by exists t].
    set (s1 := drained p c t rest s).
    assert (registry_wf s1) as W1 by by apply drained_wf.
    assert (unlocked s1) as U1 by by apply drained_unlocked.
    assert (g_ble_connections s1 = rest) as Er1 by apply drained_registry.
    destruct (drained_frame p c t rest s) as (Fw & Fg & Fa & Fl).
    specialize (IH s1 W1 U1). rewrite Er1 in IH. simpl in Hlen.
    specialize (IH ltac:(lia)).
    destruct (drain n returns s1) as [u s'|s'|s'|]; try done.
    destruct IH as (R' & T' & W' & G' & A' & F' & K').
    assert (map (release_log s1) rest = map (release_log s) rest) as El.
    { apply map_ext_in. intros q Hq. apply drained_release_log; try done.
      by apply list_elem_of_In. }
    assert (map (blocks_of s1) rest = map (blocks_of s) rest) as Eb.
    { apply map_ext_in. intros q Hq. apply drained_blocks_of; try done.
      by apply list_elem_of_In. }
    rewrite El in T'. rewrite Eb in F'.
    split_and!; try (unfold s1 in *; congruence).
    + rewrite T'. unfold s1. rewrite (drained_trace p c t rest s Hc Ht).
      simpl. by rewrite rev_app_distr, app_assoc.
    + intros q Hq. simpl in Hq. apply elem_of_app in Hq as [Hq|Hq]; [|by apply F'].
      apply K'. apply drained_freed.
      * apply (blocks_of_head s p c Hc) in Hq as [->|Ha].
        -- by eapply connection_at_lt.
        -- apply string_at_lt. by eapply (wf_addr _ W p c q).
      * by apply (blocks_of_head s p c Hc).
    + intros q Hq. apply K'. by apply drained_freed_keep.
Qed.

(** *** Counting the releases *)

Lemma times_app e l1 l2 : times e (l1 ++ l2) = times e l1 + times e l2.
Proof. apply count_occ_app. Qed.

Lemma times_rev e l : times e (rev l) = times e l.
Proof. apply count_occ_rev. Qed.

Lemma times_zero e l : e ∉ l → times e l = 0.
Proof. intros H. apply count_occ_not_In. by rewrite <- list_elem_of_In. Qed.

Lemma times_cons e e' l :
  times e (e' :: l) = (if decide (e' = e) then 1 else 0) + times e l.
Proof.
  unfold times. simpl. destruct (event_eq_dec e' e); case_decide; done.
Qed.

Lemma count_cons (q q' : nat) l :
  count_occ Nat.eq_dec (q' :: l) q = (if decide (q' = q) then 1 else 0) + count_occ Nat.eq_dec l q.
Proof. simpl. destruct (Nat.eq_dec q' q); case_decide; done. Qed.

Lemma times_nil e : times e [] = 0.
Proof. done. Qed.

Ltac count_tac :=
  cbn [app]; rewrite ?times_cons, ?count_cons, ?times_nil; cbn [count_occ];
  repeat case_decide; simplify_eq; try done; try lia.

Lemma release_log_free s p q :
  times (Free q) (release_log s p) = count_occ Nat.eq_dec (blocks_of s p) q.
Proof.
  unfold release_log, blocks_of. destruct (connection_at s p) as [c|]; [|done].
  destruct (thread c), (addr c) as [a|]; count_tac.
Qed.

Lemma release_log_destroy s p q :
  is_Some (connection_at s p) →
  times (MutexDestroy q) (release_log s p) = (if decide (p = q) then 1 else 0)
  ∧ times (CondDestroy q) (release_log s p) = (if decide (p = q) then 1 else 0).
Proof.
  intros [c Hc]. unfold release_log. rewrite Hc.
  destruct (thread c), (addr c) as [a|]; split; count_tac.
Qed.

Lemma release_logs_free s l q :
  times (Free q) (concat (map (release_log s) l))
  = count_occ Nat.eq_dec (concat (map (blocks_of s) l)) q.
Proof.
  induction l as [|p l IH]; simpl; [done|].
  by rewrite times_app, count_occ_app, release_log_free, IH.
Qed.

Lemma release_logs_destroy s l q :
  (∀ p, p ∈ l → is_Some (connection_at s p)) →
  times (MutexDestroy q) (concat (map (release_log s) l)) = count_occ Nat.eq_dec l q
  ∧ times (CondDestroy q) (concat (map (release_log s) l)) = count_occ Nat.eq_dec l q.
Proof.
  induction l as [|p l IH]; intros H; simpl; [done|].
  destruct IH as [IH1 IH2]. { intros p' Hp'. apply H. by right. }
  destruct (release_log_destroy s p q) as [E1 E2]. { apply H. left. }
  rewrite !times_app, E1, E2, IH1, IH2.
  destruct (decide (p = q)), (Nat.eq_dec p q); try done.
Qed.

Lemma blocks_nodup s l :
  registry_wf s → NoDup l → (∀ p, p ∈ l → p ∈ g_ble_connections s) →
  NoDup (concat (map (blocks_of s) l)).
Proof.
  intros W. induction l as [|p l IH]; intros Hn Hsub; simpl; [constructor|].
  apply NoDup_cons in Hn as [Hp Hn].
  assert (p ∈ g_ble_connections s) as Hin by (apply Hsub; left).
  destruct (wf_record _ W p Hin) as (c & t & w & Hc & _).
  apply NoDup_app. split_and!.
  - unfold blocks_of. rewrite Hc. destruct (addr c) as [a|] eqn:Ea.
    + apply NoDup_cons. split; [|apply NoDup_singleton].
      rewrite elem_of_cons, elem_of_nil. intros [->|[]].
      eapply connection_string_ne; [done| |done]. by eapply (wf_addr _ W a c a).
    + apply NoDup_singleton.
  - intros x Hx Hx'. apply list_elem_of_In, in_concat in Hx' as (bl & Hbl & Hx').
    apply in_map_iff in Hbl as [q [<- Hq]].
    apply list_elem_of_In in Hq. apply list_elem_of_In in Hx'.
    assert (q ∈ g_ble_connections s) as Hqin by (apply Hsub; by right).
    destruct (wf_record _ W q Hqin) as (c' & t' & w' & Hc' & _).
    assert (p ≠ q) as Hne by (by intros ->).
    apply (blocks_of_head s p c Hc) in Hx. apply (blocks_of_head s q c' Hc') in Hx'.
    destruct Hx as [->|Ha], Hx' as [->|Ha']; try done.
    + eapply connection_string_ne; [exact Hc| |done]. by eapply (wf_addr _ W q c' p).
    + eapply connection_string_ne; [exact Hc'| |done]. by eapply (wf_addr _ W p c q).
    + apply Hne. by eapply (wf_addr_inj _ W p q c c' x).
  - apply IH; [done|]. intros q Hq. apply Hsub. by right.
Qed.

(** ** Releases and the trace *)

Lemma freed_grow s s' l q : heap s' = heap s ++ l → freed s q → freed s' q.
Proof. unfold freed. intros -> H. by apply lookup_app_l_Some. Qed.

Lemma clean_grow s s' l evs :
  clean s → heap s' = heap s ++ l → trace s' = evs ++ trace s →
  (∀ e q, e ∈ evs → released_ptr e = Some q → freed s' q) →
  clean s'.
Proof.
  intros C Eh Et Hev e q He Hq. rewrite Et in He. apply elem_of_app in He as [He|He].
  - by eapply Hev.
  - eapply freed_grow; [done|]. by eapply C.
Qed.

Lemma clean_say e s : released_ptr e = None → clean s → clean (emit e s).
Proof.
  intros He C. apply (clean_grow s _ [] [e]); try done; simpl; rewrite ?app_nil_r; try done.
  intros e' q H. apply list_elem_of_singleton in H as ->. by rewrite He.
Qed.

Lemma clean_initial : clean initial_state.
Proof. intros e q H. by apply elem_of_nil in H. Qed.

Ltac in_list H :=
  repeat (let H' := fresh in
          apply elem_of_cons in H as [H'|H];
          [try discriminate H'; simplify_eq; try done|]);
  try (by apply elem_of_nil in H).

Lemma discovered_keeps_clean e adapter a name s :
  clean s → ∀ s', ble_discovered_device e adapter a name s = Ok tt s' → clean s'.
Proof.
  intros C s' E.
  destruct (decide (name = Some CONNECT_DEVICE_NAME)) as [->|Hn].
  2:{ destruct (discovered_rejected e adapter a name s Hn) as [ev E'].
      rewrite E' in E. injection E as <-. by apply clean_say. }
  destruct (calloc_ok e) eqn:Hc.
  2:{ rewrite discovered_no_memory in E by done. injection E as <-.
      by repeat apply clean_say. }
  destruct (decide (pthread_create_ret e = 0%Z)) as [Hr|Hr].
  2:{ rewrite discovered_no_thread in E by done. injection E as <-.
      eapply (clean_grow s _ _ [_;_;_;_;_;_;_;_]); [done|reflexivity|reflexivity|].
      intros ev q H Hq. in_list H; simpl in Hq; simplify_eq.
      unfold freed. simpl. by rewrite lookup_fresh. }
  rewrite discovered_accepted in E by done. injection E as <-.
  eapply (clean_grow s _ _ [_;_;_;_;_;_;_]); [done|reflexivity|reflexivity|].
  intros ev q H Hq. in_list H.
Qed.

Lemma deliver_keeps_clean adapter l s :
  clean s → ∀ s', deliver ble_discovered_device adapter l s = Ok tt s' → clean s'.
Proof.
  revert s. induction l as [|a l IH]; intros s C s' E; simpl in E.
  - unfold ret in E. by simplify_eq.
  - unfold bind in E.
    destruct (ble_discovered_device _ _ _ _ s) as [[] s1| | |] eqn:E1; try done.
    eapply IH; [|exact E]. eapply discovered_keeps_clean; eauto.
Qed.

(** A live block has never been released. *)
Lemma clean_live s q b e :
  clean s → heap s !! q = Some (Some b) → released_ptr e = Some q → times e (trace s) = 0.
Proof.
  intros C Hq He. apply times_zero. intros Hin.
  pose proof (C e q Hin He) as Hf. unfold freed in Hf. congruence.
Qed.

(** ** [ble_task], path by path *)

Lemma ble_task_open_failed e s :
  adapter_open_ret e ≠ 0%Z →
  ble_task e s
  = Ok tt (emit (Log ErrOpenAdapter) (emit (AdapterOpen (adapter_name s) (adapter_open_ret e)) s)).
Proof.
  intros H. unfold ble_task, bind, get, say, modify. apply Z.eqb_neq in H. by rewrite H.
Qed.

Lemma ble_task_scanned e s s0 :
  adapter_open_ret e = 0%Z → g_mutex s = MutexFree →
  deliver ble_discovered_device (adapter_handle e) (scan_found e) (scanning e s) = Ok tt s0 →
  g_mutex s0 = MutexHeld Task →
  ble_task e s
  = if negb (scan_ret e =? 0)%Z
    then Ok tt (emit (AdapterClose (adapter_handle e))
                  (emit (Log ErrScan)
                     (emit (ScanEnable (adapter_handle e) BLE_SCAN_TIMEOUT (scan_ret e)) s0)))
    else
      match drain (length (g_ble_connections s0)) (join_returns e)
              (scan_completed e
                 (emit (ScanEnable (adapter_handle e) BLE_SCAN_TIMEOUT (scan_ret e)) s0)) with
      | Ok _ s3 => Ok tt (emit (AdapterClose (adapter_handle e)) s3)
      | Hang s3 => Hang s3
      | Fault s3 => Fault s3
      | OutOfFuel => OutOfFuel
      end.
Proof.
  intros Ho Hg Hd Hg1. unfold scanning in Hd.
  unfold ble_task, gattlib_adapter_scan_enable, pthread_mutex_lock_global,
    pthread_mutex_unlock_global, bind, get, say, modify, ret.
  rewrite Ho. cbn -[drain deliver]. rewrite Hg. cbn -[drain deliver].
  rewrite Hd. cbn -[drain deliver].
  destruct (negb (scan_ret e =? 0)%Z); [done|].
  cbn -[drain deliver]. rewrite Hg1. rewrite decide_True by done.
  unfold scan_completed. cbn -[drain deliver].
  by destruct (drain _ _ _).
Qed.

Lemma release_logs_removed s l :
  (∀ p, p ∈ l → is_Some (connection_at s p)) →
  removed (concat (map (release_log s) l)) = l
  ∧ inserted (concat (map (release_log s) l)) = [].
Proof.
  induction l as [|p l IH]; intros H; simpl; [done|].
  destruct IH as [IH1 IH2]. { intros q Hq. apply H. by right. }
  destruct (H p) as [c Hc]; [left|].
  rewrite removed_app, inserted_app, IH1, IH2.
  unfold release_log. rewrite Hc. by destruct (thread c), (addr c).
Qed.

Lemma scan_completed_wf e s r :
  registry_wf s → registry_wf (scan_completed e (emit (ScanEnable (adapter_handle e) BLE_SCAN_TIMEOUT r) s)).
Proof.
  intros W. apply (registry_wf_grow s _ [] []); try done; simpl; by rewrite ?app_nil_r.
Qed.

(** The scan of [ble_task], started from the initial state. *)
Lemma scan_from_initial e :
  ∃ s0, deliver ble_discovered_device (adapter_handle e) (scan_found e)
          (scanning e initial_state) = Ok tt s0
        ∧ registry_wf s0 ∧ unlocked s0 ∧ clean s0 ∧ registry_order s0
        ∧ g_mutex s0 = MutexHeld Task ∧ adapter_name s0 = None
        ∧ removed (history s0) = []
        ∧ (∀ a t r, ScanEnable a t r ∉ trace s0).
Proof.
  assert (registry_wf (scanning e initial_state)) as W.
  { unfold scanning. apply (registry_wf_grow initial_state _ [] []); try done.
    apply registry_wf_initial. }
  assert (unlocked (scanning e initial_state)) as U.
  { intros p c Hp. by apply elem_of_nil in Hp. }
  destruct (deliver_keeps_registry (adapter_handle e) (scan_found e) _ W U)
    as (s0 & E & W0 & U0 & G0 & N0 & R0 & O0 & S0).
  exists s0. split_and!; try done.
  - eapply deliver_keeps_clean; [|done].
    unfold scanning. apply clean_say; [done|].
    apply (clean_grow (emit (AdapterOpen None 0) initial_state) _ [] []); try done.
    + by apply clean_say, clean_initial.
    + intros ? ? H. by apply elem_of_nil in H.
  - by apply O0.
  - intros a t r H. apply S0 in H. simpl in H. in_list H.
Qed.

Lemma nodup_count (l : list nat) q : NoDup l → q ∈ l → count_occ Nat.eq_dec l q = 1.
Proof.
  intros Hn Hq. apply NoDup_ListNoDup in Hn. apply list_elem_of_In in Hq.
  pose proof (proj1 (NoDup_count_occ Nat.eq_dec l) Hn q).
  apply (count_occ_In Nat.eq_dec) in Hq. lia.
Qed.

(** ** The discovery callback: C7, C5 *)

(** C7 as stated fails: an advertisement whose name equals the target name
    creates no record and no thread when [calloc] fails. *)
Lemma matching_name_without_record :
  ∃ s', ble_discovered_device no_memory 7 "AA:BB:CC:DD:EE:01" (Some CONNECT_DEVICE_NAME)
          initial_state = Ok tt s'
        ∧ g_ble_connections s' = [] ∧ workers s' = [] ∧ heap s' = [].
Proof. eexists. split; [vm_compute; reflexivity|done]. Qed.

(** C7, amended: [ble_discovered_device] always returns; it leaves a new
    record in the registry and a new worker thread exactly when the
    advertisement carries a name equal to [CONNECT_DEVICE_NAME] and both
    [calloc] and [pthread_create] succeed.  Then exactly one record is added to
    the heap and it is the head of the registry when the callback returns.
    Without a name or with another name the heap, the registry and the threads
    are unchanged. *)
Theorem record_created_iff e adapter a name s :
  ∃ s', ble_discovered_device e adapter a name s = Ok tt s'
    ∧ let p := length (heap s) in
      if bool_decide (name = Some CONNECT_DEVICE_NAME)
      then
        if calloc_ok e && (pthread_create_ret e =? 0)%Z
        then g_ble_connections s' = p :: g_ble_connections s
             ∧ workers s' = workers s ++ [mk_worker p W110 CbNone]
             ∧ heap s' = heap s
                 ++ Some (BConnection (accepted_connection adapter (length (workers s))
                                         (strdup_ptr (strdup_ok e) (S p))))
                 :: strdup_block (strdup_ok e) a
        else g_ble_connections s' = g_ble_connections s
             ∧ workers s' = workers s
             ∧ ∀ q c, connection_at s' q = Some c → connection_at s q = Some c
      else g_ble_connections s' = g_ble_connections s
           ∧ workers s' = workers s
           ∧ heap s' = heap s.
Proof.
  case_bool_decide as Hn.
  2:{ destruct (discovered_rejected e adapter a name s Hn) as [ev ->]. by eexists. }
  subst name. destruct (calloc_ok e) eqn:Hc.
  2:{ rewrite discovered_no_memory by done. by eexists. }
  destruct (decide (pthread_create_ret e = 0%Z)) as [Hr|Hr].
  - rewrite discovered_accepted by done. eexists. split; [done|].
    apply Z.eqb_eq in Hr. by rewrite Hr.
  - rewrite discovered_no_thread by done. eexists. split; [done|].
    apply Z.eqb_neq in Hr. rewrite Hr. simpl. split_and!; try done.
    intros q c. unfold connection_at. simpl.
    destruct (decide (q < length (heap s))) as [Hlt|Hge].
    + by rewrite lookup_app_l.
    + rewrite lookup_app_r by lia.
      destruct (q - length (heap s)) as [|[|n]]; simpl; try done;
        destruct (strdup_ok e); simpl; try done.
Qed.

(** When [pthread_create] fails the callback frees the record and never the
    address string: for every state, the block [strdup] returned is still
    allocated when the callback returns, and no pointer to it is left. *)
Lemma thread_failure_leaks e adapter a s :
  calloc_ok e = true → strdup_ok e = true → pthread_create_ret e ≠ 0%Z →
  ∃ s', ble_discovered_device e adapter a (Some CONNECT_DEVICE_NAME) s = Ok tt s'
        ∧ freed s' (length (heap s))
        ∧ string_at s' (S (length (heap s))) = Some a
        ∧ g_ble_connections s' = g_ble_connections s.
Proof.
  intros Hc Hs Hr. rewrite discovered_no_thread by done. eexists. split; [done|].
  rewrite Hs. unfold freed, string_at. simpl. split_and!; try done.
  - by rewrite lookup_fresh.
  - rewrite (lookup_app_r (heap s)) by lia.
    by replace (S (length (heap s)) - length (heap s)) with 1 by lia.
Qed.

(** C5 fails on the code: a device named "Local" is found, [calloc] and
    [strdup] succeed and [pthread_create] returns EAGAIN.  The callback logs
    the error, frees the record (block 0) and returns; the copied address
    (block 1) is never freed, neither by the callback nor by the rest of
    [ble_task], and the record's mutex and condition are never destroyed. *)
Theorem thread_failure_leaks_address :
  ∃ s' s'',
    ble_discovered_device no_thread 7 "AA:BB:CC:DD:EE:01" (Some CONNECT_DEVICE_NAME)
      initial_state = Ok tt s'
    ∧ heap s' = [None; Some (BString "AA:BB:CC:DD:EE:01")]
    ∧ g_ble_connections s' = []
    ∧ Log ErrCreateThread ∈ trace s'
    ∧ ble_task thread_fails initial_state = Ok tt s''
    ∧ heap s'' = [None; Some (BString "AA:BB:CC:DD:EE:01")]
    ∧ times (Free 1) (trace s'') = 0
    ∧ times (MutexDestroy 0) (trace s'') = 0
    ∧ times (CondDestroy 0) (trace s'') = 0.
Proof.
  eexists _, _. split; [vm_compute; reflexivity|].
  split; [reflexivity|]. split; [reflexivity|].
  split. { simpl. right. left. }
  split; [vm_compute; reflexivity|]. by vm_compute.
Qed.

(** ** [ble_task] and [main]: C3, C4, C9 *)

(** C3 as stated fails: opening the adapter fails with status 1, the mainloop
    call returns 0, and the process exits with 0. *)
Lemma open_failure_exit_code_zero :
  adapter_open_ret (task_env_of open_fails) = 1%Z
  ∧ exit_code (main open_fails ["ble_scan"] initial_state) = Some 0%Z.
Proof. split; vm_compute; reflexivity. Qed.

Lemma main_open_failed e argv :
  adapter_open_ret (task_env_of e) ≠ 0%Z →
  length argv = 1 ∨ length argv = 2 →
  ∃ n, main e argv initial_state
       = Ok (mainloop_ret e)
           (mk_state n MutexFree [] [] []
              ((if (mainloop_ret e =? GATTLIB_SUCCESS)%Z then [] else [Log ErrMainloop])
               ++ [Log ErrOpenAdapter;
                   AdapterOpen n (adapter_open_ret (task_env_of e))])).
Proof.
  intros Ho Hargc.
  assert (∃ n, main e argv initial_state
               = (let* _ := modify (with_adapter_name n) in
                  let* _ := modify (with_connections []) in
                  let* r := gattlib_mainloop (mainloop_ret e) (ble_task (task_env_of e)) in
                  let* _ := (if negb (r =? GATTLIB_SUCCESS)%Z
                             then say (Log ErrMainloop) else ret tt) in
                  ret r) initial_state) as [n Hm].
  { unfold main. destruct Hargc as [-> | ->]; simpl; by eexists. }
  exists n. rewrite Hm. unfold gattlib_mainloop, bind, modify.
  rewrite ble_task_open_failed by done. unfold say, modify, ret.
  by destruct (mainloop_ret e =? GATTLIB_SUCCESS)%Z.
Qed.

(** C3, amended: when opening the adapter fails, [ble_task] logs the failure
    and returns at once: from any state, the call of
    [gattlib_adapter_open] and the log line are all it does.  So no scan is
    started, no record and no worker thread exist, [g_mutex] is untouched;
    [main] returns, having done nothing else but log a non-zero mainloop
    status, and the exit code is the status returned by the mainloop call,
    whatever it is. *)
Theorem adapter_open_failure e argv :
  adapter_open_ret (task_env_of e) ≠ 0%Z →
  length argv = 1 ∨ length argv = 2 →
  (∀ s, ble_task (task_env_of e) s
        = Ok tt (emit (Log ErrOpenAdapter)
                   (emit (AdapterOpen (adapter_name s) (adapter_open_ret (task_env_of e))) s)))
  ∧ ∃ s', main e argv initial_state = Ok (mainloop_ret e) s'
        ∧ exit_code (main e argv initial_state) = Some (mainloop_ret e)
        ∧ Log ErrOpenAdapter ∈ trace s'
        ∧ Forall (λ ev, is_scan ev = false) (trace s')
        ∧ workers s' = [] ∧ g_ble_connections s' = [] ∧ heap s' = []
        ∧ g_mutex s' = MutexFree
        ∧ trace s'
          = (if (mainloop_ret e =? GATTLIB_SUCCESS)%Z then [] else [Log ErrMainloop])
            ++ [Log ErrOpenAdapter;
                AdapterOpen (adapter_name s') (adapter_open_ret (task_env_of e))].
Proof.
  intros Ho Hargc. split; [intros s; by apply ble_task_open_failed|].
  destruct (main_open_failed e argv Ho Hargc) as (n & Hm).
  eexists. rewrite Hm. split; [done|]. simpl. split_and!; try done.
  - apply elem_of_app. right. left.
  - apply Forall_app. split; [|by repeat constructor].
    destruct (mainloop_ret e =? GATTLIB_SUCCESS)%Z; by repeat constructor.
Qed.

Lemma adapter_open_failure_witness :
  (∀ s, ble_task (task_env_of open_fails) s
        = Ok tt (emit (Log ErrOpenAdapter)
                   (emit (AdapterOpen (adapter_name s)
                            (adapter_open_ret (task_env_of open_fails))) s)))
  ∧ ∃ s', main open_fails ["ble_scan"] initial_state = Ok 0%Z s'
        ∧ exit_code (main open_fails ["ble_scan"] initial_state) = Some 0%Z
        ∧ Log ErrOpenAdapter ∈ trace s'
        ∧ Forall (λ ev, is_scan ev = false) (trace s')
        ∧ workers s' = [] ∧ g_ble_connections s' = [] ∧ heap s' = []
        ∧ g_mutex s' = MutexFree
        ∧ trace s'
          = (if (mainloop_ret open_fails =? GATTLIB_SUCCESS)%Z then [] else [Log ErrMainloop])
            ++ [Log ErrOpenAdapter;
                AdapterOpen (adapter_name s') (adapter_open_ret (task_env_of open_fails))].
Proof.
  apply (adapter_open_failure open_fails ["ble_scan"]).
  - simpl. lia.
  - left. reflexivity.
Defined.

(** When the scan call fails, [ble_task] returns with [g_mutex] still locked
    by the controller, whatever was found before the failure. *)
Lemma scan_failure_keeps_lock e :
  adapter_open_ret e = 0%Z → scan_ret e ≠ 0%Z →
  ∃ s', ble_task e initial_state = Ok tt s'
        ∧ g_mutex s' = MutexHeld Task
        ∧ head (trace s') = Some (AdapterClose (adapter_handle e)).
Proof.
  intros Ho Hs. destruct (scan_from_initial e) as (s0 & E & _ & _ & _ & _ & G0 & _).
  rewrite (ble_task_scanned e initial_state s0 Ho eq_refl E G0).
  apply Z.eqb_neq in Hs. rewrite Hs. eexists. by split_and!.
Qed.

(** C4 fails on the code: the adapter opens and the scan call returns a
    non-zero status.  [ble_task] jumps to EXIT, closes the adapter and
    returns; [g_mutex] was locked before the scan and is never unlocked. *)
Theorem scan_failure_leaves_lock_held :
  ∃ s', ble_task scan_fails initial_state = Ok tt s'
        ∧ history s' = [AdapterOpen None 0; LockGlobal Task; ScanEnable 7 10 1;
                        Log ErrScan; AdapterClose 7]
        ∧ g_mutex s' = MutexHeld Task.
Proof. eexists. split; [vm_compute; reflexivity|]. by split. Qed.

(** The drain loop of [ble_task], from the state in which the scan returned. *)
Lemma ble_task_drains e :
  adapter_open_ret e = 0%Z → scan_ret e = 0%Z →
  ∃ s0, deliver ble_discovered_device (adapter_handle e) (scan_found e)
          (scanning e initial_state) = Ok tt s0
    ∧ let s1 := scan_completed e
                  (emit (ScanEnable (adapter_handle e) BLE_SCAN_TIMEOUT 0) s0) in
      registry_wf s1 ∧ clean s1
      ∧ g_ble_connections s1 = rev (inserted (history s1))
      ∧ removed (history s1) = []
      ∧ match ble_task e initial_state with
        | Ok _ s' =>
            g_ble_connections s' = []
            ∧ g_mutex s' = MutexFree
            ∧ trace s' = AdapterClose (adapter_handle e)
                         :: rev (concat (map (release_log s1) (g_ble_connections s1)))
                         ++ trace s1
            ∧ (∀ q, q ∈ concat (map (blocks_of s1) (g_ble_connections s1)) → freed s' q)
        | Hang _ => ∃ t, join_returns e t = false
        | _ => False
        end.
Proof.
  intros Ho Hs. destruct (scan_from_initial e) as (s0 & E & W0 & U0 & C0 & O0 & G0 & _ & R0 & _).
  exists s0. split; [done|]. intros s1.
  rewrite (ble_task_scanned e initial_state s0 Ho eq_refl E G0). rewrite Hs.
  change (negb (0 =? 0)%Z) with false. cbv iota.
  change (scan_completed e (emit (ScanEnable (adapter_handle e) BLE_SCAN_TIMEOUT 0) s0))
    with s1.
  change (g_ble_connections s0) with (g_ble_connections s1).
  assert (registry_wf s1) as W1 by by apply scan_completed_wf.
  assert (unlocked s1) as U1 by done.
  assert (clean s1) as C1 by (unfold s1, scan_completed; by repeat apply clean_say).
  assert (removed (history s1) = []) as R1.
  { unfold s1, scan_completed, history in *. simpl. rewrite !removed_app, R0. done. }
  assert (g_ble_connections s1 = rev (inserted (history s1))) as O1.
  { unfold registry_order in O0. rewrite R0 in O0. simpl in O0.
    unfold s1, scan_completed, history in *. simpl. rewrite !inserted_app. simpl.
    by rewrite !app_nil_r. }
  split_and!; try done.
  pose proof (drain_spec (join_returns e) (length (g_ble_connections s1)) s1 W1 U1
                ltac:(done)) as D.
  destruct (drain (length (g_ble_connections s1)) (join_returns e) s1) as [u s3|s3|s3|];
    try done.
  destruct D as (R3 & T3 & _ & G3 & _ & F3 & _).
  split_and!; try done. simpl. by rewrite T3.
Qed.


Lemma two_devices_returns : ble_task two_devices initial_state = Ok tt two_devices_final.
Proof. vm_compute. reflexivity. Qed.


(** * The interleaving semantics *)

(** ** Inversion of the operations *)

Lemma bind_inv {A B} (m : M A) (k : A → M B) s b s' :
  bind m k s = Ok b s' → ∃ a s1, m s = Ok a s1 ∧ k a s1 = Ok b s'.
Proof. unfold bind. destruct (m s) as [a s1| | |]; try done. by exists a, s1. Qed.

Lemma say_inv e s u s' : say e s = Ok u s' → s' = emit e s.
Proof. by intros [= <-]. Qed.

Lemma ret_inv {A} (a b : A) s s' : ret a s = Ok b s' → b = a ∧ s' = s.
Proof. by intros [= <- <-]. Qed.

Lemma set_worker_inv t w s u s' :
  set_worker t w s = Ok u s' → s' = with_workers (<[t := w]> (workers s)) s.
Proof. by intros [= <-]. Qed.

Lemma lock_global_inv o s u s' :
  pthread_mutex_lock_global o s = Ok u s' →
  g_mutex s = MutexFree ∧ s' = emit (LockGlobal o) (with_g_mutex (MutexHeld o) s).
Proof.
  unfold pthread_mutex_lock_global, bind, get, modify, hang, fault.
  destruct (g_mutex s); try done. by intros [= <-].
Qed.

Lemma unlock_global_inv o s u s' :
  pthread_mutex_unlock_global o s = Ok u s' →
  g_mutex s = MutexHeld o ∧ s' = emit (UnlockGlobal o) (with_g_mutex MutexFree s).
Proof.
  unfold pthread_mutex_unlock_global, bind, get, modify, fault.
  case_decide; try done. by intros [= <-].
Qed.

Lemma lock_done_inv p o s u s' :
  pthread_mutex_lock_done p o s = Ok u s' →
  ∃ c, connection_at s p = Some c ∧ done_mutex c = MutexFree
       ∧ s' = emit (LockDone p o) (put_connection p (set_done_mutex (MutexHeld o) c) s).
Proof.
  unfold pthread_mutex_lock_done. intros H.
  apply bind_inv in H as (c & s1 & H1 & H).
  apply load_connection_inv in H1 as [Hc ->]. exists c.
  destruct (done_mutex c) eqn:Hm; try done.
  apply bind_inv in H as ([] & s2 & H2 & H).
  apply store_connection_inv in H2 as (c' & Hc' & ->). apply say_inv in H as ->.
  by simplify_eq.
Qed.

Lemma unlock_done_inv p o s u s' :
  pthread_mutex_unlock_done p o s = Ok u s' →
  ∃ c, connection_at s p = Some c ∧ done_mutex c = MutexHeld o
       ∧ s' = emit (UnlockDone p o) (put_connection p (set_done_mutex MutexFree c) s).
Proof.
  unfold pthread_mutex_unlock_done. intros H.
  apply bind_inv in H as (c & s1 & H1 & H).
  apply load_connection_inv in H1 as [Hc ->]. exists c.
  case_decide as Hm; try done.
  apply bind_inv in H as ([] & s2 & H2 & H).
  apply store_connection_inv in H2 as (c' & Hc' & ->). apply say_inv in H as ->.
  by simplify_eq.
Qed.

Lemma cond_signal_inv p o s u s' :
  pthread_cond_signal p o s = Ok u s' →
  ∃ c, connection_at s p = Some c ∧ done_cond c = CondReady
       ∧ s' = emit (CondSignal p o) (with_workers (wake_on p <$> workers s) s).
Proof.
  unfold pthread_cond_signal. intros H.
  apply bind_inv in H as (c & s1 & H1 & H).
  apply load_connection_inv in H1 as [Hc ->]. exists c.
  destruct (done_cond c); try done.
  apply bind_inv in H as ([] & s2 & H2 & H). injection H2 as <-.
  by apply say_inv in H as ->.
Qed.

Lemma printf_s_inv m a s u s' :
  printf_s m a s = Ok u s' → is_Some a ∧ s' = emit (Printf (m a)) s.
Proof. destruct a; [|done]. intros H. apply say_inv in H as ->. by split. Qed.

Lemma log_s_inv m a s u s' :
  log_s m a s = Ok u s' → is_Some a ∧ s' = emit (Log (m a)) s.
Proof. destruct a; [|done]. intros H. apply say_inv in H as ->. by split. Qed.

(** ** The operations of a worker and of its callback, as updates *)

Lemma wake_on_own w : w_pc (wake_on (w_arg w) w) = woken (w_pc w).
Proof.
  unfold wake_on, woken. case_decide as H.
  - destruct H as [_ ->]. done.
  - destruct (w_pc w); try done. naive_solver.
Qed.

Lemma wake_on_arg p w : w_arg (wake_on p w) = w_arg w.
Proof. unfold wake_on. by case_decide. Qed.

Lemma state_eta s :
  s = mk_state (adapter_name s) (g_mutex s) (g_ble_connections s) (heap s) (workers s)
        (trace s).
Proof. by destruct s. Qed.

Lemma worker_step_inv e t s s' :
  ble_connect_device e t s = Ok tt s' →
  ∃ w, workers s !! t = Some w ∧
    let p := w_arg w in
    match w_pc w with
    | W110 =>
        ∃ c, connection_at s p = Some c ∧ g_mutex s = MutexFree
        ∧ s' = update (MutexHeld (Worker t)) None t (goes w W113)
                 [Printf (MsgStart (addr c)); LockGlobal (Worker t)] s
        ∧ is_Some (addr c)
    | W113 =>
        ∃ c, connection_at s p = Some c
        ∧ s' = update (g_mutex s) None t
                 (mk_worker p W119 (if connect_calls_back e then CbPending else CbNone))
                 (connect_log e c p) s
    | W119 | W121r =>
        ∃ c, connection_at s p = Some c ∧ done_mutex c = MutexFree
        ∧ s' = update (g_mutex s) (Some (p, set_done_mutex (MutexHeld (Worker t)) c)) t
                 (goes w W120) [LockDone p (Worker t)] s
    | W120 =>
        ∃ c, connection_at s p = Some c
        ∧ s' = update (g_mutex s) None t (goes w (if is_done c then W123 else W121)) [] s
    | W121 =>
        ∃ c, connection_at s p = Some c ∧ done_mutex c = MutexHeld (Worker t)
        ∧ s' = update (g_mutex s) (Some (p, set_done_mutex MutexFree c)) t
                 (goes w W121s) [CondWait p (Worker t); UnlockDone p (Worker t)] s
    | W121s =>
        spurious_wakeup e = true
        ∧ s' = update (g_mutex s) None t (goes w W121r) [] s
    | W123 =>
        ∃ c, connection_at s p = Some c ∧ done_mutex c = MutexHeld (Worker t)
        ∧ s' = update (g_mutex s) (Some (p, set_done_mutex MutexFree c)) t
                 (goes w W126) [Printf (MsgDone (addr c)); UnlockDone p (Worker t)] s
    | W126 =>
        g_mutex s = MutexHeld (Worker t)
        ∧ s' = update MutexFree None t (goes w W127) [UnlockGlobal (Worker t)] s
    | W127 => False
    end.
Proof.
  unfold ble_connect_device. intros H.
  apply bind_inv in H as (s0 & s1 & H0 & H). injection H0 as <- <-.
  destruct (workers s !! t) as [w|] eqn:Hw; [|done]. exists w. split; [done|].
  destruct (w_pc w) eqn:Hpc; cbv zeta.
  - apply bind_inv in H as (c & s1 & H1 & H). apply load_connection_inv in H1 as [Hc ->].
    apply bind_inv in H as ([] & s2 & H2 & H). apply lock_global_inv in H2 as [Hg ->].
    apply bind_inv in H as ([] & s3 & H3 & H). apply printf_s_inv in H3 as [Ha ->].
    apply set_worker_inv in H as ->. exists c. by split_and!.
  - apply bind_inv in H as (c & s1 & H1 & H). apply load_connection_inv in H1 as [Hc ->].
    apply bind_inv in H as ([] & s2 & H2 & H). apply say_inv in H2 as ->.
    apply bind_inv in H as ([] & s3 & H3 & H). apply set_worker_inv in H as ->.
    exists c. split; [done|]. unfold connect_log. destruct (negb _).
    + by apply log_s_inv in H3 as [_ ->].
    + by apply ret_inv in H3 as [_ ->].
  - apply bind_inv in H as ([] & s1 & H1 & H). apply lock_done_inv in H1 as (c & Hc & Hm & ->).
    apply set_worker_inv in H as ->. exists c. by split_and!.
  - apply bind_inv in H as (c & s1 & H1 & H). apply load_connection_inv in H1 as [Hc ->].
    apply set_worker_inv in H as ->. exists c. by split_and!.
  - apply bind_inv in H as ([] & s1 & H1 & H). unfold pthread_cond_wait in H1.
    apply bind_inv in H1 as (c0 & s0 & H0 & H1). apply load_connection_inv in H0 as [Hc0 ->].
    destruct (done_cond c0) eqn:Hd; try done.
    apply bind_inv in H1 as ([] & s2 & H2 & H1).
    apply unlock_done_inv in H2 as (c & Hc & Hm & ->). apply say_inv in H1 as ->.
    assert (c0 = c) as -> by congruence.
    apply set_worker_inv in H as ->. exists c. by split_and!.
  - destruct (spurious_wakeup e); [|done]. apply set_worker_inv in H as ->. by split.
  - apply bind_inv in H as ([] & s1 & H1 & H). apply lock_done_inv in H1 as (c & Hc & Hm & ->).
    apply set_worker_inv in H as ->. exists c. by split_and!.
  - apply bind_inv in H as (c & s1 & H1 & H). apply load_connection_inv in H1 as [Hc ->].
    apply bind_inv in H as ([] & s1 & H1 & H).
    apply unlock_done_inv in H1 as (c' & Hc' & Hm & ->).
    apply bind_inv in H as ([] & s2 & H2 & H). apply printf_s_inv in H2 as [_ ->].
    apply set_worker_inv in H as ->. simplify_eq. exists c. by split_and!.
  - apply bind_inv in H as ([] & s1 & H1 & H). apply unlock_global_inv in H1 as [Hg ->].
    apply set_worker_inv in H as ->. by split_and!.
  - done.
Qed.

Lemma callback_step_inv e adapter dst conn error t s s' :
  on_device_connect_step e adapter dst conn error t s = Ok tt s' →
  ∃ w, workers s !! t = Some w ∧
    let p := w_arg w in
    match w_cb w with
    | CbNone | C102 => False
    | CbPending =>
        s' = update (g_mutex s) None t (calls w C98)
               (rev (discover_log e conn ++ disconnect_log e conn p)) s
    | C98 =>
        ∃ c, connection_at s p = Some c ∧ done_mutex c = MutexFree
        ∧ s' = update (g_mutex s) (Some (p, set_done_mutex (MutexHeld (Callback t)) c)) t
                 (calls w C99) [LockDone p (Callback t)] s
    | C99 =>
        ∃ c, connection_at s p = Some c
        ∧ s' = update (g_mutex s) (Some (p, set_is_done true c)) t
                 (calls w C100) [SetDone p (Callback t)] s
    | C100 =>
        ∃ c, connection_at s p = Some c ∧ done_cond c = CondReady
        ∧ s' = signalled t w s
    | C101 =>
        ∃ c, connection_at s p = Some c ∧ done_mutex c = MutexHeld (Callback t)
        ∧ s' = update (g_mutex s) (Some (p, set_done_mutex MutexFree c)) t
                 (calls w C102) [UnlockDone p (Callback t)] s
    end.
Proof.
  unfold on_device_connect_step. intros H.
  apply bind_inv in H as (s0 & s1 & H0 & H). injection H0 as <- <-.
  destruct (workers s !! t) as [w|] eqn:Hw; [|done]. exists w. split; [done|].
  destruct (w_cb w) eqn:Hcb; cbv zeta; try done.
  - apply bind_inv in H as ([] & s1 & H1 & H). rewrite gatt_session_log in H1.
    injection H1 as <-. apply set_worker_inv in H as ->. done.
  - apply bind_inv in H as ([] & s1 & H1 & H). apply lock_done_inv in H1 as (c & Hc & Hm & ->).
    apply set_worker_inv in H as ->. exists c. by split_and!.
  - apply bind_inv in H as ([] & s1 & H1 & H). unfold signal_set in H1.
    apply bind_inv in H1 as ([] & s2 & H2 & H1).
    apply store_connection_inv in H2 as (c & Hc & ->). apply say_inv in H1 as ->.
    apply set_worker_inv in H as ->. exists c. by split_and!.
  - apply bind_inv in H as ([] & s1 & H1 & H).
    apply cond_signal_inv in H1 as (c & Hc & Hd & ->).
    apply bind_inv in H as (s2 & s3 & H2 & H). injection H2 as <- <-.
    cbn [workers emit with_workers] in H. rewrite list_lookup_fmap, Hw in H.
    cbn [fmap option_fmap option_map] in H.
    apply set_worker_inv in H as ->. exists c. split_and!; [done..|].
    unfold signalled. cbn. by rewrite wake_on_own.
  - apply bind_inv in H as ([] & s1 & H1 & H).
    apply unlock_done_inv in H1 as (c & Hc & Hm & ->).
    apply set_worker_inv in H as ->. exists c. by split_and!.
Qed.

(** Only the worker of a record sleeps on its condition. *)
Lemma signalled_update t w s :
  state_inv s → workers s !! t = Some w →
  signalled t w s
  = update (g_mutex s) None t (mk_worker (w_arg w) (woken (w_pc w)) C101)
      [CondSignal (w_arg w) (Callback t)] s.
Proof.
  intros Hinv Hw. unfold signalled, update. f_equal. apply list_eq. intros i.
  destruct (decide (i = t)) as [->|Hne].
  - rewrite !list_lookup_insert_eq; [done| |].
    + by eapply lookup_lt_Some.
    + rewrite length_fmap. by eapply lookup_lt_Some.
  - rewrite !list_lookup_insert_ne by done. rewrite list_lookup_fmap.
    destruct (workers s !! i) as [w2|] eqn:Hw2; [|done]. simpl. f_equal.
    unfold wake_on. case_decide as Hd; [|done]. destruct Hd as [Ha _].
    destruct Hne. by apply (inv_inj _ Hinv i t w2 w).
Qed.

(** The operations of a callback as updates of its worker's entry, in a
    state that satisfies the invariant. *)
Lemma callback_step_upd e adapter dst conn error t s s' :
  state_inv s →
  on_device_connect_step e adapter dst conn error t s = Ok tt s' →
  ∃ w, workers s !! t = Some w ∧
    let p := w_arg w in
    match w_cb w with
    | CbNone | C102 => False
    | CbPending =>
        s' = update (g_mutex s) None t (calls w C98)
               (rev (discover_log e conn ++ disconnect_log e conn p)) s
    | C98 =>
        ∃ c, connection_at s p = Some c ∧ done_mutex c = MutexFree
        ∧ s' = update (g_mutex s) (Some (p, set_done_mutex (MutexHeld (Callback t)) c)) t
                 (calls w C99) [LockDone p (Callback t)] s
    | C99 =>
        ∃ c, connection_at s p = Some c
        ∧ s' = update (g_mutex s) (Some (p, set_is_done true c)) t
                 (calls w C100) [SetDone p (Callback t)] s
    | C100 =>
        ∃ c, connection_at s p = Some c ∧ done_cond c = CondReady
        ∧ s' = update (g_mutex s) None t (mk_worker p (woken (w_pc w)) C101)
                 [CondSignal p (Callback t)] s
    | C101 =>
        ∃ c, connection_at s p = Some c ∧ done_mutex c = MutexHeld (Callback t)
        ∧ s' = update (g_mutex s) (Some (p, set_done_mutex MutexFree c)) t
                 (calls w C102) [UnlockDone p (Callback t)] s
    end.
Proof.
  intros Hinv H. apply callback_step_inv in H as (w & Hw & H). exists w. split; [done|].
  destruct (w_cb w); try done. cbv zeta in *.
  destruct H as (c & Hc & Hd & ->). exists c. split_and!; try done.
  by apply signalled_update.
Qed.

(** ** Preservation of the invariant *)

Lemma times_plain e l :
  Forall (λ ev, ev ≠ e) l → times e l = 0.
Proof.
  intros H. apply times_zero. intros Hin. rewrite Forall_forall in H. by apply (H e).
Qed.

Section update.
Context (s : state) (g : pthread_mutex_t) (r : option (ptr * connection_t))
        (t : pthread_t) (w w' : worker) (l : list event).
Hypothesis Hinv : state_inv s.
Hypothesis Hw : workers s !! t = Some w.
Hypothesis Harg : w_arg w' = w_arg w.
Hypothesis Hr :
  match r with
  | None => True
  | Some (p, c') => p = w_arg w ∧ ∃ c, connection_at s p = Some c ∧ same_shape c' c
  end.
Hypothesis Hg :
  g = g_mutex s
  ∨ (g_mutex s = MutexFree ∧ g = MutexHeld (Worker t))
  ∨ (g_mutex s = MutexHeld (Worker t) ∧ g = MutexFree).
Hypothesis Hl : Forall (λ ev, own_event t (w_arg w) ev = true) l.

Local Abbreviation s' := (update g r t w' l s).

Lemma update_length : length (heap s') = length (heap s).
Proof. unfold update. simpl. destruct r as [[p c]|]; by rewrite ?length_insert. Qed.

Lemma update_workers_eq : workers s' !! t = Some w'.
Proof.
  unfold update. simpl. apply list_lookup_insert_eq.
  apply lookup_lt_is_Some. by eexists.
Qed.

Lemma update_workers_ne t2 : t2 ≠ t → workers s' !! t2 = workers s !! t2.
Proof. intros H. unfold update. simpl. by rewrite list_lookup_insert_ne. Qed.

(** Threads keep their records. *)
Lemma update_workers_fwd t2 w2 :
  workers s !! t2 = Some w2 → ∃ w2', workers s' !! t2 = Some w2' ∧ w_arg w2' = w_arg w2.
Proof.
  intros H. destruct (decide (t2 = t)) as [->|Hne].
  - exists w'. split; [apply update_workers_eq | congruence].
  - exists w2. by rewrite update_workers_ne.
Qed.

Lemma update_workers_bwd t2 w2' :
  workers s' !! t2 = Some w2' → ∃ w2, workers s !! t2 = Some w2 ∧ w_arg w2' = w_arg w2.
Proof.
  intros H. destruct (decide (t2 = t)) as [->|Hne].
  - rewrite update_workers_eq in H. injection H as <-. by exists w.
  - rewrite update_workers_ne in H by done. by exists w2'.
Qed.

Lemma update_connection_other q : q ≠ w_arg w → connection_at s' q = connection_at s q.
Proof.
  intros Hq. unfold update, connection_at. simpl.
  destruct r as [[p c]|]; [|done]. destruct Hr as [-> _].
  by rewrite list_lookup_insert_ne.
Qed.

Lemma update_connection_fwd q c :
  connection_at s q = Some c → ∃ c', connection_at s' q = Some c' ∧ same_shape c' c.
Proof.
  intros Hc. destruct r as [[p c1]|] eqn:Er.
  - destruct Hr as (-> & c0 & Hc0 & Hsh).
    destruct (decide (q = w_arg w)) as [->|Hne].
    + exists c1. split; [|congruence].
      unfold update, connection_at. simpl. rewrite list_lookup_insert_eq; [done|].
      by eapply connection_at_lt.
    + exists c. split; [|done]. rewrite <- Hc. unfold update, connection_at. simpl.
      by rewrite list_lookup_insert_ne.
  - exists c. split; [|done]. by rewrite <- Hc.
Qed.

Lemma update_connection_bwd q c' :
  connection_at s' q = Some c' → ∃ c, connection_at s q = Some c ∧ same_shape c' c.
Proof.
  intros Hc. destruct r as [[p c1]|] eqn:Er.
  - destruct Hr as (-> & c0 & Hc0 & Hsh).
    destruct (decide (q = w_arg w)) as [->|Hne].
    + exists c0. split; [done|].
      unfold update, connection_at in Hc. simpl in Hc.
      rewrite list_lookup_insert_eq in Hc by by eapply connection_at_lt.
      by simplify_eq.
    + exists c'. split; [|done]. rewrite <- Hc. unfold update, connection_at. simpl.
      by rewrite list_lookup_insert_ne.
  - exists c'. split; [|done]. by rewrite <- Hc.
Qed.

Lemma update_string a : string_at s' a = string_at s a.
Proof.
  unfold update. destruct r as [[p c1]|]; [|done].
  destruct Hr as (-> & c0 & Hc0 & _).
  apply (string_at_put s (w_arg w) a c1 c0 Hc0).
Qed.

Lemma update_registry_wf : registry_wf s'.
Proof.
  pose proof (inv_registry _ Hinv) as W. split.
  - apply W.
  - intros q Hq. destruct (wf_record _ W q Hq) as (c & t2 & w2 & Hc & Ht & Hw2 & Ha & Hd).
    destruct (update_connection_fwd q c Hc) as (c' & Hc' & H1 & H2 & H3).
    destruct (update_workers_fwd t2 w2 Hw2) as (w2' & Hw2' & Ha').
    exists c', t2, w2'. split_and!; congruence.
  - intros q c' a Hq Hc' Ha. rewrite update_string.
    destruct (update_connection_bwd q c' Hc') as (c & Hc & H1 & H2 & H3).
    eapply (wf_addr _ W q c a); [done|done|congruence].
  - intros p1 p2 c1 c2 a H1 H2 Hc1 Hc2 Ha1 Ha2.
    destruct (update_connection_bwd p1 c1 Hc1) as (c1' & Hc1' & ? & ? & ?).
    destruct (update_connection_bwd p2 c2 Hc2) as (c2' & Hc2' & ? & ? & ?).
    eapply (wf_addr_inj _ W p1 p2 c1' c2' a); try done; congruence.
Qed.

(** The events of the operation say nothing about other threads' records. *)
Lemma update_times_other e :
  own_event t (w_arg w) e = false → times e (trace s') = times e (trace s).
Proof.
  intros He. unfold update. simpl. rewrite times_app, times_plain; [done|].
  eapply Forall_impl; [exact Hl|]. simpl. intros ev Hev ->. congruence.
Qed.

Lemma update_trace_old e : e ∈ trace s → e ∈ trace s'.
Proof. intros H. unfold update. simpl. apply elem_of_app. by right. Qed.

Lemma update_trace_inv e :
  e ∈ trace s' → (e ∈ l ∧ own_event t (w_arg w) e = true) ∨ e ∈ trace s.
Proof.
  unfold update. simpl. intros H. apply elem_of_app in H as [H|H]; [left|by right].
  split; [done|]. rewrite Forall_forall in Hl. by apply Hl.
Qed.

Lemma update_worker_other t2 w2 :
  t2 ≠ t → workers s !! t2 = Some w2 → worker_ok s' t2 w2.
Proof.
  intros Hne Hw2. pose proof (inv_workers _ Hinv t2 w2 Hw2) as K.
  assert (w_arg w2 ≠ w_arg w) as Hp.
  { intros E. apply Hne. by eapply (inv_inj _ Hinv t2 t w2 w). }
  split.
  - rewrite (wk_cs _ _ _ K). unfold update. simpl.
    destruct Hg as [->|[[E ->]|[E ->]]]; [done|..]; rewrite E; split; intros; simplify_eq.
  - apply K.
  - apply K.
  - apply K.
  - rewrite update_length. apply K.
  - apply K.
  - intros Hin. rewrite update_connection_other by done. by apply K.
  - rewrite update_times_other; [apply K|]. simpl.
    apply bool_decide_eq_false. intros [? ?]. congruence.
  - rewrite update_times_other; [apply K|]. simpl.
    apply bool_decide_eq_false. intros [? ?]. congruence.
  - apply update_trace_old, K.
Qed.

Lemma state_inv_update : worker_ok s' t w' → state_inv s'.
Proof.
  intros K'. split.
  - apply update_registry_wf.
  - intros t2 w2 H2. destruct (decide (t2 = t)) as [->|Hne].
    + rewrite update_workers_eq in H2. by injection H2 as <-.
    + rewrite update_workers_ne in H2 by done. by apply update_worker_other.
  - intros t1 t2 w1 w2 H1 H2 E.
    destruct (update_workers_bwd t1 w1 H1) as (w1' & H1' & E1).
    destruct (update_workers_bwd t2 w2 H2) as (w2' & H2' & E2).
    eapply (inv_inj _ Hinv t1 t2 w1' w2'); congruence.
  - intros t2 Ht2. unfold update in *. simpl in *.
    apply list_lookup_insert_is_Some.
    destruct Hg as [->|[[E ->]|[E ->]]]; simplify_eq.
    + by apply (inv_holder _ Hinv).
    + by eexists.
  - intros p o H.
    assert ((SetDone p o ∈ trace s ∨ CondSignal p o ∈ trace s)
            ∨ (p = w_arg w ∧ o = Callback t)) as [Hold|[-> ->]].
    { destruct H as [H|H]; apply update_trace_inv in H as [[_ H]|H]; auto;
        simpl in H; apply bool_decide_eq_true in H; auto. }
    + destruct (inv_signal _ Hinv p o Hold) as (t2 & w2 & -> & Hw2 & <-).
      destruct (update_workers_fwd t2 w2 Hw2) as (w2' & ? & ?). by exists t2, w2'.
    + exists t, w'. split_and!; [done|apply update_workers_eq|done].
  - intros p H. apply update_trace_inv in H as [[_ H]|H]; [done|].
    destruct (inv_insert _ Hinv p H) as (t2 & w2 & Hw2 & <-).
    destruct (update_workers_fwd t2 w2 Hw2) as (w2' & ? & ?). by exists t2, w2'.
  - intros p r0 H. apply update_trace_inv in H as [[_ H]|H]; [done|].
    destruct (inv_create _ Hinv p r0 H) as [Hlt Hno]. rewrite update_length.
    split; [done|]. intros Hr0 t2 w2 H2.
    destruct (update_workers_bwd t2 w2 H2) as (w2' & H2' & E2). rewrite E2.
    by eapply Hno.
  - intros t2 H. apply update_trace_inv in H as [[_ H]|H]; [done|].
    unfold update. simpl. apply list_lookup_insert_is_Some.
    by apply (inv_join _ Hinv).
Qed.
End update.

Lemma connection_at_update_none g t w' l s q :
  connection_at (update g None t w' l s) q = connection_at s q.
Proof. done. Qed.

Lemma connection_at_update_some g t w' l s p c c1 :
  connection_at s p = Some c →
  connection_at (update g (Some (p, c1)) t w' l s) p = Some c1.
Proof.
  intros H. unfold connection_at, update. simpl.
  rewrite list_lookup_insert_eq; [done|]. by eapply connection_at_lt.
Qed.

(** The invariant of the thread that made the step, from what the step did to
    its lines, its record and the trace. *)
Lemma worker_ok_update s g r t w w' l c :
  worker_ok s t w →
  w_arg w' = w_arg w →
  w_arg w ∈ g_ble_connections s →
  connection_at s (w_arg w) = Some c →
  match r with Some (p, _) => p = w_arg w | None => True end →
  (in_critical_section (w_pc w') = true ↔ g = MutexHeld (Worker t)) →
  (before_connect (w_pc w') = true → w_cb w' = CbNone) →
  (after_wait (w_pc w') = true → w_cb w' = C102) →
  (worker_holds_done (w_pc w') = true → callback_holds_done (w_cb w') = false) →
  (let c' := match r with Some (_, c1) => c1 | None => c end in
   thread c' = Some t ∧ done_mutex c' = expected_done_mutex t w'
   ∧ is_done c' = callback_has_set (w_cb w')) →
  times (SetDone (w_arg w) (Callback t)) l + bool_count (callback_has_set (w_cb w))
  = bool_count (callback_has_set (w_cb w')) →
  times (CondSignal (w_arg w) (Callback t)) l
  + bool_count (callback_has_signalled (w_cb w))
  = bool_count (callback_has_signalled (w_cb w')) →
  worker_ok (update g r t w' l s) t w'.
Proof.
  intros K Ha Hin Hc Hr Hcs He Hl Hx Hrec Hs Hg. split.
  - done.
  - done.
  - done.
  - done.
  - rewrite Ha. unfold update. simpl. destruct r as [[p c1]|]; rewrite ?length_insert;
      apply K.
  - intros _. by rewrite Ha.
  - intros _. rewrite Ha. destruct r as [[p c1]|].
    + subst p. exists c1. split; [by eapply connection_at_update_some | done].
    + exists c. by rewrite connection_at_update_none.
  - rewrite Ha. unfold update. simpl. rewrite times_app, (wk_sets _ _ _ K). done.
  - rewrite Ha. unfold update. simpl. rewrite times_app, (wk_signals _ _ _ K). done.
  - rewrite Ha. unfold update. simpl. apply elem_of_app. right. apply K.
Qed.

Lemma plain_is_own t p l :
  Forall (λ ev, plain_event ev = true) l → Forall (λ ev, own_event t p ev = true) l.
Proof. intros H. eapply Forall_impl; [exact H|]. intros ev Hev. by destruct ev. Qed.

Lemma plain_times e l :
  plain_event e = false → Forall (λ ev, plain_event ev = true) l → times e l = 0.
Proof.
  intros He Hl. apply times_plain. eapply Forall_impl; [exact Hl|].
  simpl. intros ev Hev ->. congruence.
Qed.

Lemma session_log_plain e conn p :
  Forall (λ ev, plain_event ev = true) (rev (discover_log e conn ++ disconnect_log e conn p)).
Proof.
  apply Forall_rev, Forall_app. split.
  - unfold discover_log. constructor; [done|].
    destruct (negb _); [by repeat constructor|].
    apply Forall_app. split.
    { generalize 0. induction (services e); intros n; simpl; by constructor. }
    do 2 (constructor; [done|]).
    destruct (negb _); [by repeat constructor|].
    apply Forall_app. split; [|by repeat constructor].
    generalize 0. induction (characteristics e); intros n; simpl; by constructor.
  - unfold disconnect_log. destruct (negb _); by repeat constructor.
Qed.

Lemma connect_log_plain e c p :
  Forall (λ ev, plain_event ev = true) (connect_log e c p).
Proof. unfold connect_log. destruct (negb _); by repeat constructor. Qed.

Lemma woken_critical pc : in_critical_section (woken pc) = in_critical_section pc.
Proof. by destruct pc. Qed.
Lemma woken_before pc : before_connect (woken pc) = before_connect pc.
Proof. by destruct pc. Qed.
Lemma woken_after pc : after_wait (woken pc) = after_wait pc.
Proof. by destruct pc. Qed.
Lemma woken_holds pc : worker_holds_done (woken pc) = worker_holds_done pc.
Proof. by destruct pc. Qed.
Lemma woken_waiting pc : waiting (woken pc) = waiting pc.
Proof. by destruct pc. Qed.

(** A thread that has not returned has a live record. *)
Lemma worker_alive s t w :
  state_inv s → workers s !! t = Some w → w_pc w ≠ W127 →
  w_arg w ∈ g_ble_connections s
  ∧ ∃ c, connection_at s (w_arg w) = Some c ∧ thread c = Some t
         ∧ done_mutex c = expected_done_mutex t w
         ∧ is_done c = callback_has_set (w_cb w).
Proof.
  intros Hinv Hw Hpc. pose proof (inv_workers _ Hinv t w Hw) as K.
  pose proof (wk_alive _ _ _ K Hpc) as Hin. split; [done|].
  by apply (wk_record _ _ _ K).
Qed.

(** ** Steps of a worker and of its callback keep the invariant *)

Ltac upd_side :=
  first
    [ by (split; [done|]; eexists; split_and!; done)
    | by auto
    | by repeat constructor
    | by apply plain_is_own
    | idtac ].

Ltac wk_tac :=
  try done;
  try (repeat match goal with H : w_cb _ = _ |- _ => rewrite H end; simpl; done);
  try (split; [intros _; by auto | done]);
  try (split_and!; try done; unfold expected_done_mutex; simpl;
       repeat match goal with H : _ = _ |- _ => rewrite H end; done).

Lemma worker_step_preserves e t s s' :
  state_inv s → ble_connect_device e t s = Ok tt s' → state_inv s'.
Proof.
  intros Hinv H. apply worker_step_inv in H as (w & Hw & H).
  pose proof (inv_workers _ Hinv t w Hw) as K.
  assert (w_pc w ≠ W127) as Hlive by (intros E; by rewrite E in H).
  destruct (worker_alive s t w Hinv Hw Hlive) as (Hin & c0 & Hc0 & Ht0 & Hm0 & Hd0).
  pose proof (wk_cs _ _ _ K) as Kcs. pose proof (wk_early _ _ _ K) as Kearly.
  pose proof (wk_late _ _ _ K) as Klate. pose proof (wk_excl _ _ _ K) as Kexcl.
  unfold expected_done_mutex in Hm0.
  destruct (w_pc w) eqn:Hpc; cbv zeta in H; simpl in *.
  - (* line 110 *)
    destruct H as (c & Hc & Hg & -> & _). assert (c = c0) as -> by congruence.
    apply (state_inv_update s _ _ t w); try done; upd_side.
    eapply (worker_ok_update s _ _ t w _ _ c0); try done; simpl; wk_tac.
  - (* line 113 *)
    destruct H as (c & Hc & ->). assert (c = c0) as -> by congruence.
    pose proof (connect_log_plain e c0 (w_arg w)) as Hl.
    pose proof (Kearly eq_refl) as Hcb.
    rewrite Hcb in *. simpl in *.
    apply (state_inv_update s _ _ t w); try done; upd_side.
    eapply (worker_ok_update s _ _ t w _ _ c0); try done; simpl;
      rewrite ?plain_times by done; destruct (connect_calls_back e); wk_tac.
  - (* line 119 *)
    destruct H as (c & Hc & Hm & ->). assert (c = c0) as -> by congruence.
    assert (callback_holds_done (w_cb w) = false) as Hcb.
    { destruct (callback_holds_done (w_cb w)); [congruence|done]. }
    apply (state_inv_update s _ _ t w); try done; upd_side.
    eapply (worker_ok_update s _ _ t w _ _ c0); try done; simpl; wk_tac.
  - (* line 120 *)
    destruct H as (c & Hc & ->). assert (c = c0) as -> by congruence.
    specialize (Kexcl eq_refl).
    apply (state_inv_update s _ _ t w); try done; upd_side.
    eapply (worker_ok_update s _ _ t w _ _ c0); try done; simpl;
      destruct (is_done c0); wk_tac.
    intros _. destruct (w_cb w); simpl in *; congruence.
  - (* line 121: release and sleep *)
    destruct H as (c & Hc & Hm & ->). assert (c = c0) as -> by congruence.
    specialize (Kexcl eq_refl).
    apply (state_inv_update s _ _ t w); try done; upd_side.
    eapply (worker_ok_update s _ _ t w _ _ c0); try done; simpl; wk_tac.
  - (* line 121: asleep, woken without a signal *)
    destruct H as (_ & ->).
    assert (callback_holds_done (w_cb w) = false ∨ callback_holds_done (w_cb w) = true)
      as Hcb by (destruct (callback_holds_done (w_cb w)); auto).
    apply (state_inv_update s _ _ t w); try done; upd_side.
    eapply (worker_ok_update s _ _ t w _ _ c0); try done; simpl; wk_tac.
  - (* line 121: woken, re-acquire *)
    destruct H as (c & Hc & Hm & ->). assert (c = c0) as -> by congruence.
    assert (callback_holds_done (w_cb w) = false) as Hcb.
    { destruct (callback_holds_done (w_cb w)); [congruence|done]. }
    apply (state_inv_update s _ _ t w); try done; upd_side.
    eapply (worker_ok_update s _ _ t w _ _ c0); try done; simpl; wk_tac.
  - (* line 123 *)
    destruct H as (c & Hc & Hm & ->). assert (c = c0) as -> by congruence.
    pose proof (Klate eq_refl) as Hcb. rewrite Hcb in *.
    apply (state_inv_update s _ _ t w); try done; upd_side.
    eapply (worker_ok_update s _ _ t w _ _ c0); try done; simpl; wk_tac.
  - (* line 126 *)
    destruct H as (Hg & ->). pose proof (Klate eq_refl) as Hcb. rewrite Hcb in *.
    apply (state_inv_update s _ _ t w); try done; upd_side.
    eapply (worker_ok_update s _ _ t w _ _ c0); try done; simpl; wk_tac.
  - done.
Qed.

Ltac cb_tac :=
  try done;
  try (repeat match goal with H : w_cb ?w = _ |- context [w_cb ?w] => rewrite H end;
       simpl; done);
  try (split_and!; try done; unfold expected_done_mutex; simpl;
       repeat match goal with
              | H : worker_holds_done _ = _ |- _ => rewrite H in *
              | H : w_cb _ = _ |- _ => rewrite H in *
              end; done);
  try (rewrite times_cons, times_nil, decide_True by done;
       repeat match goal with H : w_cb ?w = _ |- context [w_cb ?w] => rewrite H end;
       simpl; done);
  try (rewrite times_cons, times_nil, decide_False by done;
       repeat match goal with H : w_cb ?w = _ |- context [w_cb ?w] => rewrite H end;
       simpl; done).

Lemma callback_step_preserves e adapter dst conn error t s s' :
  state_inv s → on_device_connect_step e adapter dst conn error t s = Ok tt s' →
  state_inv s'.
Proof.
  intros Hinv H. apply (callback_step_upd _ _ _ _ _ _ _ _ Hinv) in H as (w & Hw & H).
  pose proof (inv_workers _ Hinv t w Hw) as K.
  pose proof (wk_early _ _ _ K) as Kearly.
  pose proof (wk_late _ _ _ K) as Klate. pose proof (wk_excl _ _ _ K) as Kexcl.
  pose proof (wk_cs _ _ _ K) as Kcs.
  assert (after_wait (w_pc w) = false) as Hnl.
  { destruct (after_wait (w_pc w)); [|done]. rewrite (Klate eq_refl) in H. done. }
  assert (before_connect (w_pc w) = false) as Hne.
  { destruct (before_connect (w_pc w)); [|done]. rewrite (Kearly eq_refl) in H. done. }
  assert (w_pc w ≠ W127) as Hlive by (intros E; by rewrite E in Hnl).
  destruct (worker_alive s t w Hinv Hw Hlive) as (Hin & c0 & Hc0 & Ht0 & Hm0 & Hd0).
  unfold expected_done_mutex in Hm0.
  destruct (w_cb w) eqn:Hcb; cbv zeta in H; simpl in *; try done.
  - (* lines 62-95 *)
    subst s'.
    apply (state_inv_update s _ _ t w); try done;
      [auto | apply plain_is_own, session_log_plain |].
    eapply (worker_ok_update s _ _ t w _ _ c0); try done;
      cbn [w_pc w_cb w_arg calls goes];
      rewrite ?Hnl, ?Hne, ?Hcb; cb_tac.
    all: rewrite plain_times; [done|done|apply session_log_plain].
  - (* line 98 *)
    destruct H as (c & Hc & Hm & ->). assert (c = c0) as -> by congruence.
    assert (worker_holds_done (w_pc w) = false) as Hwh.
    { destruct (worker_holds_done (w_pc w)); [congruence|done]. }
    apply (state_inv_update s _ _ t w); try done; upd_side.
    eapply (worker_ok_update s _ _ t w _ _ c0); try done;
      cbn [w_pc w_cb w_arg calls goes];
      rewrite ?Hnl, ?Hne, ?Hwh; cb_tac.
  - (* line 99 *)
    destruct H as (c & Hc & ->). assert (c = c0) as -> by congruence.
    assert (worker_holds_done (w_pc w) = false) as Hwh.
    { destruct (worker_holds_done (w_pc w)); [by specialize (Kexcl eq_refl)|done]. }
    apply (state_inv_update s _ _ t w); try done; upd_side.
    { repeat constructor. simpl. by apply bool_decide_eq_true. }
    eapply (worker_ok_update s _ _ t w _ _ c0); try done;
      cbn [w_pc w_cb w_arg calls goes];
      rewrite ?Hnl, ?Hne, ?Hwh; cb_tac.
  - (* line 100: the signal wakes the worker if it is asleep *)
    destruct H as (c & Hc & Hd & ->). assert (c = c0) as -> by congruence.
    assert (worker_holds_done (w_pc w) = false) as Hwh.
    { destruct (worker_holds_done (w_pc w)); [by specialize (Kexcl eq_refl)|done]. }
    apply (state_inv_update s _ _ t w); try done; upd_side.
    { repeat constructor. simpl. by apply bool_decide_eq_true. }
    eapply (worker_ok_update s _ _ t w _ _ c0); try done;
      unfold expected_done_mutex;
      cbn [w_pc w_cb w_arg calls goes];
      rewrite ?woken_critical, ?woken_before, ?woken_after, ?woken_holds;
      rewrite ?Hnl, ?Hne, ?Hwh; cb_tac.
  - (* line 101 *)
    destruct H as (c & Hc & Hm & ->). assert (c = c0) as -> by congruence.
    assert (worker_holds_done (w_pc w) = false) as Hwh.
    { destruct (worker_holds_done (w_pc w)); [by specialize (Kexcl eq_refl)|done]. }
    apply (state_inv_update s _ _ t w); try done; upd_side.
    eapply (worker_ok_update s _ _ t w _ _ c0); try done;
      cbn [w_pc w_cb w_arg calls goes];
      rewrite ?Hnl, ?Hne, ?Hwh; cb_tac.
Qed.

(** ** Steps of the controller keep the invariant *)

Lemma state_inv_frame s s' l :
  state_inv s → registry_wf s' →
  workers s' = workers s →
  (g_mutex s' = g_mutex s
   ∨ (g_mutex s = MutexFree ∧ g_mutex s' = MutexHeld Task)
   ∨ (g_mutex s = MutexHeld Task ∧ g_mutex s' = MutexFree)) →
  length (heap s) ≤ length (heap s') →
  trace s' = l ++ trace s →
  Forall (controller_event s s') l →
  (∀ t w, workers s !! t = Some w → w_pc w ≠ W127 → w_arg w ∈ g_ble_connections s') →
  (∀ q, q ∈ g_ble_connections s' →
        q ∈ g_ble_connections s ∧ connection_at s' q = connection_at s q) →
  state_inv s'.
Proof.
  intros Hinv W' Hws Hg Hlen Ht Hl Halive Hrec.
  assert (∀ e, e ∈ trace s' → (e ∈ l ∧ controller_event s s' e) ∨ e ∈ trace s) as Hev.
  { intros e He. rewrite Ht in He. apply elem_of_app in He as [He|He]; [left|by right].
    split; [done|]. rewrite Forall_forall in Hl. by apply Hl. }
  assert (∀ e, (∀ p o, e = SetDone p o ∨ e = CondSignal p o) ∨ True → True) as _ by done.
  assert (∀ e, (∃ p o, e = SetDone p o ∨ e = CondSignal p o) →
               times e (trace s') = times e (trace s)) as Htimes.
  { intros e (p & o & He). rewrite Ht, times_app, times_zero; [done|].
    intros Hin. rewrite Forall_forall in Hl. specialize (Hl e Hin).
    by destruct He as [-> | ->]. }
  split.
  - done.
  - rewrite Hws. intros t w Hw. pose proof (inv_workers _ Hinv t w Hw) as K. split.
    + rewrite (wk_cs _ _ _ K).
      destruct Hg as [->|[[E ->]|[E ->]]]; [done|..]; rewrite E; split; intros; simplify_eq.
    + apply K.
    + apply K.
    + apply K.
    + pose proof (wk_bound _ _ _ K). lia.
    + intros Hpc. by eapply Halive.
    + intros Hin. destruct (Hrec _ Hin) as [Hin0 ->]. by apply K.
    + rewrite Htimes by eauto. apply K.
    + rewrite Htimes by eauto. apply K.
    + rewrite Ht. apply elem_of_app. right. apply K.
  - rewrite Hws. apply Hinv.
  - rewrite Hws. intros t Hgt. apply (inv_holder _ Hinv).
    destruct Hg as [<-|[[E E']|[E E']]]; [done|..]; congruence.
  - rewrite Hws. intros p o H. apply (inv_signal _ Hinv).
    destruct H as [H|H]; apply Hev in H as [[_ H]|H]; try done; auto.
  - rewrite Hws. intros p H. apply (inv_insert _ Hinv).
    by apply Hev in H as [[_ H]|H].
  - rewrite Hws. intros p r H. apply Hev in H as [[_ [Hp Hr]]|H].
    + split; [lia|]. intros _ t w Hw. pose proof (wk_bound _ _ _ (inv_workers _ Hinv t w Hw)).
      lia.
    + destruct (inv_create _ Hinv p r H) as [Hlt Hno]. split; [lia|done].
  - rewrite Hws. intros t H. apply Hev in H as [[_ H]|H]; [done|].
    by apply (inv_join _ Hinv).
Qed.

(** Steps that only add events and, possibly, lock or unlock [g_mutex] for the
    controller. *)
Lemma state_inv_events s g l :
  state_inv s →
  (g = g_mutex s
   ∨ (g_mutex s = MutexFree ∧ g = MutexHeld Task)
   ∨ (g_mutex s = MutexHeld Task ∧ g = MutexFree)) →
  Forall (λ ev, plain_event ev = true) l →
  state_inv (add_events l (with_g_mutex g s)).
Proof.
  intros Hinv Hg Hl.
  apply (state_inv_frame s _ l); try done.
  - apply (registry_wf_grow s _ [] []); try done; simpl; rewrite ?app_nil_r; try done.
    apply Hinv.
  - eapply Forall_impl; [exact Hl|]. intros ev Hev. by destruct ev.
  - intros t w Hw Hpc. by apply (wk_alive _ _ _ (inv_workers _ Hinv t w Hw)).
Qed.

Lemma state_inv_initial : state_inv initial_state.
Proof.
  split; simpl.
  - apply registry_wf_initial.
  - intros t w H. by rewrite lookup_nil in H.
  - intros t1 t2 w1 w2 H. by rewrite lookup_nil in H.
  - done.
  - intros p o [H|H]; by apply elem_of_nil in H.
  - intros p H. by apply elem_of_nil in H.
  - intros p r H. by apply elem_of_nil in H.
  - intros t H. by apply elem_of_nil in H.
Qed.

(** ** [ble_discovered_device] and the drain loop keep the invariant *)

Lemma state_inv_emit ev s :
  plain_event ev = true → state_inv s → state_inv (emit ev s).
Proof.
  intros Hev Hinv.
  apply (state_inv_events s (g_mutex s) [ev] Hinv); [by left|]. by constructor.
Qed.

Lemma state_inv_accepted e adapter (a : string) s :
  state_inv s →
  let p := length (heap s) in
  let t := length (workers s) in
  let c := accepted_connection adapter t (strdup_ptr (strdup_ok e) (S p)) in
  state_inv
    (mk_state (adapter_name s) (g_mutex s) (p :: g_ble_connections s)
       (heap s ++ Some (BConnection c) :: strdup_block (strdup_ok e) a)
       (workers s ++ [mk_worker p W110 CbNone])
       ([ListInsertHead p; ThreadCreate p 0;
         CondInit p; MutexInit p; Strdup (strdup_ptr (strdup_ok e) (S p));
         Calloc (Some p); Printf (MsgDiscoveredNamed a CONNECT_DEVICE_NAME)] ++ trace s)).
Proof.
  intros Hinv p t c. set (l := [ListInsertHead p; _; _; _; _; _; _]).
  set (s' := mk_state _ _ _ _ _ _).
  assert (heap s' = heap s ++ Some (BConnection c) :: strdup_block (strdup_ok e) a) as Eh by done.
  assert (connection_at s' p = Some c) as Hp.
  { unfold connection_at, p. by rewrite Eh, lookup_fresh. }
  assert (∀ t0 w, workers s !! t0 = Some w → w_arg w < p) as Hb.
  { intros t0 w Hw. apply (wk_bound _ _ _ (inv_workers _ Hinv t0 w Hw)). }
  assert (∀ t0 w, workers s' !! t0 = Some w →
            workers s !! t0 = Some w ∨ (t0 = t ∧ w = mk_worker p W110 CbNone)) as Hws.
  { intros t0 w Hw. unfold s' in Hw. cbn -[lookup] in Hw.
    apply lookup_app_Some in Hw as [Hw|[Hge Hw]]; [by left|right].
    apply list_lookup_singleton_Some in Hw as [Hz <-]. split; [unfold t; lia|done]. }
  assert (∀ t0 w, workers s !! t0 = Some w → workers s' !! t0 = Some w) as Hwk.
  { intros t0 w Hw. unfold s'. cbn -[lookup]. by apply lookup_app_l_Some. }
  assert (workers s' !! t = Some (mk_worker p W110 CbNone)) as Hnew.
  { unfold s', t. cbn -[lookup]. apply lookup_fresh. }
  assert (∀ ev, ev ∈ trace s' → ev ∈ l ∨ ev ∈ trace s) as Hev.
  { intros ev H. by apply elem_of_app in H. }
  assert (∀ q o, (SetDone q o ∉ l) ∧ (CondSignal q o ∉ l)) as Hl.
  { intros q o. split; intros H; unfold l in H; in_list H. }
  assert (∀ q o, times (SetDone q o) (trace s') = times (SetDone q o) (trace s)
                 ∧ times (CondSignal q o) (trace s') = times (CondSignal q o) (trace s)) as Ht.
  { intros q o. unfold s'. cbn [trace]. rewrite !times_app.
    destruct (Hl q o) as [H1 H2]. by rewrite (times_zero _ l H1), (times_zero _ l H2). }
  split.
  - by apply accepted_registry_wf, Hinv.
  - intros t0 w Hw. apply Hws in Hw as [Hw|[-> ->]].
    + pose proof (inv_workers _ Hinv t0 w Hw) as K. pose proof (Hb _ _ Hw) as Hlt. split.
      * apply K.
      * apply K.
      * apply K.
      * apply K.
      * rewrite Eh, length_app. simpl. unfold p in Hlt. lia.
      * intros Hpc. right. by apply K.
      * intros Hin. apply elem_of_cons in Hin as [Hin|Hin]; [lia|].
        destruct (wk_record _ _ _ K Hin) as (c0 & Hc0 & Hrest).
        exists c0. split; [|done]. by eapply connection_at_grow.
      * destruct (Ht (w_arg w) (Callback t0)) as [-> _]. apply K.
      * destruct (Ht (w_arg w) (Callback t0)) as [_ ->]. apply K.
      * apply elem_of_app. right. apply K.
    + split; cbn [w_pc w_cb w_arg].
      * split; [done|]. intros Hg. destruct (inv_holder _ Hinv t Hg) as [w Hw].
        apply lookup_lt_Some in Hw. unfold t in Hw. lia.
      * done.
      * done.
      * done.
      * rewrite Eh, length_app. simpl. fold p. lia.
      * intros _. left.
      * intros _. exists c. by split_and!.
      * destruct (Ht p (Callback t)) as [-> _]. apply times_zero. intros H.
        destruct (inv_signal _ Hinv p (Callback t)) as (t0 & w & _ & Hw & Hp0); [by left|].
        pose proof (Hb _ _ Hw). lia.
      * destruct (Ht p (Callback t)) as [_ ->]. apply times_zero. intros H.
        destruct (inv_signal _ Hinv p (Callback t)) as (t0 & w & _ & Hw & Hp0); [by right|].
        pose proof (Hb _ _ Hw). lia.
      * apply elem_of_app. left. unfold l. right. left.
  - intros t1 t2 w1 w2 H1 H2 Ha.
    apply Hws in H1 as [H1|[-> ->]]; apply Hws in H2 as [H2|[-> ->]].
    + by apply (inv_inj _ Hinv t1 t2 w1 w2).
    + pose proof (Hb _ _ H1). simpl in Ha. lia.
    + pose proof (Hb _ _ H2). simpl in Ha. lia.
    + done.
  - intros t0 Hg. destruct (inv_holder _ Hinv t0 Hg) as [w Hw]. exists w. by apply Hwk.
  - intros q o H.
    assert (SetDone q o ∈ trace s ∨ CondSignal q o ∈ trace s) as H0.
    { destruct (Hl q o) as [H1 H2]. destruct H as [H|H]; apply Hev in H as [H|H]; auto; done. }
    destruct (inv_signal _ Hinv q o H0) as (t0 & w & Ho & Hw & Hq).
    exists t0, w. split_and!; auto.
  - intros q H. apply Hev in H as [H|H].
    + unfold l in H. in_list H. exists t. by eexists.
    + destruct (inv_insert _ Hinv q H) as (t0 & w & Hw & Hq). exists t0, w. auto.
  - intros q r H. rewrite Eh, length_app. simpl. fold p. apply Hev in H as [H|H].
    + unfold l in H. in_list H. split; [lia|done].
    + destruct (inv_create _ Hinv q r H) as [Hlt Hno]. fold p in Hlt. split; [lia|].
      intros Hr t0 w Hw. apply Hws in Hw as [Hw|[-> ->]]; [by eapply Hno|]. simpl. lia.
  - intros t0 H. apply Hev in H as [H|H]; [unfold l in H; in_list H|].
    destruct (inv_join _ Hinv t0 H) as [w Hw]. exists w. by apply Hwk.
Qed.

Lemma discovered_preserves e adapter a name s s' :
  state_inv s → ble_discovered_device e adapter a name s = Ok tt s' → state_inv s'.
Proof.
  intros Hinv.
  destruct (decide (name = Some CONNECT_DEVICE_NAME)) as [->|Hn].
  2:{ destruct (discovered_rejected e adapter a name s Hn) as [ev ->].
      intros [= <-]. by apply state_inv_emit. }
  destruct (calloc_ok e) eqn:Hc.
  2:{ rewrite discovered_no_memory by done. intros [= <-].
      by repeat apply state_inv_emit. }
  destruct (decide (pthread_create_ret e = 0%Z)) as [Hr|Hr].
  2:{ rewrite discovered_no_thread by done. intros [= <-].
      eapply (state_inv_frame s _
                [Free (length (heap s)); Log ErrCreateThread;
                 ThreadCreate (length (heap s)) (pthread_create_ret e);
                 CondInit (length (heap s)); MutexInit (length (heap s));
                 Strdup (strdup_ptr (strdup_ok e) (S (length (heap s))));
                 Calloc (Some (length (heap s)));
                 Printf (MsgDiscoveredNamed a CONNECT_DEVICE_NAME)]);
        [done| | | | |reflexivity| | |]; cbn [workers g_mutex heap].
      - eapply (registry_wf_grow s _ _ []); [apply Hinv|done| |done].
        simpl. by rewrite app_nil_r.
      - done.
      - by left.
      - rewrite length_app. lia.
      - repeat constructor; simpl; rewrite ?length_app; simpl; try done; lia.
      - intros t w Hw Hpc. by apply (wk_alive _ _ _ (inv_workers _ Hinv t w Hw)).
      - intros q Hq. split; [done|].
        destruct (wf_record _ (inv_registry _ Hinv) q Hq) as (c & ? & ? & Hc0 & _).
        rewrite Hc0. by eapply connection_at_grow. }
  rewrite discovered_accepted by done. intros [= <-].
  by apply state_inv_accepted.
Qed.

(** The controller joins a thread only once it has returned, and a thread
    that has returned has left its record complete and unlocked. *)
Lemma finished_record s p rest c t :
  state_inv s → g_ble_connections s = p :: rest →
  connection_at s p = Some c → thread c = Some t →
  finished s t = true →
  ∃ w, workers s !! t = Some w ∧ w_arg w = p ∧ w_pc w = W127 ∧ w_cb w = C102
       ∧ done_mutex c = MutexFree ∧ is_done c = true.
Proof.
  intros Hinv Er Hc Ht Hf.
  assert (p ∈ g_ble_connections s) as Hin by (rewrite Er; left).
  destruct (wf_record _ (inv_registry _ Hinv) p Hin) as (c' & t' & w & Hc' & Ht' & Hw & Ha & _).
  assert (c' = c) as -> by congruence. assert (t' = t) as -> by congruence.
  unfold finished in Hf. rewrite Hw in Hf. apply bool_decide_eq_true in Hf.
  pose proof (inv_workers _ Hinv t w Hw) as K.
  assert (w_cb w = C102) as Hcb by (apply K; by rewrite Hf).
  destruct (wk_record _ _ _ K) as (c0 & Hc0 & _ & Hm & Hd); [by rewrite Ha|].
  rewrite Ha in Hc0. assert (c0 = c) as -> by congruence.
  exists w. split_and!; try done.
  - rewrite Hm. unfold expected_done_mutex. by rewrite Hf, Hcb.
  - by rewrite Hd, Hcb.
Qed.

Lemma drain_body_shape s s' :
  state_inv s → drain_body (finished s) s = Ok tt s' →
  ∃ p rest c t w, g_ble_connections s = p :: rest ∧ connection_at s p = Some c
    ∧ thread c = Some t ∧ workers s !! t = Some w ∧ w_arg w = p ∧ w_pc w = W127
    ∧ s' = drained p c t rest s.
Proof.
  intros Hinv H.
  destruct (g_ble_connections s) as [|p rest] eqn:Er.
  { unfold drain_body, bind, get in H. by rewrite Er in H. }
  assert (p ∈ g_ble_connections s) as Hin by (rewrite Er; left).
  pose proof (inv_registry _ Hinv) as W.
  destruct (wf_record _ W p Hin) as (c & t & w & Hc & Ht & Hw & Ha & _).
  rewrite (drain_body_eq (finished s) s p rest c t W) in H; try done.
  2:{ intros Hf. by destruct (finished_record s p rest c t Hinv Er Hc Ht Hf) as (? & ? & ? & ? & ? & ? & ?). }
  destruct (finished s t) eqn:Hf; [|done]. injection H as <-.
  destruct (finished_record s p rest c t Hinv Er Hc Ht Hf) as (w' & Hw' & _ & Hpc & _).
  assert (w' = w) as -> by congruence.
  exists p, rest, c, t, w. by split_and!.
Qed.

Lemma drain_body_preserves s s' :
  state_inv s → drain_body (finished s) s = Ok tt s' → state_inv s'.
Proof.
  intros Hinv H.
  destruct (drain_body_shape s s' Hinv H) as (p & rest & c & t & w & Er & Hc & Ht & Hw & Ha & Hpc & ->).
  pose proof (inv_registry _ Hinv) as W.
  destruct (drained_frame p c t rest s) as (Ew & Eg & _ & El).
  apply (state_inv_frame s _ (rev (release_log s p))); try done.
  - by apply drained_wf.
  - by left.
  - lia.
  - by apply drained_trace.
  - apply Forall_forall. intros ev Hev. apply list_elem_of_In, in_rev, list_elem_of_In in Hev.
    unfold release_log in Hev. rewrite Hc, Ht in Hev.
    destruct (addr c); in_list Hev; simpl; by eexists.
  - intros t0 w0 Hw0 Hpc0. rewrite drained_registry.
    pose proof (wk_alive _ _ _ (inv_workers _ Hinv t0 w0 Hw0) Hpc0) as Hal.
    rewrite Er in Hal. apply elem_of_cons in Hal as [Hal|Hal]; [|done].
    assert (t0 = t) as -> by (apply (inv_inj _ Hinv t0 t w0 w); congruence).
    congruence.
  - intros q Hq. rewrite drained_registry in Hq. split; [rewrite Er; by right|].
    assert (q ∈ g_ble_connections s) as Hq' by (rewrite Er; by right).
    destruct (wf_record _ W q Hq') as (c0 & ? & ? & Hc0 & _).
    rewrite Hc0. by eapply drained_connection_at.
Qed.

(** ** What one operation of a thread changes *)

Lemma scan_status_app l tr :
  Forall (λ ev, is_scan ev = false) l → scan_status (l ++ tr) = scan_status tr.
Proof.
  induction 1 as [|ev l Hev _ IH]; [done|]. simpl. by destruct ev.
Qed.

Lemma thread_event_not_scan l :
  Forall (λ ev, thread_event ev = true) l → Forall (λ ev, is_scan ev = false) l.
Proof. intros H. eapply Forall_impl; [exact H|]. intros ev. by destruct ev. Qed.

Lemma discovery_event_not_scan l :
  Forall (λ ev, discovery_event ev = true) l → Forall (λ ev, is_scan ev = false) l.
Proof. intros H. eapply Forall_impl; [exact H|]. intros ev. by destruct ev. Qed.

Lemma session_log_thread e conn p :
  Forall (λ ev, thread_event ev = true)
         (rev (discover_log e conn ++ disconnect_log e conn p)).
Proof.
  apply Forall_rev, Forall_app. split.
  - unfold discover_log. constructor; [done|].
    destruct (negb _); [by repeat constructor|].
    apply Forall_app. split.
    { generalize 0. induction (services e); intros n; simpl; by constructor. }
    do 2 (constructor; [done|]).
    destruct (negb _); [by repeat constructor|].
    apply Forall_app. split; [|by repeat constructor].
    generalize 0. induction (characteristics e); intros n; simpl; by constructor.
  - unfold disconnect_log. destruct (negb _); by repeat constructor.
Qed.

Lemma connect_log_thread e c p :
  Forall (λ ev, thread_event ev = true) (connect_log e c p).
Proof. unfold connect_log. destruct (negb _); by repeat constructor. Qed.

Ltac sum_tac :=
  split_and!; try done;
  try (simpl; by rewrite length_insert);
  try (by repeat constructor);
  try apply connect_log_thread;
  try apply session_log_thread;
  try (by left);
  try (right; left; by split_and!);
  try (right; right; by split_and!);
  try (match goal with H : w_cb _ = _ |- _ => by rewrite H end).

Lemma worker_step_summary e t s s' :
  ble_connect_device e t s = Ok tt s' →
  ∃ w w' l, workers s !! t = Some w ∧ w_pc w ≠ W127
    ∧ workers s' = <[t := w']> (workers s) ∧ w_arg w' = w_arg w
    ∧ g_ble_connections s' = g_ble_connections s
    ∧ length (heap s') = length (heap s)
    ∧ trace s' = l ++ trace s ∧ Forall (λ ev, thread_event ev = true) l
    ∧ ((w_pc w = W110 ∧ g_mutex s = MutexFree ∧ g_mutex s' = MutexHeld (Worker t))
       ∨ (w_pc w = W126 ∧ g_mutex s = MutexHeld (Worker t) ∧ g_mutex s' = MutexFree)
       ∨ (w_pc w ≠ W110 ∧ w_pc w ≠ W126 ∧ g_mutex s' = g_mutex s)).
Proof.
  intros H. apply worker_step_inv in H as (w & Hw & H).
  destruct (w_pc w) eqn:Hpc; cbv zeta in H.
  - destruct H as (c & Hc & Hg & -> & _). eexists w, _, _; rewrite Hpc.
    sum_tac.
  - destruct H as (c & Hc & ->). eexists w, _, _; rewrite Hpc.
    sum_tac.
  - destruct H as (c & Hc & Hm & ->). eexists w, _, _; rewrite Hpc.
    sum_tac.
  - destruct H as (c & Hc & ->). eexists w, _, []; rewrite Hpc.
    sum_tac.
  - destruct H as (c & Hc & Hm & ->). eexists w, _, _; rewrite Hpc.
    sum_tac.
  - destruct H as (_ & ->). eexists w, _, []; rewrite Hpc.
    sum_tac.
  - destruct H as (c & Hc & Hm & ->). eexists w, _, _; rewrite Hpc.
    sum_tac.
  - destruct H as (c & Hc & Hm & ->). eexists w, _, _; rewrite Hpc.
    sum_tac.
  - destruct H as (Hg & ->). eexists w, _, _; rewrite Hpc.
    sum_tac.
  - done.
Qed.

(** What a step of a callback leaves alone, in any state. *)
Lemma callback_step_frame e adapter dst conn error t s s' :
  on_device_connect_step e adapter dst conn error t s = Ok tt s' →
  ∃ w l, workers s !! t = Some w ∧ session_active (w_cb w) = true
    ∧ length (workers s') = length (workers s)
    ∧ g_ble_connections s' = g_ble_connections s
    ∧ length (heap s') = length (heap s)
    ∧ g_mutex s' = g_mutex s
    ∧ trace s' = l ++ trace s ∧ Forall (λ ev, thread_event ev = true) l.
Proof.
  intros H. apply callback_step_inv in H as (w & Hw & H).
  destruct (w_cb w) eqn:Hcb; cbv zeta in H; try done.
  - subst s'. eexists w, _. sum_tac.
  - destruct H as (c & Hc & Hm & ->). eexists w, _. sum_tac.
  - destruct H as (c & Hc & ->). eexists w, _. sum_tac.
  - destruct H as (c & Hc & Hd & ->). eexists w, [_]. sum_tac.
    simpl. by rewrite length_insert, length_fmap.
  - destruct H as (c & Hc & Hm & ->). eexists w, _. sum_tac.
Qed.

(** The same in a state that satisfies the invariant: only the entry of the
    callback's own worker changes, and its line only when the signal wakes
    it. *)
Lemma callback_step_summary e adapter dst conn error t s s' :
  state_inv s →
  on_device_connect_step e adapter dst conn error t s = Ok tt s' →
  ∃ w w' l, workers s !! t = Some w ∧ session_active (w_cb w) = true
    ∧ workers s' = <[t := w']> (workers s) ∧ w_arg w' = w_arg w
    ∧ (w_pc w' = w_pc w ∨ (w_pc w = W121s ∧ w_pc w' = W121r))
    ∧ g_ble_connections s' = g_ble_connections s
    ∧ length (heap s') = length (heap s)
    ∧ g_mutex s' = g_mutex s
    ∧ trace s' = l ++ trace s ∧ Forall (λ ev, thread_event ev = true) l.
Proof.
  intros Hinv H. apply (callback_step_upd _ _ _ _ _ _ _ _ Hinv) in H as (w & Hw & H).
  destruct (w_cb w) eqn:Hcb; cbv zeta in H; try done.
  - subst s'. eexists w, _, _. sum_tac.
  - destruct H as (c & Hc & Hm & ->). eexists w, _, _.
    sum_tac.
  - destruct H as (c & Hc & ->). eexists w, _, _.
    sum_tac.
  - destruct H as (c & Hc & Hd & ->). eexists w, _, _.
    sum_tac. simpl. destruct (w_pc w); auto.
  - destruct H as (c & Hc & Hm & ->). eexists w, _, _.
    sum_tac.
Qed.

Lemma discovered_summary e adapter a name s s' :
  ble_discovered_device e adapter a name s = Ok tt s' →
  ∃ l lw, trace s' = l ++ trace s ∧ Forall (λ ev, discovery_event ev = true) l
    ∧ g_mutex s' = g_mutex s ∧ workers s' = workers s ++ lw
    ∧ Forall (λ w, w_pc w = W110) lw.
Proof.
  destruct (decide (name = Some CONNECT_DEVICE_NAME)) as [->|Hn].
  2:{ destruct (discovered_rejected e adapter a name s Hn) as [ev ->].
      intros [= <-]. exists [Printf ev], [].
      split_and!; [reflexivity | by repeat constructor | done
                   | simpl; by rewrite app_nil_r | done]. }
  destruct (calloc_ok e) eqn:Hc.
  2:{ rewrite discovered_no_memory by done. intros [= <-].
      eexists [_; _; _], [].
      split_and!; [reflexivity | by repeat constructor | done
                   | simpl; by rewrite app_nil_r | done]. }
  destruct (decide (pthread_create_ret e = 0%Z)) as [Hr|Hr].
  2:{ rewrite discovered_no_thread by done. intros [= <-].
      eexists [_; _; _; _; _; _; _; _], [].
      split_and!; [reflexivity | by repeat constructor | done
                   | simpl; by rewrite app_nil_r | done]. }
  rewrite discovered_accepted by done. intros [= <-].
  eexists [_; _; _; _; _; _; _], [_].
  split_and!; [reflexivity | by repeat constructor | done | reflexivity
               | by repeat constructor].
Qed.

(** ** Steps of the controller *)

Lemma task_step_inv i pc h s pc' h' s' :
  ble_task_step i pc h s = Ok (pc', h') s' →
  match pc, i with
  | T174, OpenReturns r h0 =>
      h' = h0 ∧
      if (r =? 0)%Z then pc' = T180 ∧ s' = emit (AdapterOpen (adapter_name s) r) s
      else pc' = T205
           ∧ s' = emit (Log ErrOpenAdapter) (emit (AdapterOpen (adapter_name s) r) s)
  | T180, Proceed =>
      h' = h ∧ pc' = T181 ∧ g_mutex s = MutexFree
      ∧ s' = emit (LockGlobal Task) (with_g_mutex (MutexHeld Task) s)
  | T181, Found a =>
      h' = h ∧ pc' = T181
      ∧ ble_discovered_device (adv_env a) h (adv_addr a) (adv_name a) s = Ok tt s'
  | T181, ScanReturns r =>
      h' = h ∧
      if (r =? 0)%Z then pc' = T187 ∧ s' = emit (ScanEnable h BLE_SCAN_TIMEOUT r) s
      else pc' = T204
           ∧ s' = emit (Log ErrScan) (emit (ScanEnable h BLE_SCAN_TIMEOUT r) s)
  | T187, Proceed =>
      h' = h ∧ pc' = T190 ∧ s' = emit (Printf MsgScanCompleted) (emit (ScanDisable h) s)
  | T190, Proceed =>
      h' = h ∧ pc' = T193 ∧ g_mutex s = MutexHeld Task
      ∧ s' = emit (UnlockGlobal Task) (with_g_mutex MutexFree s)
  | T193, Proceed =>
      h' = h ∧
      ((g_ble_connections s = [] ∧ pc' = T204 ∧ s' = s)
       ∨ (g_ble_connections s ≠ [] ∧ pc' = T193 ∧ drain_body (finished s) s = Ok tt s'))
  | T204, Proceed => h' = h ∧ pc' = T205 ∧ s' = emit (AdapterClose h) s
  | _, _ => False
  end.
Proof.
  intros H. destruct pc, i; try done; unfold ble_task_step in H.
  - apply bind_inv in H as (s0 & s1 & H0 & H). injection H0 as <- <-.
    apply bind_inv in H as ([] & s1 & H1 & H). apply say_inv in H1 as ->.
    destruct (r =? 0)%Z; simpl in H.
    + by apply ret_inv in H as [[= <- <-] ->].
    + apply bind_inv in H as ([] & s1 & H1 & H). apply say_inv in H1 as ->.
      by apply ret_inv in H as [[= <- <-] ->].
  - apply bind_inv in H as ([] & s1 & H1 & H). apply lock_global_inv in H1 as [Hg ->].
    by apply ret_inv in H as [[= <- <-] ->].
  - apply bind_inv in H as ([] & s1 & H1 & H).
    by apply ret_inv in H as [[= <- <-] ->].
  - apply bind_inv in H as ([] & s1 & H1 & H). apply say_inv in H1 as ->.
    destruct (r =? 0)%Z; simpl in H.
    + by apply ret_inv in H as [[= <- <-] ->].
    + apply bind_inv in H as ([] & s1 & H1 & H). apply say_inv in H1 as ->.
      by apply ret_inv in H as [[= <- <-] ->].
  - apply bind_inv in H as ([] & s1 & H1 & H). apply say_inv in H1 as ->.
    apply bind_inv in H as ([] & s1 & H1 & H). apply say_inv in H1 as ->.
    by apply ret_inv in H as [[= <- <-] ->].
  - apply bind_inv in H as ([] & s1 & H1 & H). apply unlock_global_inv in H1 as [Hg ->].
    by apply ret_inv in H as [[= <- <-] ->].
  - apply bind_inv in H as (s0 & s1 & H0 & H). injection H0 as <- <-.
    destruct (g_ble_connections s) eqn:Er.
    + apply ret_inv in H as [[= <- <-] ->]. split; [done|]. by left.
    + apply bind_inv in H as ([] & s1 & H1 & H).
      apply ret_inv in H as [[= <- <-] ->]. split; [done|]. by right.
  - apply bind_inv in H as ([] & s1 & H1 & H). apply say_inv in H1 as ->.
    by apply ret_inv in H as [[= <- <-] ->].
Qed.

Lemma release_log_not_scan s p : Forall (λ ev, is_scan ev = false) (rev (release_log s p)).
Proof.
  apply Forall_rev. unfold release_log. destruct (connection_at s p) as [c|]; [|done].
  destruct (thread c), (addr c); by repeat constructor.
Qed.

Lemma all_waiting_nil s : workers s = [] → all_waiting s.
Proof. intros E t w H. by rewrite E, lookup_nil in H. Qed.

Lemma task_step_preserves i y pc' h' s' :
  system_inv y →
  ble_task_step i (sys_task y) (sys_adapter y) (sys_state y) = Ok (pc', h') s' →
  system_inv (mk_system s' pc' h').
Proof.
  destruct y as [s pc h]. unfold system_inv, task_ok. cbn [sys_state sys_task sys_adapter].
  intros [Hinv Hok] H. apply task_step_inv in H.
  destruct pc, i; try done.
  - (* line 174 *)
    destruct Hok as (Hw & Hg & Hs). destruct H as [-> H].
    destruct (r =? 0)%Z; destruct H as [-> ->].
    + split; [by apply state_inv_emit|]. by split_and!.
    + split; [by repeat apply state_inv_emit|]. simpl. rewrite Hs. by split_and!.
  - (* line 180 *)
    destruct Hok as (Hw & Hg & Hs). destruct H as (-> & -> & _ & ->). split.
    + apply (state_inv_events s (MutexHeld Task) [LockGlobal Task]); [done|auto|].
      by repeat constructor.
    + split_and!; [done| by apply all_waiting_nil |done].
  - (* the scan callback *)
    destruct Hok as (Hg & Ha & Hs). destruct H as (-> & -> & H).
    split; [by eapply discovered_preserves|].
    apply discovered_summary in H as (l & lw & Et & Hl & Eg & Ew & Hlw).
    split_and!.
    + congruence.
    + intros t w Hw. rewrite Ew in Hw. apply lookup_app_Some in Hw as [Hw|[_ Hw]].
      * by eapply Ha.
      * rewrite Forall_forall in Hlw. apply Hlw. by eapply list_elem_of_lookup_2.
    + rewrite Et, scan_status_app; [done|]. by apply discovery_event_not_scan.
  - (* line 181 returns *)
    destruct Hok as (Hg & Ha & Hs). destruct H as [-> H].
    destruct (r =? 0)%Z eqn:Hr; destruct H as [-> ->].
    + apply Z.eqb_eq in Hr as ->. split; [by apply state_inv_emit|]. by split_and!.
    + split; [by repeat apply state_inv_emit|]. simpl. by rewrite Hr.
  - (* line 187 *)
    destruct Hok as (Hg & Ha & Hs). destruct H as (-> & -> & ->).
    split; [by repeat apply state_inv_emit|]. by split_and!.
  - (* line 190 *)
    destruct Hok as (Hg & Ha & Hs). destruct H as (-> & -> & _ & ->). split.
    + apply (state_inv_events s MutexFree [UnlockGlobal Task]); [done|auto|].
      by repeat constructor.
    + split; [by left|done].
  - (* line 193 *)
    destruct Hok as (Hg & Hs). destruct H as [-> [(Er & -> & ->)|(Er & -> & H)]].
    + split; [done|]. by rewrite Hs.
    + split; [by eapply drain_body_preserves|].
      destruct (drain_body_shape s s' Hinv H)
        as (p & rest & c & t & w & _ & Hc & Ht & _ & _ & _ & ->).
      destruct (drained_frame p c t rest s) as (_ & Eg & _). split.
      * unfold lock_free_or_worker. by rewrite Eg.
      * rewrite (drained_trace p c t rest s Hc Ht), scan_status_app; [done|].
        apply release_log_not_scan.
  - (* line 204 *)
    destruct H as (-> & -> & ->). split; [by apply state_inv_emit|].
    cbn [trace emit scan_status g_mutex g_ble_connections workers].
    destruct (scan_status (trace s)) as [r|]; [done|]. by destruct Hok.
Qed.

(** ** Steps of the threads *)

Lemma task_ok_thread s pc h s' :
  task_ok (mk_system s pc h) →
  workers s ≠ [] →
  scan_status (trace s') = scan_status (trace s) →
  g_ble_connections s' = g_ble_connections s →
  (g_mutex s = MutexHeld Task →
   g_mutex s' = MutexHeld Task ∧ (all_waiting s → all_waiting s')) →
  (lock_free_or_worker s → lock_free_or_worker s') →
  task_ok (mk_system s' pc h).
Proof.
  unfold task_ok. cbn [sys_state sys_task]. intros Hok Hne Es Er Hheld Hfree.
  rewrite Es, Er.
  destruct pc; try (by destruct Hok as (? & _)).
  - destruct Hok as (Hg & Ha & Hs). destruct (Hheld Hg). by split_and!; auto.
  - destruct Hok as (Hg & Ha & Hs). destruct (Hheld Hg). by split_and!; auto.
  - destruct Hok as (Hg & Ha & Hs). destruct (Hheld Hg). by split_and!; auto.
  - destruct Hok as (Hg & Hs). split; auto.
  - destruct (scan_status (trace s)) as [r|]; [|by destruct Hok as (? & ? & _)].
    destruct (r =? 0)%Z.
    + destruct Hok. split; auto.
    + destruct Hok as (Hg & Ha). destruct (Hheld Hg). split; auto.
  - destruct (scan_status (trace s)) as [r|]; [|by destruct Hok as (? & ? & _)].
    destruct (r =? 0)%Z.
    + destruct Hok. split; auto.
    + destruct Hok as (Hg & Ha). destruct (Hheld Hg). split; auto.
Qed.

Lemma worker_step_system e t s pc h s' :
  system_inv (mk_system s pc h) → ble_connect_device e t s = Ok tt s' →
  system_inv (mk_system s' pc h).
Proof.
  intros [Hinv Hok] H. split; [by eapply worker_step_preserves|].
  apply worker_step_summary in H
    as (w & w' & l & Hw & Hpc & Ew & Ha & Er & El & Et & Hl & Hg).
  apply (task_ok_thread s); try done.
  - intros E. by rewrite E, lookup_nil in Hw.
  - rewrite Et. by apply scan_status_app, thread_event_not_scan.
  - intros Held. destruct Hg as [(_ & Hg & _)|[(_ & Hg & _)|(Hn & _ & Hg)]]; try congruence.
    split; [congruence|]. intros Hall. by specialize (Hall t w Hw).
  - unfold lock_free_or_worker.
    destruct Hg as [(_ & _ & ->)|[(_ & _ & ->)|(_ & _ & ->)]]; eauto.
Qed.

Lemma callback_step_system e dst conn error t s pc h s' :
  system_inv (mk_system s pc h) →
  on_device_connect_step e h dst conn error t s = Ok tt s' →
  system_inv (mk_system s' pc h).
Proof.
  intros [Hinv Hok] H. split; [by eapply callback_step_preserves|]. simpl in Hinv.
  apply (callback_step_summary _ _ _ _ _ _ _ _ Hinv) in H
    as (w & w1 & l & Hw & Hact & Ew & Ha & Hpc & Er & El & Eg & Et & Hl).
  apply (task_ok_thread s); try done.
  - intros E. by rewrite E, lookup_nil in Hw.
  - rewrite Et. by apply scan_status_app, thread_event_not_scan.
  - intros Held. split; [congruence|]. intros Hall t' w' Hw'. rewrite Ew in Hw'.
    apply list_lookup_insert_Some in Hw' as [(-> & <- & _)|[_ Hw']].
    + pose proof (Hall t' w Hw) as E. destruct Hpc as [->|[E' _]]; congruence.
    + by apply (Hall t').
  - unfold lock_free_or_worker. by rewrite Eg.
Qed.

(** ** Every reachable state satisfies the invariant *)

Lemma step_preserves a y y' : system_inv y → step a y = Some y' → system_inv y'.
Proof.
  intros Hinv H. unfold step in H.
  destruct (step_result a y) as [[pc' h'] s'| | |] eqn:E; [|done..].
  injection H as <-. destruct a as [i|t e|t dst conn error e]; simpl in E.
  - by eapply task_step_preserves.
  - destruct y as [s pc h]. simpl in E.
    apply bind_inv in E as ([] & s1 & H1 & E). apply ret_inv in E as [[= <- <-] <-].
    by eapply worker_step_system.
  - destruct y as [s pc h]. simpl in E.
    apply bind_inv in E as ([] & s1 & H1 & E). apply ret_inv in E as [[= <- <-] <-].
    by eapply callback_step_system.
Qed.

Lemma run_preserves l y y' : system_inv y → run l y = Some y' → system_inv y'.
Proof.
  revert y. induction l as [|a l IH]; intros y Hinv H; simpl in H.
  - by injection H as <-.
  - destruct (step a y) as [y1|] eqn:E; [|done].
    eapply IH; [|done]. by eapply step_preserves.
Qed.

Lemma system_inv_initial : system_inv initial_system.
Proof. split; [apply state_inv_initial|]. by split_and!. Qed.

Lemma reachable_inv y : reachable y → system_inv y.
Proof. intros [l H]. eapply run_preserves; [apply system_inv_initial|done]. Qed.

(** ** When an operation can be performed *)

Lemma lock_done_eq s p c o :
  connection_at s p = Some c → done_mutex c = MutexFree →
  pthread_mutex_lock_done p o s
  = Ok tt (emit (LockDone p o) (put_connection p (set_done_mutex (MutexHeld o) c) s)).
Proof.
  intros H Hm. unfold pthread_mutex_lock_done.
  rewrite (bind_ok _ _ _ _ _ (load_connection_eq _ _ _ H)), Hm.
  by rewrite (bind_ok _ _ _ _ _ (store_connection_eq _ _ _ _ H)).
Qed.

Lemma lock_done_held s p c o o' :
  connection_at s p = Some c → done_mutex c = MutexHeld o' →
  pthread_mutex_lock_done p o s = Hang s.
Proof.
  intros H Hm. unfold pthread_mutex_lock_done.
  by rewrite (bind_ok _ _ _ _ _ (load_connection_eq _ _ _ H)), Hm.
Qed.

Lemma unlock_done_eq s p c o :
  connection_at s p = Some c → done_mutex c = MutexHeld o →
  pthread_mutex_unlock_done p o s
  = Ok tt (emit (UnlockDone p o) (put_connection p (set_done_mutex MutexFree c) s)).
Proof.
  intros H Hm. unfold pthread_mutex_unlock_done.
  rewrite (bind_ok _ _ _ _ _ (load_connection_eq _ _ _ H)).
  rewrite decide_True by done.
  by rewrite (bind_ok _ _ _ _ _ (store_connection_eq _ _ _ _ H)).
Qed.

Lemma cond_wait_eq s p c o :
  connection_at s p = Some c → done_cond c = CondReady → done_mutex c = MutexHeld o →
  pthread_cond_wait p o s
  = Ok tt (emit (CondWait p o)
             (emit (UnlockDone p o) (put_connection p (set_done_mutex MutexFree c) s))).
Proof.
  intros H Hd Hm. unfold pthread_cond_wait.
  rewrite (bind_ok _ _ _ _ _ (load_connection_eq _ _ _ H)), Hd.
  by rewrite (bind_ok _ _ _ _ _ (unlock_done_eq _ _ _ _ H Hm)).
Qed.

Lemma cond_signal_eq s p c o :
  connection_at s p = Some c → done_cond c = CondReady →
  pthread_cond_signal p o s
  = Ok tt (emit (CondSignal p o) (with_workers (wake_on p <$> workers s) s)).
Proof.
  intros H Hm. unfold pthread_cond_signal.
  by rewrite (bind_ok _ _ _ _ _ (load_connection_eq _ _ _ H)), Hm.
Qed.

Lemma task_ok_lock_usable y : task_ok y → lock_usable (sys_state y).
Proof.
  destruct y as [s pc h]. unfold task_ok, lock_usable, lock_free_or_worker. simpl.
  intros H. destruct pc;
    try (destruct (scan_status (trace s)) as [r|]; [destruct (r =? 0)%Z|]);
    destruct H as (? & ?); try (by left);
    repeat match goal with
           | H : _ ∧ _ |- _ => destruct H
           | H : _ ∨ _ |- _ => destruct H
           | H : ∃ _, _ |- _ => destruct H
           end; eauto.
Qed.

Ltac worker_run Hc0 :=
  rewrite ?(bind_ok _ _ _ _ _ (load_connection_eq _ _ _ Hc0)).

(** A worker is blocked only at line 110 while [g_mutex] is taken, at lines
    119 and 121 while its callback holds [done_mutex], and while it sleeps on
    the condition; everything else it does is defined, provided the record
    has an address string when the worker starts. *)
Lemma worker_step_total e t s w :
  state_inv s → thread_inv s → lock_usable s → workers s !! t = Some w →
  (w_pc w = W110 → ∀ c, connection_at s (w_arg w) = Some c → is_Some (addr c)) →
  if worker_enabled e s w then ∃ s', ble_connect_device e t s = Ok tt s'
  else ble_connect_device e t s = Hang s.
Proof.
  intros Hinv Hth Hlock Hw Haddr. pose proof (inv_workers _ Hinv t w Hw) as K.
  pose proof (wk_cs _ _ _ K) as Kcs. pose proof (wk_excl _ _ _ K) as Kexcl.
  destruct (Hth t w Hw) as (_ & _ & Hpast).
  destruct (worker_enabled e s w) eqn:Hen; unfold worker_enabled in Hen;
    unfold ble_connect_device; unfold bind at 1; unfold get; rewrite Hw.
  - assert (w_pc w ≠ W127) as Hlive by (intros E; by rewrite E in Hen).
    destruct (worker_alive s t w Hinv Hw Hlive) as (Hin & c & Hc & Ht & Hm & Hd).
    unfold expected_done_mutex in Hm.
    assert (is_Some (addr c)) as [a Ha].
    { destruct (decide (w_pc w = W110)) as [E|E]; [by eapply Haddr|].
      destruct (Hpast E Hlive) as (c' & Hc' & Ha'). congruence. }
    destruct (w_pc w) eqn:Hpc; simpl in *; worker_run Hc.
    + (* line 110 *)
      apply bool_decide_eq_true in Hen.
      unfold pthread_mutex_lock_global. unfold bind at 1. unfold bind at 1. unfold get.
      rewrite Hen, Ha. by eexists.
    + (* line 113 *)
      rewrite Ha. unfold log_s, say, set_worker, modify, bind, ret.
      destruct (negb _); by eexists.
    + (* line 119 *)
      apply negb_true_iff in Hen. rewrite Hen in Hm.
      rewrite (bind_ok _ _ _ _ _ (lock_done_eq _ _ _ _ Hc Hm)). by eexists.
    + (* line 120 *)
      by eexists.
    + (* line 121, going to sleep *)
      destruct (wf_record _ (inv_registry _ Hinv) _ Hin)
        as (c' & ? & ? & Hc' & _ & _ & _ & Hcond).
      assert (c' = c) as -> by congruence.
      rewrite (bind_ok _ _ _ _ _ (cond_wait_eq _ _ _ _ Hc Hcond Hm)). by eexists.
    + (* line 121, asleep *)
      rewrite Hen. by eexists.
    + (* line 121, waking *)
      apply negb_true_iff in Hen. rewrite Hen in Hm.
      rewrite (bind_ok _ _ _ _ _ (lock_done_eq _ _ _ _ Hc Hm)). by eexists.
    + (* line 123 *)
      rewrite (bind_ok _ _ _ _ _ (unlock_done_eq _ _ _ _ Hc Hm)), Ha. by eexists.
    + (* line 126 *)
      assert (g_mutex s = MutexHeld (Worker t)) as Hg by by apply Kcs.
      unfold pthread_mutex_unlock_global. unfold bind at 1. unfold bind at 1. unfold get.
      rewrite decide_True by done. by eexists.
    + done.
  - destruct (decide (w_pc w = W127)) as [E|Hlive]; [by rewrite E|].
    destruct (worker_alive s t w Hinv Hw Hlive) as (Hin & c & Hc & Ht & Hm & Hd).
    unfold expected_done_mutex in Hm.
    destruct (w_pc w) eqn:Hpc; simpl in *; try done; worker_run Hc.
    + apply bool_decide_eq_false in Hen.
      unfold pthread_mutex_lock_global. unfold bind at 1. unfold bind at 1. unfold get.
      destruct Hlock as [Hg|[o Hg]]; [done|]. by rewrite Hg.
    + apply negb_false_iff in Hen. rewrite Hen in Hm.
      unfold bind at 1. by rewrite (lock_done_held _ _ _ _ _ Hc Hm).
    + by rewrite Hen.
    + apply negb_false_iff in Hen. rewrite Hen in Hm.
      unfold bind at 1. by rewrite (lock_done_held _ _ _ _ _ Hc Hm).
Qed.

(** The callback is blocked only at line 98 while its worker holds
    [done_mutex]; everything else it does is defined. *)
Lemma callback_step_total e adapter dst conn error t s w :
  state_inv s → workers s !! t = Some w →
  if callback_enabled w
  then ∃ s', on_device_connect_step e adapter dst conn error t s = Ok tt s'
  else on_device_connect_step e adapter dst conn error t s = Hang s.
Proof.
  intros Hinv Hw. pose proof (inv_workers _ Hinv t w Hw) as K.
  pose proof (wk_excl _ _ _ K) as Kexcl.
  destruct (callback_enabled w) eqn:Hen; unfold callback_enabled in Hen;
    unfold on_device_connect_step; unfold bind at 1; unfold get; rewrite Hw.
  - assert (session_active (w_cb w) = true) as Hact by by destruct (w_cb w).
    assert (w_pc w ≠ W127) as Hlive.
    { intros E. pose proof (wk_late _ _ _ K) as Kl. rewrite E in Kl.
      rewrite (Kl eq_refl) in Hact. done. }
    destruct (worker_alive s t w Hinv Hw Hlive) as (Hin & c & Hc & Ht & Hm & Hd).
    destruct (wf_record _ (inv_registry _ Hinv) _ Hin) as (c' & ? & ? & Hc' & _ & _ & _ & Hcond).
    assert (c' = c) as -> by congruence.
    unfold expected_done_mutex in Hm.
    destruct (w_cb w) eqn:Hcb; simpl in *; try done.
    + (* lines 62-95 *)
      rewrite (bind_ok _ _ _ _ _ (gatt_session_log _ _ _ _)). by eexists.
    + (* line 98 *)
      apply negb_true_iff in Hen. rewrite Hen in Hm. unfold signal_lock.
      rewrite (bind_ok _ _ _ _ _ (lock_done_eq _ _ _ _ Hc Hm)). by eexists.
    + (* line 99 *)
      assert (signal_set (w_arg w) (Callback t) s
              = Ok tt (emit (SetDone (w_arg w) (Callback t))
                         (put_connection (w_arg w) (set_is_done true c) s))) as E.
      { unfold signal_set. by rewrite (bind_ok _ _ _ _ _ (store_connection_eq _ _ _ _ Hc)). }
      rewrite (bind_ok _ _ _ _ _ E). by eexists.
    + (* line 100 *)
      unfold signal_cond. rewrite (bind_ok _ _ _ _ _ (cond_signal_eq _ _ _ _ Hc Hcond)).
      unfold bind at 1. unfold get. cbn [workers emit with_workers].
      rewrite list_lookup_fmap, Hw. by eexists.
    + (* line 101 *)
      assert (worker_holds_done (w_pc w) = false) as Hwh.
      { destruct (worker_holds_done (w_pc w)); [by specialize (Kexcl eq_refl)|done]. }
      rewrite Hwh in Hm. unfold signal_unlock.
      rewrite (bind_ok _ _ _ _ _ (unlock_done_eq _ _ _ _ Hc Hm)). by eexists.
  - destruct (w_cb w) eqn:Hcb; simpl in *; try done.
    apply negb_false_iff in Hen.
    assert (w_pc w ≠ W127) as Hlive by (intros E; by rewrite E in Hen).
    destruct (worker_alive s t w Hinv Hw Hlive) as (Hin & c & Hc & Ht & Hm & Hd).
    unfold expected_done_mutex in Hm. rewrite Hen in Hm.
    unfold signal_lock. unfold bind at 1. by rewrite (lock_done_held _ _ _ _ _ Hc Hm).
Qed.

(** ** Every operation of a reachable state is defined *)

Lemma discovered_returns e adapter a name s :
  ∃ s', ble_discovered_device e adapter a name s = Ok tt s'.
Proof.
  destruct (decide (name = Some CONNECT_DEVICE_NAME)) as [->|Hn].
  2:{ destruct (discovered_rejected e adapter a name s Hn) as [ev ->]. by eexists. }
  destruct (calloc_ok e) eqn:Hc.
  2:{ rewrite discovered_no_memory by done. by eexists. }
  destruct (decide (pthread_create_ret e = 0%Z)) as [Hr|Hr].
  2:{ rewrite discovered_no_thread by done. by eexists. }
  rewrite discovered_accepted by done. by eexists.
Qed.

Lemma task_step_total i y :
  system_inv y → defined (ble_task_step i (sys_task y) (sys_adapter y) (sys_state y)).
Proof.
  destruct y as [s pc h]. intros [Hinv Hok]. unfold task_ok in Hok.
  cbn [sys_state sys_task sys_adapter] in *.
  destruct pc, i; try done; unfold ble_task_step.
  - unfold bind, get, say, modify, ret. by destruct (negb _).
  - destruct Hok as (_ & Hg & _).
    unfold pthread_mutex_lock_global, bind, get. by rewrite Hg.
  - destruct (discovered_returns (adv_env a) h (adv_addr a) (adv_name a) s) as [s' E].
    by rewrite (bind_ok _ _ _ _ _ E).
  - unfold bind, get, say, modify, ret. by destruct (negb _).
  - destruct Hok as (Hg & _).
    unfold pthread_mutex_unlock_global, bind, get. by rewrite decide_True.
  - unfold bind at 1. unfold get. destruct (g_ble_connections s) as [|p rest] eqn:Er; [done|].
    assert (p ∈ g_ble_connections s) as Hin by (rewrite Er; left).
    pose proof (inv_registry _ Hinv) as W.
    destruct (wf_record _ W p Hin) as (c & t & w & Hc & Ht & Hw & Ha & _).
    unfold bind. rewrite (drain_body_eq (finished s) s p rest c t W); try done.
    + by destruct (finished s t).
    + intros Hf.
      by destruct (finished_record s p rest c t Hinv Er Hc Ht Hf) as (? & ? & ? & ? & ? & ? & ?).
Qed.

Lemma step_total a y :
  full_inv y → has_addresses (sys_state y) → defined (step_result a y).
Proof.
  intros [Hinv Hth] Hadd. destruct a as [i|t e|t dst conn error e]; simpl.
  - by apply task_step_total.
  - destruct Hinv as [Hinv Hok]. apply task_ok_lock_usable in Hok.
    destruct (workers (sys_state y) !! t) as [w|] eqn:Hw.
    + assert (w_pc w = W110 → ∀ c, connection_at (sys_state y) (w_arg w) = Some c →
                                   is_Some (addr c)) as Ha.
      { intros Hpc c Hc. apply (Hadd (w_arg w) c); [|done].
        apply (wk_alive _ _ _ (inv_workers _ Hinv t w Hw)). by rewrite Hpc. }
      pose proof (worker_step_total e t _ w Hinv Hth Hok Hw Ha) as H. unfold bind.
      destruct (worker_enabled e (sys_state y) w); [destruct H as [s' ->]|rewrite H]; done.
    + unfold ble_connect_device, bind, get. by rewrite Hw.
  - destruct Hinv as [Hinv Hok].
    destruct (workers (sys_state y) !! t) as [w|] eqn:Hw.
    + pose proof (callback_step_total e (sys_adapter y) dst conn error t _ w Hinv Hw) as H.
      unfold bind.
      destruct (callback_enabled w); [destruct H as [s' ->]|rewrite H]; done.
    + unfold on_device_connect_step, bind, get. by rewrite Hw.
Qed.

(** ** Steps seen from the system *)

Lemma worker_step_run e t y s' :
  ble_connect_device e t (sys_state y) = Ok tt s' →
  step (ActWorker t e) y = Some (mk_system s' (sys_task y) (sys_adapter y)).
Proof. intros H. unfold step, step_result, bind. by rewrite H. Qed.

Lemma worker_step_back e t y y' :
  step (ActWorker t e) y = Some y' →
  ble_connect_device e t (sys_state y) = Ok tt (sys_state y')
  ∧ sys_task y' = sys_task y ∧ sys_adapter y' = sys_adapter y.
Proof.
  unfold step, step_result, bind.
  destruct (ble_connect_device e t (sys_state y)) as [[] s'| | |]; try done.
  unfold ret. by intros [= <-].
Qed.

Lemma callback_step_back e t dst conn error y y' :
  step (ActCallback t dst conn error e) y = Some y' →
  on_device_connect_step e (sys_adapter y) dst conn error t (sys_state y)
  = Ok tt (sys_state y')
  ∧ sys_task y' = sys_task y ∧ sys_adapter y' = sys_adapter y.
Proof.
  unfold step, step_result, bind.
  destruct (on_device_connect_step e (sys_adapter y) dst conn error t (sys_state y))
    as [[] s'| | |]; try done.
  unfold ret. by intros [= <-].
Qed.

Lemma task_step_back i y y' :
  step (ActTask i) y = Some y' →
  ble_task_step i (sys_task y) (sys_adapter y) (sys_state y)
  = Ok (sys_task y', sys_adapter y') (sys_state y').
Proof.
  unfold step, step_result.
  destruct (ble_task_step i (sys_task y) (sys_adapter y) (sys_state y))
    as [[pc h] s'| | |]; try done.
  by intros [= <-].
Qed.

(** What a step of the controller leaves alone: the threads that exist, and
    everything its events do not mention. *)
Lemma task_step_frame i pc h s pc' h' s' :
  state_inv s → ble_task_step i pc h s = Ok (pc', h') s' →
  ∃ lw l, workers s' = workers s ++ lw ∧ trace s' = l ++ trace s
          ∧ Forall (λ ev, task_event ev = true) l
          ∧ Forall (λ w, w_pc w = W110) lw.
Proof.
  intros Hinv H. pose proof H as H0. apply task_step_inv in H.
  destruct pc, i; try done.
  - destruct H as [-> H]. destruct (r =? 0)%Z; destruct H as [-> ->].
    + eexists [], [_]. rewrite app_nil_r. split_and!; try done. by repeat constructor.
    + eexists [], [_; _]. rewrite app_nil_r. split_and!; try done. by repeat constructor.
  - destruct H as (-> & -> & _ & ->).
    eexists [], [_]. rewrite app_nil_r. split_and!; try done. by repeat constructor.
  - destruct H as (-> & -> & H).
    apply discovered_summary in H as (l & lw & Et & Hl & _ & Ew & Hlw).
    exists lw, l. split_and!; try done.
    eapply Forall_impl; [exact Hl|]. intros ev. by destruct ev.
  - destruct H as [-> H]. destruct (r =? 0)%Z; destruct H as [-> ->].
    + eexists [], [_]. rewrite app_nil_r. split_and!; try done. by repeat constructor.
    + eexists [], [_; _]. rewrite app_nil_r. split_and!; try done. by repeat constructor.
  - destruct H as (-> & -> & ->).
    eexists [], [_; _]. rewrite app_nil_r. split_and!; try done. by repeat constructor.
  - destruct H as (-> & -> & _ & ->).
    eexists [], [_]. rewrite app_nil_r. split_and!; try done. by repeat constructor.
  - destruct H as [-> [(Er & -> & ->)|(Er & -> & H)]].
    + exists [], []. rewrite app_nil_r. by split_and!.
    + destruct (drain_body_shape s s' Hinv H)
        as (p & rest & c & t & w & _ & Hc & Ht & _ & _ & _ & ->).
      destruct (drained_frame p c t rest s) as (Ew & _).
      exists [], (rev (release_log s p)). rewrite app_nil_r. split_and!; try done.
      * by apply drained_trace.
      * apply Forall_rev. unfold release_log. rewrite Hc, Ht.
        destruct (addr c); by repeat constructor.
  - destruct H as (-> & -> & ->).
    eexists [], [_]. rewrite app_nil_r. split_and!; try done. by repeat constructor.
Qed.

Lemma discovered_heap e adapter a name s s' :
  ble_discovered_device e adapter a name s = Ok tt s' → ∃ lh, heap s' = heap s ++ lh.
Proof.
  destruct (decide (name = Some CONNECT_DEVICE_NAME)) as [->|Hn].
  2:{ destruct (discovered_rejected e adapter a name s Hn) as [ev ->].
      intros [= <-]. exists []. simpl. by rewrite app_nil_r. }
  destruct (calloc_ok e) eqn:Hc.
  2:{ rewrite discovered_no_memory by done. intros [= <-].
      exists []. simpl. by rewrite app_nil_r. }
  destruct (decide (pthread_create_ret e = 0%Z)) as [Hr|Hr].
  2:{ rewrite discovered_no_thread by done. intros [= <-]. by eexists. }
  rewrite discovered_accepted by done. intros [= <-]. by eexists.
Qed.

(** A step of the controller leaves the record of every worker that has not
    returned as it is. *)
Lemma task_step_records i pc h s pc' h' s' :
  state_inv s → ble_task_step i pc h s = Ok (pc', h') s' →
  ∀ t w, workers s !! t = Some w → w_pc w ≠ W127 →
         connection_at s' (w_arg w) = connection_at s (w_arg w).
Proof.
  intros Hinv H t w Hw Hpc.
  destruct (worker_alive s t w Hinv Hw Hpc) as (Hin & c & Hc & _).
  apply task_step_inv in H. destruct pc, i; try done.
  - destruct H as [-> H]. by destruct (r =? 0)%Z; destruct H as [-> ->].
  - by destruct H as (-> & -> & _ & ->).
  - destruct H as (-> & -> & H). apply discovered_heap in H as [lh Eh].
    rewrite Hc. by eapply connection_at_grow.
  - destruct H as [-> H]. by destruct (r =? 0)%Z; destruct H as [-> ->].
  - by destruct H as (-> & -> & ->).
  - by destruct H as (-> & -> & _ & ->).
  - destruct H as [-> [(Er & -> & ->)|(Er & -> & H)]]; [done|].
    destruct (drain_body_shape s s' Hinv H)
      as (p & rest & c0 & t0 & w0 & Er0 & Hc0 & Ht0 & Hw0 & Ha0 & Hpc0 & ->).
    assert (w_arg w ∈ rest) as Hrest.
    { rewrite Er0 in Hin. apply elem_of_cons in Hin as [E|Hin]; [|done].
      assert (t = t0) as -> by (apply (inv_inj _ Hinv t t0 w w0); congruence).
      congruence. }
    rewrite Hc. eapply drained_connection_at; try done. apply Hinv.
  - by destruct H as (-> & -> & ->).
Qed.

Lemma connection_at_update_ne g r t w' l s q :
  match r with Some (p, _) => p ≠ q | None => True end →
  connection_at (update g r t w' l s) q = connection_at s q.
Proof.
  intros H. unfold connection_at, update. simpl. destruct r as [[p c]|]; [|done].
  by rewrite list_lookup_insert_ne.
Qed.

(** ** The wait of every worker *)

Lemma thread_inv_other s g r t0 w0 w0' l :
  state_inv s → thread_inv s → workers s !! t0 = Some w0 →
  match r with Some (p, _) => p = w_arg w0 | None => True end →
  ∀ t w, t ≠ t0 → workers (update g r t0 w0' l s) !! t = Some w →
    (w_pc w = W121 → callback_has_set (w_cb w) = false)
    ∧ (w_pc w = W121s → callback_has_signalled (w_cb w) = false)
    ∧ (w_pc w ≠ W110 → w_pc w ≠ W127 →
       ∃ c, connection_at (update g r t0 w0' l s) (w_arg w) = Some c ∧ is_Some (addr c)).
Proof.
  intros Hinv Hth Hw0 Hr t w Hne Hw. simpl in Hw.
  rewrite list_lookup_insert_ne in Hw by done.
  destruct (Hth t w Hw) as (Ha & Hb & Hc). split_and!; [done..|].
  intros H1 H2. destruct (Hc H1 H2) as (c & Hc' & Hadd). exists c. split; [|done].
  rewrite connection_at_update_ne; [done|]. destruct r as [[p c1]|]; [|done].
  subst p. intros E. apply Hne. by apply (inv_inj _ Hinv t t0 w w0).
Qed.

Lemma thread_inv_own s g r t w w' l c c' :
  workers s !! t = Some w → w_arg w' = w_arg w →
  connection_at s (w_arg w) = Some c →
  match r with
  | Some (p, c1) => p = w_arg w ∧ c1 = c'
  | None => c' = c
  end →
  (w_pc w' = W121 → callback_has_set (w_cb w') = false) →
  (w_pc w' = W121s → callback_has_signalled (w_cb w') = false) →
  (w_pc w' ≠ W110 → w_pc w' ≠ W127 → is_Some (addr c')) →
  ∀ w1, workers (update g r t w' l s) !! t = Some w1 →
    (w_pc w1 = W121 → callback_has_set (w_cb w1) = false)
    ∧ (w_pc w1 = W121s → callback_has_signalled (w_cb w1) = false)
    ∧ (w_pc w1 ≠ W110 → w_pc w1 ≠ W127 →
       ∃ c1, connection_at (update g r t w' l s) (w_arg w1) = Some c1 ∧ is_Some (addr c1)).
Proof.
  intros Hw Harg Hc Hr Ha Hb Hadd w1 Hw1. simpl in Hw1.
  rewrite list_lookup_insert_eq in Hw1 by by eapply lookup_lt_Some.
  injection Hw1 as <-. split_and!; [done..|].
  intros H1 H2. exists c'. split; [|by apply Hadd]. rewrite Harg.
  destruct r as [[p c1]|].
  - destruct Hr as [-> ->]. by eapply connection_at_update_some.
  - subst c'. by rewrite connection_at_update_none.
Qed.

Ltac own_tac :=
  simpl; try done;
  try (intros; simplify_eq; done);
  try (intros _ _; done).

Ltac other_tac :=
  repeat match goal with
         | H : ∃ _, _ |- _ => destruct H as [? H]
         | H : _ ∧ _ |- _ => destruct H as [? ?]
         end;
  match goal with
  | E : sys_state _ = update _ _ _ _ _ _, Hw : workers _ !! _ = Some _ |- _ =>
      rewrite E in Hw |- *
  end.

Lemma thread_inv_step a y y' :
  system_inv y → thread_inv (sys_state y) → step a y = Some y' →
  thread_inv (sys_state y').
Proof.
  intros [Hinv _] Hth Hstep t w Hw.
  destruct a as [i|t0 e|t0 dst conn error e].
  - apply task_step_back in Hstep.
    destruct (task_step_frame _ _ _ _ _ _ _ Hinv Hstep) as (lw & l & Ew & _ & _ & Hlw).
    rewrite Ew in Hw. apply lookup_app_Some in Hw as [Hw|[_ Hw]].
    + destruct (Hth t w Hw) as (Ha & Hb & Hc). split_and!; [done..|].
      intros H1 H2. rewrite (task_step_records _ _ _ _ _ _ _ Hinv Hstep t w Hw H2).
      by apply Hc.
    + rewrite Forall_forall in Hlw. apply list_elem_of_lookup_2 in Hw.
      rewrite (Hlw _ Hw). by split_and!.
  - apply worker_step_back in Hstep as (Hstep & _).
    apply worker_step_inv in Hstep as (w0 & Hw0 & H).
    assert (w_pc w0 ≠ W127) as Hlive by (intros E; by rewrite E in H).
    destruct (worker_alive _ t0 w0 Hinv Hw0 Hlive) as (_ & c0 & Hc0 & _ & _ & Hd0).
    destruct (Hth t0 w0 Hw0) as (Ha0 & Hb0 & Hadd0).
    destruct (decide (t = t0)) as [->|Hne].
    + destruct (w_pc w0) eqn:Hpc; cbv zeta in H.
      * destruct H as (c & Hc & _ & H & Hs). rewrite H in Hw |- *.
        assert (c = c0) as -> by congruence.
        by eapply (thread_inv_own _ _ _ _ w0 _ _ c0 c0); own_tac.
      * destruct H as (c & Hc & H). rewrite H in Hw |- *.
        destruct (Hadd0 ltac:(done) ltac:(done)) as (c1 & Hc1 & Hs1).
        assert (c1 = c0) as -> by congruence.
        by eapply (thread_inv_own _ _ _ _ w0 _ _ c0 c0); own_tac.
      * destruct H as (c & Hc & _ & H). rewrite H in Hw |- *.
        destruct (Hadd0 ltac:(done) ltac:(done)) as (c1 & Hc1 & Hs1).
        assert (c1 = c0) as -> by congruence. assert (c = c0) as -> by congruence.
        by eapply (thread_inv_own _ _ _ _ w0 _ _ c0 (set_done_mutex _ c0)); own_tac.
      * destruct H as (c & Hc & H). rewrite H in Hw |- *.
        destruct (Hadd0 ltac:(done) ltac:(done)) as (c1 & Hc1 & Hs1).
        assert (c1 = c0) as -> by congruence. assert (c = c0) as -> by congruence.
        eapply (thread_inv_own _ _ _ _ w0 _ _ c0 c0); own_tac.
        -- rewrite <- Hd0. by destruct (is_done c0).
        -- by destruct (is_done c0).
      * destruct H as (c & Hc & _ & H). rewrite H in Hw |- *.
        destruct (Hadd0 ltac:(done) ltac:(done)) as (c1 & Hc1 & Hs1).
        assert (c1 = c0) as -> by congruence. assert (c = c0) as -> by congruence.
        eapply (thread_inv_own _ _ _ _ w0 _ _ c0 (set_done_mutex _ c0)); own_tac.
        intros _. specialize (Ha0 eq_refl). by destruct (w_cb w0).
      * destruct H as (_ & H). rewrite H in Hw |- *.
        destruct (Hadd0 ltac:(done) ltac:(done)) as (c1 & Hc1 & Hs1).
        assert (c1 = c0) as -> by congruence.
        by eapply (thread_inv_own _ _ _ _ w0 _ _ c0 c0); own_tac.
      * destruct H as (c & Hc & _ & H). rewrite H in Hw |- *.
        destruct (Hadd0 ltac:(done) ltac:(done)) as (c1 & Hc1 & Hs1).
        assert (c1 = c0) as -> by congruence. assert (c = c0) as -> by congruence.
        by eapply (thread_inv_own _ _ _ _ w0 _ _ c0 (set_done_mutex _ c0)); own_tac.
      * destruct H as (c & Hc & _ & H). rewrite H in Hw |- *.
        destruct (Hadd0 ltac:(done) ltac:(done)) as (c1 & Hc1 & Hs1).
        assert (c1 = c0) as -> by congruence. assert (c = c0) as -> by congruence.
        by eapply (thread_inv_own _ _ _ _ w0 _ _ c0 (set_done_mutex _ c0)); own_tac.
      * destruct H as (_ & H). rewrite H in Hw |- *.
        by eapply (thread_inv_own _ _ _ _ w0 _ _ c0 c0); own_tac.
      * done.
    + destruct (w_pc w0) eqn:Hpc; cbv zeta in H; try done; other_tac;
        by eapply (thread_inv_other _ _ _ t0 w0).
  - apply callback_step_back in Hstep as (Hstep & _).
    apply (callback_step_upd _ _ _ _ _ _ _ _ Hinv) in Hstep as (w0 & Hw0 & H).
    pose proof (inv_workers _ Hinv t0 w0 Hw0) as K.
    pose proof (wk_excl _ _ _ K) as Kx.
    assert (w_pc w0 ≠ W127) as Hlive.
    { intros E. pose proof (wk_late _ _ _ K) as Kl. rewrite E in Kl.
      rewrite (Kl eq_refl) in H. done. }
    assert (w_pc w0 ≠ W110) as Hstarted.
    { intros E. pose proof (wk_early _ _ _ K) as Ke. rewrite E in Ke.
      rewrite (Ke eq_refl) in H. done. }
    destruct (worker_alive _ t0 w0 Hinv Hw0 Hlive) as (_ & c0 & Hc0 & _ & _ & Hd0).
    destruct (Hth t0 w0 Hw0) as (Ha0 & Hb0 & Hadd0).
    destruct (Hadd0 Hstarted Hlive) as (c1 & Hc1 & Hs1).
    assert (c1 = c0) as -> by congruence.
    destruct (decide (t = t0)) as [->|Hne].
    + destruct (w_cb w0) eqn:Hcb; cbv zeta in H; try done.
      * rewrite H in Hw |- *.
        by eapply (thread_inv_own _ _ _ _ w0 _ _ c0 c0); own_tac.
      * destruct H as (c & Hc & _ & H). rewrite H in Hw |- *.
        assert (c = c0) as -> by congruence.
        by eapply (thread_inv_own _ _ _ _ w0 _ _ c0 (set_done_mutex _ c0)); own_tac.
      * destruct H as (c & Hc & H). rewrite H in Hw |- *.
        assert (c = c0) as -> by congruence.
        eapply (thread_inv_own _ _ _ _ w0 _ _ c0 (set_is_done true c0)); own_tac.
        intros E. rewrite E in Kx. by specialize (Kx eq_refl).
      * destruct H as (c & Hc & _ & H). rewrite H in Hw |- *.
        eapply (thread_inv_own _ _ _ _ w0 _ _ c0 c0); own_tac.
        -- intros E. assert (w_pc w0 = W121) as E' by by destruct (w_pc w0).
           rewrite E' in Kx. by specialize (Kx eq_refl).
        -- by destruct (w_pc w0).
      * destruct H as (c & Hc & _ & H). rewrite H in Hw |- *.
        assert (c = c0) as -> by congruence.
        by eapply (thread_inv_own _ _ _ _ w0 _ _ c0 (set_done_mutex _ c0)); own_tac.
    + destruct (w_cb w0) eqn:Hcb; cbv zeta in H; try done; other_tac;
        by eapply (thread_inv_other _ _ _ t0 w0).
Qed.

Lemma full_inv_step a y y' : full_inv y → step a y = Some y' → full_inv y'.
Proof.
  intros [Hsys Hth] Hstep. split; [by eapply step_preserves | by eapply thread_inv_step].
Qed.

Lemma full_inv_run l y y' : full_inv y → run l y = Some y' → full_inv y'.
Proof.
  revert y. induction l as [|a l IH]; intros y Hinv H; simpl in H.
  - by injection H as <-.
  - destruct (step a y) as [y1|] eqn:E; [|done].
    eapply IH; [|done]. by eapply full_inv_step.
Qed.

Lemma reachable_full y : reachable y → full_inv y.
Proof.
  intros [l H]. eapply full_inv_run; [|done]. split; [apply system_inv_initial|].
  intros t w Hw. simpl in Hw. by rewrite lookup_nil in Hw.
Qed.

(** The next operation of a worker that is past line 111 and not blocked. *)
Lemma worker_advance e t y w :
  full_inv y → workers (sys_state y) !! t = Some w → w_pc w ≠ W110 →
  worker_enabled e (sys_state y) w = true →
  ∃ y', step (ActWorker t e) y = Some y' ∧ full_inv y'
        ∧ workers (sys_state y') !! t
          = Some (mk_worker (w_arg w) (next_pc w) (next_cb e w))
        ∧ (w_pc w = W126 → g_mutex (sys_state y') = MutexFree).
Proof.
  intros Hfull Hw Hstarted Hen. pose proof Hfull as [[Hinv Hok] Hth].
  pose proof (worker_step_total e t _ w Hinv Hth (task_ok_lock_usable _ Hok) Hw
                ltac:(done)) as H.
  rewrite Hen in H. destruct H as [s' H].
  exists (mk_system s' (sys_task y) (sys_adapter y)).
  split; [by apply worker_step_run|].
  split; [eapply full_inv_step; [done|by apply worker_step_run]|].
  assert (t < length (workers (sys_state y))) as Hlt by by eapply lookup_lt_Some.
  cbn [sys_state]. apply worker_step_inv in H as (w0 & Hw0 & H).
  assert (w0 = w) as -> by congruence.
  assert (w_pc w ≠ W127) as Hlive by (intros E; by rewrite E in H).
  destruct (worker_alive _ t w Hinv Hw Hlive) as (_ & c0 & Hc0 & _ & _ & Hd0).
  unfold next_pc, next_cb.
  destruct (w_pc w) eqn:Hpc; cbv zeta in H.
  - done.
  - destruct H as (c & _ & ->). simpl. by rewrite list_lookup_insert_eq.
  - destruct H as (c & _ & _ & ->). simpl. by rewrite list_lookup_insert_eq.
  - destruct H as (c & Hc & ->). assert (c = c0) as -> by congruence.
    simpl. rewrite list_lookup_insert_eq by done. unfold goes. by rewrite Hd0.
  - destruct H as (c & _ & _ & ->). simpl. by rewrite list_lookup_insert_eq.
  - destruct H as (_ & ->). simpl. by rewrite list_lookup_insert_eq.
  - destruct H as (c & _ & _ & ->). simpl. by rewrite list_lookup_insert_eq.
  - destruct H as (c & _ & _ & ->). simpl. by rewrite list_lookup_insert_eq.
  - destruct H as (_ & ->). simpl. by rewrite list_lookup_insert_eq.
  - done.
Qed.

Lemma worker_step_plain e t s s' :
  ble_connect_device e t s = Ok tt s' →
  ∃ l, trace s' = l ++ trace s ∧ Forall (λ ev, plain_event ev = true) l.
Proof.
  intros H. apply worker_step_inv in H as (w & Hw & H).
  destruct (w_pc w) eqn:Hpc; cbv zeta in H.
  - destruct H as (c & _ & _ & -> & _). eexists. split; [done|]. by repeat constructor.
  - destruct H as (c & _ & ->). eexists. split; [done|]. apply connect_log_plain.
  - destruct H as (c & _ & _ & ->). eexists. split; [done|]. by repeat constructor.
  - destruct H as (c & _ & ->). exists []. by split.
  - destruct H as (c & _ & _ & ->). eexists. split; [done|]. by repeat constructor.
  - destruct H as (_ & ->). exists []. by split.
  - destruct H as (c & _ & _ & ->). eexists. split; [done|]. by repeat constructor.
  - destruct H as (c & _ & _ & ->). eexists. split; [done|]. by repeat constructor.
  - destruct H as (_ & ->). eexists. split; [done|]. by repeat constructor.
  - done.
Qed.

Lemma times_pos e l : e ∈ l → 1 ≤ times e l.
Proof.
  intros H. apply list_elem_of_In in H. unfold times.
  apply (count_occ_In event_eq_dec) in H. lia.
Qed.

Lemma bool_count_le b : bool_count b ≤ 1.
Proof. by destruct b; simpl; lia. Qed.

(** A worker whose callback has returned is not asleep and is never blocked:
    it returns by its own operations alone. *)
Lemma worker_runs e t n :
  ∀ y w, full_inv y → workers (sys_state y) !! t = Some w → w_cb w = C102 →
    steps_left (w_pc w) = n →
    ∃ y' w', run (replicate n (ActWorker t e)) y = Some y' ∧ full_inv y'
      ∧ workers (sys_state y') !! t = Some w' ∧ w_pc w' = W127 ∧ w_arg w' = w_arg w
      ∧ (0 < n → g_mutex (sys_state y') = MutexFree).
Proof.
  induction n as [|n IH]; intros y w Hfull Hw Hcb Hn.
  - exists y, w. split_and!; try done; [|lia]. by destruct (w_pc w).
  - pose proof Hfull as [[Hinv _] Hth].
    pose proof (wk_early _ _ _ (inv_workers _ Hinv t w Hw)) as Ke.
    destruct (Hth t w Hw) as (Ha & Hb & _).
    assert (before_connect (w_pc w) = false) as Hbc.
    { destruct (before_connect (w_pc w)); [|done]. rewrite (Ke eq_refl) in Hcb. done. }
    assert (w_pc w ≠ W121) as H121.
    { intros E. specialize (Ha E). by rewrite Hcb in Ha. }
    assert (w_pc w ≠ W121s) as H121s.
    { intros E. specialize (Hb E). by rewrite Hcb in Hb. }
    assert (w_pc w ≠ W110) as H110 by (intros E; by rewrite E in Hbc).
    assert (worker_enabled e (sys_state y) w = true) as Hen.
    { unfold worker_enabled. rewrite Hcb. by destruct (w_pc w). }
    destruct (worker_advance e t y w Hfull Hw H110 Hen) as (y1 & Hs1 & Hfull1 & Hw1 & Hg1).
    assert (next_cb e w = C102) as Hcb1.
    { unfold next_cb. by destruct (w_pc w). }
    assert (steps_left (next_pc w) = n) as Hn1.
    { unfold next_pc. rewrite Hcb. destruct (w_pc w); simpl in *; try done; lia. }
    destruct (IH y1 _ Hfull1 Hw1 Hcb1 Hn1)
      as (y' & w' & Hrun & Hfull' & Hw' & Hpc' & Ha' & Hg').
    exists y', w'. simpl. rewrite Hs1. split_and!; try done.
    intros _. destruct n as [|n'].
    + simpl in Hrun. injection Hrun as <-. apply Hg1.
      destruct (w_pc w); simpl in *; try done; lia.
    + apply Hg'. lia.
Qed.

(** * The threads together: properties of every reachable state *)

Ltac by_compute :=
  match goal with
  | |- ?P => apply (@bool_decide_unpack P _); vm_compute; exact I
  end.













Lemma waits_in_vain_step a y y' t :
  system_inv y → waits_in_vain t (sys_state y) → step a y = Some y' →
  waits_in_vain t (sys_state y').
Proof.
  intros [Hinv _] (w & Hw & Hcb & Hpc) Hstep.
  destruct a as [i|t' e|t' dst conn error e].
  - apply task_step_back in Hstep.
    destruct (task_step_frame _ _ _ _ _ _ _ Hinv Hstep) as (lw & l & Ew & _).
    exists w. split_and!; try done. rewrite Ew. by apply lookup_app_l_Some.
  - apply worker_step_back in Hstep as (Hstep & _).
    destruct (decide (t' = t)) as [->|Hne].
    + assert (t < length (workers (sys_state y))) as Hlt by by eapply lookup_lt_Some.
      assert (w_pc w ≠ W127) as Hlive by (intros E; by rewrite E in Hpc).
      destruct (worker_alive _ t w Hinv Hw Hlive) as (_ & c0 & Hc0 & _ & _ & Hd0).
      apply worker_step_inv in Hstep as (w0 & Hw0 & H).
      assert (w0 = w) as -> by congruence.
      destruct (w_pc w) eqn:E; cbv zeta in H; try done.
      * destruct H as (c & _ & _ & ->). exists (goes w W120).
        split_and!; try done. simpl. by rewrite list_lookup_insert_eq.
      * destruct H as (c & Hc & ->). assert (c = c0) as -> by congruence.
        rewrite Hd0, Hcb. simpl. exists (goes w W121).
        split_and!; try done. simpl. by rewrite list_lookup_insert_eq.
      * destruct H as (c & _ & _ & ->). exists (goes w W121s).
        split_and!; try done. simpl. by rewrite list_lookup_insert_eq.
      * destruct H as (_ & ->). exists (goes w W121r).
        split_and!; try done. simpl. by rewrite list_lookup_insert_eq.
      * destruct H as (c & _ & _ & ->). exists (goes w W120).
        split_and!; try done. simpl. by rewrite list_lookup_insert_eq.
    + apply worker_step_summary in Hstep as (w1 & w1' & l & _ & _ & Ew & _).
      exists w. split_and!; try done. rewrite Ew. by rewrite list_lookup_insert_ne.
  - apply callback_step_back in Hstep as (Hstep & _).
    apply (callback_step_summary _ _ _ _ _ _ _ _ Hinv) in Hstep
      as (w1 & w1' & l & Hw1 & Hact & Ew & _).
    destruct (decide (t' = t)) as [->|Hne].
    + assert (w1 = w) as -> by congruence. by rewrite Hcb in Hact.
    + exists w. split_and!; try done. rewrite Ew. by rewrite list_lookup_insert_ne.
Qed.



Lemma held_by_task_blocks y :
  system_inv y → g_mutex (sys_state y) = MutexHeld Task →
  all_waiting (sys_state y)
  ∧ (∀ t e, step (ActWorker t e) y = None)
  ∧ (∀ t dst conn error e, step (ActCallback t dst conn error e) y = None).
Proof.
  intros [Hinv Hok] Hg.
  assert (all_waiting (sys_state y)) as Hall.
  { destruct y as [s pc h]. unfold task_ok, lock_free_or_worker in Hok. simpl in *.
    destruct pc;
      try (destruct (scan_status (trace s)) as [r|]; [destruct (r =? 0)%Z|]);
      repeat match goal with
             | H : _ ∧ _ |- _ => destruct H
             | H : _ ∨ _ |- _ => destruct H
             | H : ∃ _, _ |- _ => destruct H
             end; try done; congruence. }
  split_and!; [done| |].
  - intros t e. destruct (step (ActWorker t e) y) as [y'|] eqn:E; [|done].
    apply worker_step_back in E as (E & _).
    apply worker_step_inv in E as (w & Hw & H).
    rewrite (Hall t w Hw) in H. destruct H as (c & _ & Hfree & _). congruence.
  - intros t dst conn error e.
    destruct (step (ActCallback t dst conn error e) y) as [y'|] eqn:E; [|done].
    apply callback_step_back in E as (E & _).
    apply callback_step_frame in E as (w & l & Hw & Hact & _).
    pose proof (wk_early _ _ _ (inv_workers _ Hinv t w Hw)) as Ke.
    rewrite (Hall t w Hw) in Ke. rewrite (Ke eq_refl) in Hact. done.
Qed.



Lemma scan_failed_step a y y' r :
  system_inv y → scan_status (trace (sys_state y)) = Some r → r ≠ 0%Z →
  step a y = Some y' →
  scan_status (trace (sys_state y')) = Some r
  ∧ workers (sys_state y') = workers (sys_state y)
  ∧ g_ble_connections (sys_state y') = g_ble_connections (sys_state y)
  ∧ heap (sys_state y') = heap (sys_state y).
Proof.
  intros Hsys Hs Hr Hstep. pose proof Hsys as [Hinv Hok].
  assert (g_mutex (sys_state y) = MutexHeld Task
          ∧ (sys_task y = T204 ∨ sys_task y = T205)) as [Hg Hpc].
  { destruct y as [s pc h]. unfold task_ok in Hok. simpl in *.
    pose proof Hr as Hrb. apply Z.eqb_neq in Hrb.
    destruct pc; rewrite ?Hs, ?Hrb in Hok;
      repeat match goal with H : _ ∧ _ |- _ => destruct H end;
      try congruence; auto. }
  destruct (held_by_task_blocks y Hsys Hg) as (_ & Hwk & Hcb).
  destruct a as [i|t e|t dst conn error e]; [|by rewrite Hwk in Hstep|by rewrite Hcb in Hstep].
  apply task_step_back in Hstep. apply task_step_inv in Hstep.
  destruct Hpc as [Hpc|Hpc]; rewrite Hpc in Hstep; destruct i; try done.
  destruct Hstep as (_ & _ & ->). by split_and!.
Qed.









(** X13 ([ble_connect_device] and [on_device_connect]): no operation of a
    worker or of a connection callback touches the registry, allocates or
    frees memory, creates or joins a thread, or moves the controller; all it
    adds to the trace is output, GATT calls and operations on the two locks and
    on the completion flag.  The registry is only ever accessed by the thread
    that runs [ble_task]. *)
Theorem threads_leave_registry_alone a y y' :
  step a y = Some y' → (∀ i, a ≠ ActTask i) →
  g_ble_connections (sys_state y') = g_ble_connections (sys_state y)
  ∧ length (heap (sys_state y')) = length (heap (sys_state y))
  ∧ length (workers (sys_state y')) = length (workers (sys_state y))
  ∧ sys_task y' = sys_task y
  ∧ ∃ l, trace (sys_state y') = l ++ trace (sys_state y)
         ∧ Forall (λ ev, thread_event ev = true) l.
Proof.
  intros Hstep Ha. destruct a as [i|t e|t dst conn error e].
  - by destruct (Ha i).
  - apply worker_step_back in Hstep as (Hstep & Hpc & _).
    apply worker_step_summary in Hstep
      as (w & w' & l & _ & _ & Ew & _ & Er & El & Et & Hl & _).
    split_and!; try done; [by rewrite Ew, length_insert | by exists l].
  - apply callback_step_back in Hstep as (Hstep & Hpc & _).
    apply callback_step_frame in Hstep as (w & l & _ & _ & Ew & Er & El & _ & Et & Hl).
    split_and!; try done. by exists l.
Qed.

Lemma threads_leave_registry_alone_witness :
  g_ble_connections (sys_state sys_locked) = g_ble_connections (sys_state sys_scanned)
  ∧ length (heap (sys_state sys_locked)) = length (heap (sys_state sys_scanned))
  ∧ length (workers (sys_state sys_locked)) = length (workers (sys_state sys_scanned))
  ∧ sys_task sys_locked = sys_task sys_scanned
  ∧ ∃ l, trace (sys_state sys_locked) = l ++ trace (sys_state sys_scanned)
         ∧ Forall (λ ev, thread_event ev = true) l.
Proof.
  apply (threads_leave_registry_alone (ActWorker 0 calls_back) sys_scanned sys_locked).
  - vm_compute. reflexivity.
  - discriminate.
Defined.





Ltac sync_tac Hl :=
  first [ rewrite (Hl [] eq_refl) | rewrite (Hl [_] eq_refl) | rewrite (Hl [_; _] eq_refl)
        | rewrite (Hl [_; _; _] eq_refl)
        | rewrite (Hl [_; _; _; _; _; _; _] eq_refl)
        | rewrite (Hl [_; _; _; _; _; _; _; _] eq_refl) ].

(** What an operation of the controller does to the locks and conditions of
    the records: it initialises them in the block it has just allocated
    (blocks are numbered by allocation) and destroys them in the record of a
    worker that has returned. *)
Lemma task_step_sync i pc h s pc' h' s' l :
  state_inv s → ble_task_step i pc h s = Ok (pc', h') s' → trace s' = l ++ trace s →
  (∀ p, MutexInit p ∈ l ∨ CondInit p ∈ l → p = length (heap s))
  ∧ (∀ p, MutexDestroy p ∈ l ∨ CondDestroy p ∈ l →
          ∃ t w, workers s !! t = Some w ∧ w_arg w = p ∧ w_pc w = W127).
Proof.
  intros Hinv H El.
  assert (∀ l0, trace s' = l0 ++ trace s → l = l0) as Hl.
  { intros l0 E. rewrite El in E. by apply app_inv_tail in E. }
  apply task_step_inv in H. destruct pc, i; try done.
  - destruct H as [-> H].
    destruct (r =? 0)%Z; destruct H as [-> ->]; sync_tac Hl;
      split; intros p [Hp|Hp]; in_list Hp.
  - destruct H as (-> & -> & _ & ->). sync_tac Hl.
    split; intros p [Hp|Hp]; in_list Hp.
  - destruct H as (-> & -> & H). revert H.
    destruct (decide (adv_name a = Some CONNECT_DEVICE_NAME)) as [Hn|Hn].
    2:{ destruct (discovered_rejected (adv_env a) h (adv_addr a) (adv_name a) s Hn)
          as [ev ->].
        intros [= <-]. sync_tac Hl. split; intros p [Hp|Hp]; in_list Hp. }
    rewrite Hn. destruct (calloc_ok (adv_env a)) eqn:Hc.
    2:{ rewrite discovered_no_memory by done. intros [= <-]. sync_tac Hl.
        split; intros p [Hp|Hp]; in_list Hp. }
    destruct (decide (pthread_create_ret (adv_env a) = 0%Z)) as [Hr|Hr].
    + rewrite discovered_accepted by done. intros [= <-]. sync_tac Hl.
      split; intros p [Hp|Hp]; in_list Hp.
    + rewrite discovered_no_thread by done. intros [= <-]. sync_tac Hl.
      split; intros p [Hp|Hp]; in_list Hp.
  - destruct H as [-> H].
    destruct (r =? 0)%Z; destruct H as [-> ->]; sync_tac Hl;
      split; intros p [Hp|Hp]; in_list Hp.
  - destruct H as (-> & -> & ->). sync_tac Hl.
    split; intros p [Hp|Hp]; in_list Hp.
  - destruct H as (-> & -> & _ & ->). sync_tac Hl.
    split; intros p [Hp|Hp]; in_list Hp.
  - destruct H as [-> [(Er & -> & ->)|(Er & -> & H)]].
    + sync_tac Hl. split; intros p [Hp|Hp]; in_list Hp.
    + destruct (drain_body_shape s s' Hinv H)
        as (p0 & rest & c & t & w & _ & Hc & Ht & Hw & Ha & Hpc & ->).
      rewrite (Hl _ (drained_trace p0 c t rest s Hc Ht)).
      unfold release_log. rewrite Hc, Ht.
      split; intros p Hp; [exfalso|exists t, w; split_and!; try done];
        destruct (addr c); simpl in Hp; destruct Hp as [Hp|Hp]; in_list Hp.
  - destruct H as (-> & -> & ->). sync_tac Hl.
    split; intros p [Hp|Hp]; in_list Hp.
Qed.





(** * The functions one by one: further properties *)

Lemma times_service_lines ev i l :
  (∀ m, ev ≠ Printf m) → times ev (service_lines i l) = 0.
Proof.
  intros H. apply times_plain. revert i. induction l as [|sv l IH]; intros i; simpl.
  - constructor.
  - constructor; [|apply IH]. intros E. by apply (H (MsgService i sv)).
Qed.

Lemma times_characteristic_lines ev i l :
  (∀ m, ev ≠ Printf m) → times ev (characteristic_lines i l) = 0.
Proof.
  intros H. apply times_plain. revert i. induction l as [|ch l IH]; intros i; simpl.
  - constructor.
  - constructor; [|apply IH]. intros E. by apply (H (MsgCharacteristic i ch)).
Qed.

(** [on_device_connect] on a record that is allocated, unlocked and whose
    condition exists. *)
Lemma on_device_connect_eq e me adapter dst conn error p s c :
  connection_at s p = Some c → done_mutex c = MutexFree → done_cond c = CondReady →
  ∃ s', on_device_connect e me adapter dst conn error p s = Ok tt s'
    ∧ connection_at s' p = Some (set_is_done true c)
    ∧ trace s' = [UnlockDone p me; CondSignal p me; SetDone p me; LockDone p me]
                 ++ rev (discover_log e conn ++ disconnect_log e conn p) ++ trace s
    ∧ length (heap s') = length (heap s)
    ∧ g_ble_connections s' = g_ble_connections s
    ∧ g_mutex s' = g_mutex s
    ∧ workers s' = wake_on p <$> workers s
    ∧ ∀ q, q ≠ p → heap s' !! q = heap s !! q.
Proof.
  intros Hc Hm Hd. unfold on_device_connect.
  rewrite (bind_ok _ _ _ _ _ (gatt_session_log e conn p s)).
  set (s1 := add_events _ s).
  assert (connection_at s1 p = Some c) as Hc1 by done.
  unfold signal_lock. rewrite (bind_ok _ _ _ _ _ (lock_done_eq _ _ _ me Hc1 Hm)).
  set (c2 := set_done_mutex (MutexHeld me) c). set (s2 := emit (LockDone p me) _).
  assert (connection_at s2 p = Some c2) as Hc2.
  { unfold s2. change (connection_at (emit ?ev ?s0) ?q) with (connection_at s0 q).
    by eapply connection_at_put_eq. }
  assert (signal_set p me s2
          = Ok tt (emit (SetDone p me) (put_connection p (set_is_done true c2) s2))) as E3.
  { unfold signal_set. by rewrite (bind_ok _ _ _ _ _ (store_connection_eq _ _ _ _ Hc2)). }
  rewrite (bind_ok _ _ _ _ _ E3).
  set (c3 := set_is_done true c2). set (s3 := emit (SetDone p me) _).
  assert (connection_at s3 p = Some c3) as Hc3.
  { unfold s3. change (connection_at (emit ?ev ?s0) ?q) with (connection_at s0 q).
    by eapply connection_at_put_eq. }
  unfold signal_cond.
  rewrite (bind_ok _ _ _ _ _ (cond_signal_eq _ _ _ me Hc3 Hd)).
  set (s4 := emit (CondSignal p me) (with_workers _ s3)).
  assert (connection_at s4 p = Some c3) as Hc4 by done.
  unfold signal_unlock. rewrite (unlock_done_eq _ _ _ me Hc4 eq_refl).
  eexists. split; [done|].
  pose proof (connection_at_lt _ _ _ Hc) as Hlt.
  split_and!; try done.
  - change (connection_at (emit ?ev ?s0) ?q) with (connection_at s0 q).
    rewrite (connection_at_put_eq _ _ _ _ Hc4). f_equal.
    destruct c. simpl in *. by subst.
  - simpl. by rewrite !length_insert.
  - intros q Hq. simpl. by rewrite !list_lookup_insert_ne.
Qed.





Ltac session_count :=
  rewrite !times_app, times_rev, times_app; unfold discover_log, disconnect_log;
  destruct (discover_primary_ret _ =? 0)%Z, (discover_char_ret _ =? 0)%Z,
    (disconnect_ret _ =? GATTLIB_SUCCESS)%Z; simpl negb; simpl andb; cbv iota;
  repeat (rewrite ?times_cons, ?times_app, ?times_nil;
          rewrite ?times_service_lines, ?times_characteristic_lines by done);
  repeat case_decide; simplify_eq; lia.

(** X17 ([on_device_connect], lines 62-89): the array of services is freed
    exactly when the service discovery succeeded, the array of
    characteristics exactly when both discoveries succeeded, each once;
    characteristics are requested exactly when the service discovery
    succeeded. *)
Theorem arrays_freed_iff_discovered e me adapter dst conn error p s c :
  connection_at s p = Some c → done_mutex c = MutexFree → done_cond c = CondReady →
  ∃ s', on_device_connect e me adapter dst conn error p s = Ok tt s'
    ∧ times FreeServices (trace s')
      = times FreeServices (trace s)
        + (if (discover_primary_ret e =? 0)%Z then 1 else 0)
    ∧ times FreeCharacteristics (trace s')
      = times FreeCharacteristics (trace s)
        + (if ((discover_primary_ret e =? 0) && (discover_char_ret e =? 0))%Z
           then 1 else 0)
    ∧ times (DiscoverChar conn (discover_char_ret e)) (trace s')
      = times (DiscoverChar conn (discover_char_ret e)) (trace s)
        + (if (discover_primary_ret e =? 0)%Z then 1 else 0).
Proof.
  intros Hc Hm Hd.
  destruct (on_device_connect_eq e me adapter dst conn error p s c Hc Hm Hd)
    as (s' & E & _ & Et & _).
  exists s'. split; [done|]. rewrite Et.
  split_and!; session_count.
Qed.

Lemma arrays_freed_iff_discovered_witness :
  ∃ s', on_device_connect gatt_char_fails (Callback 0) 7 "AA:BB:CC:DD:EE:01" 3 0 0 one_device
        = Ok tt s'
    ∧ times FreeServices (trace s') = times FreeServices (trace one_device) + 1
    ∧ times FreeCharacteristics (trace s') = times FreeCharacteristics (trace one_device) + 0
    ∧ times (DiscoverChar 3 1) (trace s') = times (DiscoverChar 3 1) (trace one_device) + 1.
Proof.
  apply (arrays_freed_iff_discovered gatt_char_fails (Callback 0) 7 "AA:BB:CC:DD:EE:01" 3 0 0
           one_device (accepted_connection 7 0 (Some 1))).
  - vm_compute. reflexivity.
  - reflexivity.
  - reflexivity.
Defined.

(** X18 ([ble_discovered_device], lines 130-167): the scan callback always
    returns and never blocks.  It leaves [g_mutex] and the adapter name alone,
    changes no block of the heap that existed and no existing thread, removes
    nothing from the registry, and adds at most one record, at its head, at
    most one thread and at most two blocks. *)
Theorem discovery_callback_frame e adapter a name s :
  ∃ s' lh lw l,
    ble_discovered_device e adapter a name s = Ok tt s'
    ∧ g_mutex s' = g_mutex s ∧ adapter_name s' = adapter_name s
    ∧ heap s' = heap s ++ lh ∧ length lh ≤ 2
    ∧ workers s' = workers s ++ lw ∧ length lw ≤ 1
    ∧ trace s' = l ++ trace s
    ∧ (g_ble_connections s' = g_ble_connections s
       ∨ (g_ble_connections s' = length (heap s) :: g_ble_connections s
          ∧ length lw = 1)).
Proof.
  destruct (decide (name = Some CONNECT_DEVICE_NAME)) as [->|Hn].
  2:{ destruct (discovered_rejected e adapter a name s Hn) as [ev ->].
      exists (emit (Printf ev) s), [], [], [Printf ev]. simpl. rewrite !app_nil_r.
      split_and!; try done; try lia. by left. }
  destruct (calloc_ok e) eqn:Hc.
  2:{ rewrite discovered_no_memory by done.
      eexists _, [], [], [_; _; _]. simpl. rewrite !app_nil_r.
      split_and!; try done; try lia. by left. }
  destruct (decide (pthread_create_ret e = 0%Z)) as [Hr|Hr].
  2:{ rewrite discovered_no_thread by done.
      eexists _, (None :: strdup_block (strdup_ok e) a), [], [_; _; _; _; _; _; _; _].
      simpl. rewrite !app_nil_r.
      split_and!; try done; try lia; [|by left].
      destruct (strdup_ok e); simpl; lia. }
  rewrite discovered_accepted by done.
  eexists _, (Some (BConnection
                      (accepted_connection adapter (length (workers s))
                         (strdup_ptr (strdup_ok e) (S (length (heap s))))))
              :: strdup_block (strdup_ok e) a), [_], [_; _; _; _; _; _; _].
  simpl.
  split_and!; try done; try lia; [|by right].
  destruct (strdup_ok e); simpl; lia.
Qed.

(** X19 ([ble_discovered_device], lines 149-153): when [calloc] fails for a
    device with the target name, the callback logs the error and returns;
    nothing is allocated, no address is copied, no mutex or condition is
    initialised, no thread is created and nothing is inserted. *)
Theorem calloc_failure_skips_device e adapter a s :
  calloc_ok e = false →
  ∃ s', ble_discovered_device e adapter a (Some CONNECT_DEVICE_NAME) s = Ok tt s'
    ∧ head (trace s') = Some (Log ErrAllocConnection)
    ∧ heap s' = heap s ∧ workers s' = workers s
    ∧ g_ble_connections s' = g_ble_connections s
    ∧ ∀ ev, ev ∈ trace s' → ev ∉ trace s →
            ev = Log ErrAllocConnection ∨ ev = Calloc None
            ∨ ev = Printf (MsgDiscoveredNamed a CONNECT_DEVICE_NAME).
Proof.
  intros Hc. rewrite discovered_no_memory by done. eexists. split; [done|].
  split_and!; try done. simpl. intros ev Hev Hold.
  repeat (apply elem_of_cons in Hev as [->|Hev]; [by auto|]). done.
Qed.

Lemma calloc_failure_skips_device_witness :
  ∃ s', ble_discovered_device no_memory 7 "AA:BB:CC:DD:EE:01" (Some CONNECT_DEVICE_NAME)
          one_device = Ok tt s'
    ∧ head (trace s') = Some (Log ErrAllocConnection)
    ∧ heap s' = heap one_device ∧ workers s' = workers one_device
    ∧ g_ble_connections s' = g_ble_connections one_device
    ∧ ∀ ev, ev ∈ trace s' → ev ∉ trace one_device →
            ev = Log ErrAllocConnection ∨ ev = Calloc None
            ∨ ev = Printf (MsgDiscoveredNamed "AA:BB:CC:DD:EE:01" CONNECT_DEVICE_NAME).
Proof.
  apply (calloc_failure_skips_device no_memory 7 "AA:BB:CC:DD:EE:01" one_device).
  reflexivity.
Defined.



(** X21 ([ble_task], lines 169-206): [ble_task] returns in every case in
    which each [pthread_join] returns.  If the adapter could be opened, closing
    it is the last thing [ble_task] does; if not, it only logs the failure
    and the adapter is neither locked for, scanned nor closed. *)
Theorem ble_task_returns e :
  (∀ t, join_returns e t = true) →
  ∃ s', ble_task e initial_state = Ok tt s'
    ∧ if (adapter_open_ret e =? 0)%Z
      then head (trace s') = Some (AdapterClose (adapter_handle e))
      else trace s' = [Log ErrOpenAdapter; AdapterOpen None (adapter_open_ret e)]
           ∧ g_mutex s' = MutexFree.
Proof.
  intros Hj. destruct (adapter_open_ret e =? 0)%Z eqn:Ho.
  - apply Z.eqb_eq in Ho. destruct (decide (scan_ret e = 0%Z)) as [Hs|Hs].
    + destruct (ble_task_drains e Ho Hs) as (s0 & _ & H). cbv zeta in H.
      destruct H as (_ & _ & _ & _ & H).
      destruct (ble_task e initial_state) as [[] s'|s'|s'|]; try done.
      * exists s'. split; [done|]. destruct H as (_ & _ & -> & _). done.
      * destruct H as [t Ht]. by rewrite Hj in Ht.
    + destruct (scan_failure_keeps_lock e Ho Hs) as (s' & E & _ & Hh). by exists s'.
  - apply Z.eqb_neq in Ho. rewrite ble_task_open_failed by done. eexists. by split_and!.
Qed.

Lemma ble_task_returns_witness :
  ∃ s', ble_task two_devices initial_state = Ok tt s'
    ∧ if (adapter_open_ret two_devices =? 0)%Z
      then head (trace s') = Some (AdapterClose (adapter_handle two_devices))
      else trace s' = [Log ErrOpenAdapter; AdapterOpen None (adapter_open_ret two_devices)]
           ∧ g_mutex s' = MutexFree.
Proof.
  apply (ble_task_returns two_devices). intros t. reflexivity.
Defined.
